(** * genpkg: build / install / remove lifecycle engine

    A shallow embedding of the orchestration code of [genpkg1.0.py]
    (and, where a property is also stated of it, of the older
    [genpkg.py]) together with the properties checked of it.

    Everything the Python code delegates to the outside world (shell
    commands, downloads, the tar codec, the clock, the disk) is a
    parameter of the development: the theorems hold for every
    behaviour of these collaborators. *)

From stdpp Require Import gmap strings list fin_maps sorting.
From Stdlib Require Import ZArith Lia Ascii String.

Local Open Scope string_scope.
Local Open Scope list_scope.
#[local] Set Warnings "-clear-no-such-hyp".

(** ** Python values shared by all parts *)

(** The exception classes the code raises, catches or lets through. *)
Inductive exn : Type :=
| FileNotFoundError (msg : string)
| CalledProcessError (returncode : Z) (cmd : string)
| RuntimeError (msg : string)
| ValueError (msg : string)
| JSONDecodeError (msg : string)
| OSError (msg : string)
| KeyboardInterrupt.

(** [except Exception] catches every class above but
    [KeyboardInterrupt], which derives from [BaseException] only. *)
Definition is_Exception (e : exn) : bool :=
  match e with
  | KeyboardInterrupt => false
  | _ => true
  end.

(** [except OSError] : [FileNotFoundError] is a subclass of [OSError]. *)
Definition is_OSError (e : exn) : bool :=
  match e with
  | OSError _ | FileNotFoundError _ => true
  | _ => false
  end.

(** The outcome of a call: a value, or a raised exception. *)
Inductive res (A : Type) : Type :=
| Ok (a : A)
| Raise (e : exn).
Arguments Ok {A} a.
Arguments Raise {A} e.

Definition raised {A} (r : res A) : option exn :=
  match r with
  | Ok _ => None
  | Raise e => Some e
  end.

(** [s.startswith(pre)] *)
Definition startswith (s pre : string) : bool := String.prefix pre s.

(** [s[n:]] *)
Fixpoint str_drop (n : nat) (s : string) : string :=
  match n, s with
  | O, _ => s
  | S n', String _ s' => str_drop n' s'
  | S _, EmptyString => EmptyString
  end.

(** [base / rel] for a relative [rel] without dot segments. *)
Definition path_join (base rel : string) : string :=
  if String.eqb base "/" then "/" +:+ rel else base +:+ "/" +:+ rel.

(** The recipe record built by [Recipe.__init__]. *)
Record Recipe : Type := mkRecipe {
  name : string;
  version : string;
  url : string;
  deps : list string;
  commands : list string;
  patches : list string;
  pre_install : list string;
  post_install : list string;
  pre_remove : list string;
  post_remove : list string;
  path : string
}.

(** One entry of [installed.json]; the fields are the keys of the
    dictionary written by [_build_and_install]. *)
Record InstallRecord : Type := mkInstallRecord {
  meta_version : string;
  meta_files : list string;
  meta_package_file : string;
  meta_destdir : string;
  meta_bin_files : list string;
  meta_installed_root : string;
  meta_installed_at : Z;
  meta_recipe_path : string
}.

(** A member of a tar archive; the code reads only its [name]. *)
Record TarInfo : Type := mkTarInfo { tar_name : string }.

(** ** pathlib and sorting helpers used by [install_package_files] *)

(** [s.split("/")] *)
Fixpoint split_slash_aux (s : string) (cur : string) : list string :=
  match s with
  | EmptyString => [cur]
  | String c s' =>
      if Ascii.eqb c "/"%char then cur :: split_slash_aux s' ""
      else split_slash_aux s' (cur +:+ String c "")
  end.
Definition split_slash (s : string) : list string := split_slash_aux s "".

Fixpoint join_slash (parts : list string) : string :=
  match parts with
  | [] => ""
  | [p] => p
  | p :: ps => p +:+ "/" +:+ join_slash ps
  end.

(** [p.parent] for a path without dot segments. *)
Definition path_parent (p : string) : string :=
  match join_slash (removelast (split_slash p)) with
  | EmptyString => if startswith p "/" then "/" else "."
  | d => d
  end.

(** [str(Path(s))] on POSIX: empty and ["."] components are dropped,
    a leading slash is kept (two leading slashes exactly stay two),
    and the empty path prints as ["."]. *)
Definition str_Path (s : string) : string :=
  let parts :=
    filter (fun p => negb (String.eqb p "" || String.eqb p ".")) (split_slash s) in
  let root :=
    if startswith s "//" && negb (startswith s "///") then "//"
    else if startswith s "/" then "/" else "" in
  match parts, root with
  | [], "" => "."
  | _, _ => root +:+ join_slash parts
  end.

(** [sorted(list({p for p in created}))]: ascending, without repeats. *)
Fixpoint insert_sorted (x : string) (l : list string) : list string :=
  match l with
  | [] => [x]
  | y :: l' =>
      if String.eqb x y then l
      else if String.ltb x y then x :: l
      else y :: insert_sorted x l'
  end.
Definition sorted_set (l : list string) : list string :=
  foldr insert_sorted [] l.

(** Two laws of string concatenation. *)
Lemma str_app_nil_r (s : string) : s +:+ "" = s.
Proof.
  induction s as [|a s IH]; [reflexivity|].
  change (String a (s +:+ "") = String a s). congruence.
Qed.

Lemma str_app_assoc (s1 s2 s3 : string) : (s1 +:+ s2) +:+ s3 = s1 +:+ (s2 +:+ s3).
Proof.
  induction s1 as [|a s1 IH]; [reflexivity|].
  change (String a ((s1 +:+ s2) +:+ s3) = String a (s1 +:+ (s2 +:+ s3))).
  congruence.
Qed.

(** ** Facts about the helpers *)

(** The order of [sorted] on strings: by bytes, a prefix first. *)
Definition str_lt (a b : string) : Prop := String.ltb a b = true.

Lemma ascii_compare_refl (a : ascii) : Ascii.compare a a = Eq.
Proof. apply N.compare_refl. Qed.

Lemma ascii_compare_lt_trans (a b c : ascii) :
  Ascii.compare a b = Lt -> Ascii.compare b c = Lt -> Ascii.compare a c = Lt.
Proof.
  unfold Ascii.compare. rewrite !N.compare_lt_iff. apply N.lt_trans.
Qed.

Lemma str_compare_lt_trans (a b c : string) :
  String.compare a b = Lt -> String.compare b c = Lt -> String.compare a c = Lt.
Proof.
  revert b c. induction a as [|x a IH]; intros [|y b] [|z c]; simpl; try done.
  destruct (Ascii.compare x y) eqn:Exy; try done;
    destruct (Ascii.compare y z) eqn:Eyz; try done.
  - apply Ascii.compare_eq_iff in Exy as ->, Eyz as ->.
    rewrite ascii_compare_refl. apply IH.
  - apply Ascii.compare_eq_iff in Exy as ->. by rewrite Eyz.
  - apply Ascii.compare_eq_iff in Eyz as <-. by rewrite Exy.
  - by rewrite (ascii_compare_lt_trans _ _ _ Exy Eyz).
Qed.

Lemma str_lt_trans a b c : str_lt a b -> str_lt b c -> str_lt a c.
Proof.
  unfold str_lt, String.ltb.
  destruct (String.compare a b) eqn:Eab; try done.
  destruct (String.compare b c) eqn:Ebc; try done.
  by rewrite (str_compare_lt_trans _ _ _ Eab Ebc).
Qed.

Lemma str_compare_refl (a : string) : String.compare a a = Eq.
Proof.
  induction a as [|x a IH]; simpl; [done|]. by rewrite ascii_compare_refl.
Qed.

Lemma str_lt_irrefl a : ~ str_lt a a.
Proof. unfold str_lt, String.ltb. by rewrite str_compare_refl. Qed.

Lemma str_lt_total a b : String.eqb a b = false -> String.ltb a b = false -> str_lt b a.
Proof.
  unfold str_lt, String.ltb. intros Hne Hlt. rewrite String.compare_antisym.
  destruct (String.compare a b) eqn:E; simpl; try done.
  apply String.compare_eq_iff in E. apply String.eqb_neq in Hne. done.
Qed.

Lemma elem_of_insert_sorted x y l : y ∈ insert_sorted x l <-> y = x \/ y ∈ l.
Proof.
  induction l as [|z l IH]; simpl; [set_solver|].
  destruct (String.eqb x z) eqn:Exz.
  - apply String.eqb_eq in Exz as ->. set_solver.
  - destruct (String.ltb x z); set_solver.
Qed.

Lemma insert_sorted_sorted x l :
  StronglySorted str_lt l -> StronglySorted str_lt (insert_sorted x l).
Proof.
  induction 1 as [|z l Hs IH Hz]; simpl; [by repeat constructor|].
  destruct (String.eqb x z) eqn:Exz; [by constructor|].
  destruct (String.ltb x z) eqn:Hlt.
  - constructor; [by constructor|]. constructor; [done|].
    eapply Forall_impl; [exact Hz|]. intros w Hw. by eapply str_lt_trans.
  - constructor; [done|]. apply Forall_forall. intros w Hw.
    apply elem_of_insert_sorted in Hw as [->|Hw]; [by apply str_lt_total|].
    rewrite Forall_forall in Hz. by apply Hz.
Qed.

Lemma sorted_set_sorted l : StronglySorted str_lt (sorted_set l).
Proof.
  induction l as [|x l IH]; simpl; [constructor | by apply insert_sorted_sorted].
Qed.

Lemma elem_of_sorted_set x l : x ∈ sorted_set l <-> x ∈ l.
Proof.
  induction l as [|y l IH]; simpl; [done|].
  rewrite elem_of_insert_sorted, IH. set_solver.
Qed.

Lemma strongly_sorted_NoDup l : StronglySorted str_lt l -> NoDup l.
Proof.
  induction 1 as [|z l Hs IH Hz]; constructor; [|done].
  intros Hin. rewrite Forall_forall in Hz. by apply (str_lt_irrefl z), Hz.
Qed.

(** [str(Path(s))] of a relative name is relative. *)
Lemma startswith_slash_cons c s :
  startswith (String c s) "/" = Ascii.eqb c "/"%char.
Proof.
  unfold startswith.
  change (String.prefix "/" (String c s))
    with (if ascii_dec "/" c then String.prefix "" s else false).
  destruct (ascii_dec "/" c) as [<-|Hne].
  - by destruct s.
  - symmetry. apply Ascii.eqb_neq. congruence.
Qed.

Lemma startswith_slash_app p q :
  p <> "" -> startswith (p +:+ q) "/" = startswith p "/".
Proof.
  intros Hne. destruct p as [|c p]; [by destruct Hne|].
  change (String c p +:+ q) with (String c (p +:+ q)).
  by rewrite !startswith_slash_cons.
Qed.

Lemma split_slash_aux_relative s cur :
  startswith cur "/" = false ->
  Forall (fun p => startswith p "/" = false) (split_slash_aux s cur).
Proof.
  revert cur. induction s as [|c s IH]; intros cur Hcur; simpl.
  - by repeat constructor.
  - destruct (Ascii.eqb c "/"%char) eqn:Ec.
    + constructor; [done|]. by apply IH.
    + apply IH. destruct cur as [|d cur].
      * change ("" +:+ String c "") with (String c "").
        by rewrite startswith_slash_cons.
      * by rewrite startswith_slash_app.
Qed.

Lemma join_slash_relative parts :
  Forall (fun p => p <> "" /\ startswith p "/" = false) parts ->
  startswith (join_slash parts) "/" = false.
Proof.
  intros [|p ps [Hne Hp] Hps]; simpl; [done|].
  destruct ps; [done|]. by rewrite startswith_slash_app.
Qed.

Lemma str_Path_relative s :
  startswith s "/" = false -> startswith (str_Path s) "/" = false.
Proof.
  intros Hs. unfold str_Path.
  assert (startswith s "//" = false) as ->.
  { destruct s as [|c s]; [done|]. rewrite startswith_slash_cons in Hs.
    unfold startswith.
    change (String.prefix "//" (String c s))
      with (if ascii_dec "/" c then String.prefix "/" s else false).
    destruct (ascii_dec "/" c) as [<-|]; [done|done]. }
  rewrite Hs. simpl.
  set (parts := filter _ (split_slash s)).
  assert (Hparts : Forall (fun p => p <> "" /\ startswith p "/" = false) parts).
  { apply Forall_forall. intros p Hp. apply list_elem_of_filter in Hp as [Hp1 Hp2].
    split.
    - intros ->. by simpl in Hp1.
    - pose proof (split_slash_aux_relative s "" eq_refl) as H.
      rewrite Forall_forall in H. by apply H. }
  destruct parts as [|p ps]; [done|]. by apply join_slash_relative.
Qed.

(** ** The install side of [genpkg1.0.py] *)

Module V10.

(** The points of the pipeline at which the outside world is called;
    they label the entries of the execution trace. *)
Inductive step : Type :=
| SResolve
| SMkdirLogs
| SHook (stage cmd : string)
| SFetch
| SExtract
| SWhichPatch
| SPatchDownload (patch_url : string)
| SPatch (patch_url : string)
| SPrepare
| SBuild (cmd : string)
| SStrip
| SPackage
| SCopyBin
| STarOpen
| STarCheck
| SExtractAll
| SRecord
| SSave.

(** A trace entry: the package, the step, and the exception the step
    raised, if it raised one. *)
Record event : Type := mkEvent {
  ev_pkg : string;
  ev_step : step;
  ev_exn : option exn
}.

Definition failed (ev : event) : Prop := ev_exn ev <> None.

(** The module-level directory constants. *)
Record Dirs : Type := mkDirs {
  BASE_DIR : string;
  RECIPES_DIR : string;
  SOURCES_DIR : string;
  PATCHES_DIR : string;
  DESTDIR_BASE : string;
  PACKAGES_DIR : string;
  LOGS_DIR : string;
  BIN_DIR : string
}.

(** The external collaborators, each a function of the outside world
    [Ext] (file system, network, processes, clock): what the call
    changes, and what it returns or raises. *)
Record World (Ext : Type) : Type := mkWorld {
  mkdir : string -> Ext -> Ext * res unit;
  run_cmd : string -> string -> Ext -> Ext * res Z;
  popen : string -> string -> list (string * string) -> Ext -> Ext * (string * res Z);
  git_download : string -> string -> Ext -> Ext * res string;
  http_download : string -> string -> Ext -> Ext * res string;
  extract_tar_any : string -> string -> Ext -> Ext * res string;
  which : string -> Ext -> bool;
  reset_destdir : string -> Ext -> Ext * res unit;
  strip_binaries_in : string -> Ext -> Ext * res unit;
  package_destdir : string -> string -> string -> Ext -> Ext * res string;
  copy_binaries_to_bindir : string -> Ext -> Ext * res (list string);
  tar_getmembers : string -> Ext -> res (list TarInfo);
  tar_extractall : string -> string -> Ext -> Ext * res unit;
  db_save : gmap string InstallRecord -> Ext -> Ext * res unit;
  time_now : Ext -> Z
}.
Arguments mkdir {Ext}.
Arguments run_cmd {Ext}.
Arguments popen {Ext}.
Arguments git_download {Ext}.
Arguments http_download {Ext}.
Arguments extract_tar_any {Ext}.
Arguments which {Ext}.
Arguments reset_destdir {Ext}.
Arguments strip_binaries_in {Ext}.
Arguments package_destdir {Ext}.
Arguments copy_binaries_to_bindir {Ext}.
Arguments tar_getmembers {Ext}.
Arguments tar_extractall {Ext}.
Arguments db_save {Ext}.
Arguments time_now {Ext}.

(** The fields of [Installer] that stay fixed during one invocation;
    [recipes] is the recipe repository as [Recipes.find] sees it. *)
Record Installer : Type := mkInstaller {
  recipes : gmap string Recipe;
  target_root : string;
  use_strip : bool
}.

(** The mutable state of one invocation: the in-memory manifest
    [db.data], the per-package log files, the outside world, and the
    trace of what has been executed so far. *)
Record State (Ext : Type) : Type := mkState {
  db : gmap string InstallRecord;
  logs : gmap string string;
  ext : Ext;
  trace : list event
}.
Arguments mkState {Ext}.
Arguments db {Ext}.
Arguments logs {Ext}.
Arguments ext {Ext}.
Arguments trace {Ext}.

Section Engine.

Context {Ext : Type}.
Variable dirs : Dirs.
Variable os : World Ext.
Variable self : Installer.

Definition M (A : Type) : Type := State Ext -> State Ext * res A.

Definition ret {A} (a : A) : M A := fun st => (st, Ok a).

Definition bind {A B} (m : M A) (k : A -> M B) : M B :=
  fun st =>
    match m st with
    | (st', Ok a) => k a st'
    | (st', Raise e) => (st', Raise e)
    end.

Notation "'let!' x ':=' m 'in' k" := (bind m (fun x => k))
  (at level 10, x name, m at level 100, k at level 200, only parsing).
Notation "m >> k" := (bind m (fun _ => k))
  (at level 90, right associativity, only parsing).

(** A call to a collaborator, entered in the trace with its outcome. *)
Definition act {A} (pkg : string) (s : step) (o : Ext -> Ext * res A) : M A :=
  fun st =>
    let '(e', r) := o (ext st) in
    (mkState (db st) (logs st) e' (trace st ++ [mkEvent pkg s (raised r)]), r).

(** [raise exc], entered in the trace. *)
Definition throw {A} (pkg : string) (s : step) (e : exn) : M A :=
  fun st =>
    (mkState (db st) (logs st) (ext st) (trace st ++ [mkEvent pkg s (Some e)]),
     Raise e).

(** [check=True]: a non-zero exit status becomes [CalledProcessError]. *)
Definition checked (cmd : string) (o : Ext -> Ext * res Z) : Ext -> Ext * res unit :=
  fun e =>
    match o e with
    | (e', Ok rc) =>
        if (rc =? 0)%Z then (e', Ok tt) else (e', Raise (CalledProcessError rc cmd))
    | (e', Raise x) => (e', Raise x)
    end.

(** [open(log_file, "a").write(text)] *)
Definition log_append (log_file text : string) : M unit :=
  fun st =>
    (mkState (db st)
             (<[log_file := default "" (logs st !! log_file) +:+ text]> (logs st))
             (ext st) (trace st),
     Ok tt).

(** [for x in xs: body(x)] *)
Fixpoint for_each {A} (xs : list A) (body : A -> M unit) : M unit :=
  match xs with
  | [] => ret tt
  | x :: xs' => body x >> for_each xs' body
  end.

(** [run_hooks(hooks, stage, workdir, log_file=log_file)] *)
Definition run_hooks (pkg : string) (hooks : list string) (stage workdir : string)
    (log_file : option string) : M unit :=
  for_each hooks (fun cmd =>
    match log_file with
    | Some lf => log_append lf ("
[HOOK " +:+ stage +:+ "] $ " +:+ cmd +:+ "
")
    | None => ret tt
    end >>
    act pkg (SHook stage cmd) (checked cmd (run_cmd os cmd workdir))).

(** [run_logged(cmd, cwd=cwd, log_file=log_file, env=env)]: the
    directory of the log is created first; the command writes its
    combined output to the end of the log itself, while the line
    with the command waits in the buffer of the file object until
    the file is closed, so it comes after the output (a command
    line longer than that buffer is not modelled); a non-zero
    exit status raises [CalledProcessError]. The whole call is one
    step of the trace. *)
Definition run_logged (pkg cmd cwd log_file : string)
    (env : list (string * string)) : M unit :=
  fun st =>
    match mkdir os (path_parent log_file) (ext st) with
    | (e0, Raise x) =>
        (mkState (db st) (logs st) e0
                 (trace st ++ [mkEvent pkg (SBuild cmd) (Some x)]),
         Raise x)
    | (e0, Ok _) =>
        let '(e', (out, r)) := popen os cmd cwd env e0 in
        let r' :=
          match r with
          | Ok rc => if (rc =? 0)%Z then Ok tt else Raise (CalledProcessError rc cmd)
          | Raise x => Raise x
          end in
        (mkState (db st)
                 (<[log_file := default "" (logs st !! log_file) +:+ out +:+ ("
$ " +:+ cmd +:+ "
")]> (logs st))
                 e' (trace st ++ [mkEvent pkg (SBuild cmd) (raised r')]),
         r')
    end.

(** [apply_patches(patch_urls, build_dir)] *)
Definition apply_patches (pkg : string) (patch_urls : list string)
    (build_dir : string) : M unit :=
  match patch_urls with
  | [] => ret tt
  | _ =>
      (fun st =>
         if which os "patch" (ext st) then (st, Ok tt)
         else throw pkg SWhichPatch
                (RuntimeError "'patch' não encontrado no sistema.") st) >>
      for_each patch_urls (fun u =>
        let! patch_file := act pkg (SPatchDownload u) (http_download os u (PATCHES_DIR dirs)) in
        let cmd := "patch -p1 < '" +:+ patch_file +:+ "'" in
        act pkg (SPatch u) (checked cmd (run_cmd os cmd build_dir)))
  end.

(** The first member whose name is absolute, if there is one:
    [for m in members: if m.name.startswith("/"): raise ...] *)
Fixpoint first_absolute (members : list TarInfo) : option TarInfo :=
  match members with
  | [] => None
  | m :: ms => if startswith (tar_name m) "/" then Some m else first_absolute ms
  end.

(** [install_package_files(pkgfile, target_root)] *)
Definition install_package_files (pkg pkgfile root : string) : M (list string) :=
  let! members := act pkg STarOpen (fun e => (e, tar_getmembers os pkgfile e)) in
  match first_absolute members with
  | Some m => throw pkg STarCheck (RuntimeError ("Entrada inválida no tar: " +:+ tar_name m))
  | None =>
      act pkg SExtractAll (tar_extractall os pkgfile root) >>
      ret (sorted_set (map (fun m => str_Path (tar_name m)) members))
  end.

(** [_build_and_install(recipe)] *)
Definition _build_and_install (recipe : Recipe) : M unit :=
  let nm := name recipe in
  let ver := version recipe in
  let log_file := path_join (LOGS_DIR dirs) (nm +:+ ".log") in
  act nm SMkdirLogs (mkdir os (LOGS_DIR dirs)) >>
  run_hooks nm (pre_install recipe) "pre_install" (BASE_DIR dirs) (Some log_file) >>
  let! src_dir :=
    (if startswith (url recipe) "git+"
     then act nm SFetch (git_download os (str_drop 4 (url recipe)) (SOURCES_DIR dirs))
     else
       let! tarball := act nm SFetch (http_download os (url recipe) (SOURCES_DIR dirs)) in
       act nm SExtract (extract_tar_any os tarball (SOURCES_DIR dirs))) in
  apply_patches nm (patches recipe) src_dir >>
  let destdir := path_join (DESTDIR_BASE dirs) nm in
  act nm SPrepare (reset_destdir os destdir) >>
  let env := [("DESTDIR", destdir); ("GENPKG_NAME", nm); ("GENPKG_VERSION", ver);
              ("SOURCES", SOURCES_DIR dirs); ("PATCHES", PATCHES_DIR dirs);
              ("BIN_DIR", BIN_DIR dirs)] in
  for_each (commands recipe) (fun cmd => run_logged nm cmd src_dir log_file env) >>
  (if use_strip self then act nm SStrip (strip_binaries_in os destdir) else ret tt) >>
  let! pkgfile := act nm SPackage (package_destdir os nm ver destdir) in
  let! bin_copied := act nm SCopyBin (copy_binaries_to_bindir os destdir) in
  let! created_files := install_package_files nm pkgfile (target_root self) in
  run_hooks nm (post_install recipe) "post_install" src_dir (Some log_file) >>
  (fun st =>
     let meta := mkInstallRecord ver created_files pkgfile destdir bin_copied
                   (target_root self) (time_now os (ext st)) (path recipe) in
     (mkState (<[nm := meta]> (db st)) (logs st) (ext st)
              (trace st ++ [mkEvent nm SRecord None]), Ok tt)) >>
  (fun st => act nm SSave (db_save os (db st)) st).

(** [Recipes.find(name)]: a missing recipe is [FileNotFoundError], a
    recipe without a name is the [ValueError] of [Recipe.__init__]. *)
Definition find (nm : string) : res Recipe :=
  match recipes self !! nm with
  | None =>
      Raise (FileNotFoundError
               ("Receita '" +:+ nm +:+ "' não encontrada em " +:+ RECIPES_DIR dirs +:+ "."))
  | Some r =>
      if String.eqb (name r) "" then Raise (ValueError "Recipe sem 'nome'.")
      else Ok r
  end.

(** The result of the recursive installer: the [visited] set (one
    object shared by the whole recursion), the state, the outcome. *)
Definition Run : Type := gset string * State Ext * res unit.

(** [for d in r.deps: if d not in self.db.data: self._install_with_deps(d, visited)] *)
Fixpoint install_deps (call : string -> gset string -> State Ext -> option Run)
    (ds : list string) (visited : gset string) (st : State Ext) : option Run :=
  match ds with
  | [] => Some (visited, st, Ok tt)
  | d :: ds' =>
      if decide (d ∈ dom (db st)) then install_deps call ds' visited st
      else
        match call d visited st with
        | Some (visited', st', Ok _) => install_deps call ds' visited' st'
        | other => other
        end
  end.

(** [_install_with_deps(name, visited)]. The recursion is bounded by
    [fuel]; [None] means the bound was too small. *)
Fixpoint _install_with_deps (fuel : nat) (nm : string) (visited : gset string)
    (st : State Ext) : option Run :=
  match fuel with
  | O => None
  | S fuel' =>
      if decide (nm ∈ visited) then Some (visited, st, Ok tt)
      else
        let visited := {[nm]} ∪ visited in
        match find nm with
        | Raise e =>
            let '(st', _) := throw (A := unit) nm SResolve e st in
            Some (visited, st', Raise e)
        | Ok r =>
            match install_deps (_install_with_deps fuel') (deps r) visited st with
            | Some (visited', st', Ok _) =>
                if decide (nm ∈ dom (db st')) then Some (visited', st', Ok tt)
                else
                  let '(st'', o) := _build_and_install r st' in
                  Some (visited', st'', o)
            | other => other
            end
        end
  end.

(** [install(name)]: a fresh [visited] set; one level of recursion
    per recipe of the repository, and one more, is always enough. *)
Definition install (nm : string) (st : State Ext) : option (State Ext * res unit) :=
  match _install_with_deps (S (size (recipes self))) nm ∅ st with
  | Some (_, st', o) => Some (st', o)
  | None => None
  end.

(** *** What a run leaves behind *)

(** No event of the list records a raised exception. *)
Definition ok_events (evs : list event) : Prop :=
  Forall (fun ev => ev_exn ev = None) evs.

(** The events of a call agree with its outcome: a call that returns
    has no failed event; a call that raises [e] ends with the event
    that raised [e], and nothing failed before it. *)
Definition run_ok {A} (evs : list event) (o : res A) : Prop :=
  match o with
  | Ok _ => ok_events evs
  | Raise e => exists pre ev, evs = pre ++ [ev] /\ ok_events pre /\ ev_exn ev = Some e
  end.

(** Every log file keeps its content as a prefix of its new content. *)
Definition logs_grow (st st' : State Ext) : Prop :=
  forall f c, logs st !! f = Some c ->
    exists suffix, logs st' !! f = Some (c +:+ suffix).

(** A step of the pipeline of package [nm] that leaves the manifest
    alone. *)
Definition quiet_event (nm : string) (ev : event) : Prop :=
  ev_pkg ev = nm /\ ev_step ev <> SRecord /\ ev_step ev <> SSave /\
  ev_step ev <> SResolve.

Definition quiet {A} (nm : string) (m : M A) : Prop :=
  forall st st' o, m st = (st', o) ->
    db st' = db st /\ logs_grow st st' /\
    exists evs, trace st' = trace st ++ evs /\
                Forall (quiet_event nm) evs /\ run_ok evs o.

Lemma logs_grow_same st st' : logs st' = logs st -> logs_grow st st'.
Proof.
  intros Heq f c Hc. exists "". by rewrite Heq, Hc, str_app_nil_r.
Qed.

Lemma logs_grow_refl st : logs_grow st st.
Proof. by apply logs_grow_same. Qed.

Lemma logs_grow_trans st1 st2 st3 :
  logs_grow st1 st2 -> logs_grow st2 st3 -> logs_grow st1 st3.
Proof.
  intros H12 H23 f c Hc.
  destruct (H12 f c Hc) as [s1 H1]. destruct (H23 f _ H1) as [s2 H2].
  exists (s1 +:+ s2). by rewrite H2, str_app_assoc.
Qed.

Lemma run_ok_app {A B} evs1 evs2 (a : A) (o : res B) :
  run_ok evs1 (Ok a) -> run_ok evs2 o -> run_ok (evs1 ++ evs2) o.
Proof.
  intros H1 H2. destruct o as [b|e]; simpl in *.
  - by apply Forall_app.
  - destruct H2 as (pre & ev & -> & Hpre & Hev).
    exists (evs1 ++ pre), ev. rewrite app_assoc. split; [done|].
    split; [by apply Forall_app | done].
Qed.

Lemma run_ok_raise_retype {A B} evs e :
  run_ok evs (@Raise A e) -> run_ok evs (@Raise B e).
Proof. done. Qed.

Lemma quiet_ret {A} nm (a : A) : quiet nm (ret a).
Proof.
  intros st st' o [= <- <-]. split; [done|]. split; [apply logs_grow_refl|].
  exists []. rewrite app_nil_r. repeat split; constructor.
Qed.

Lemma quiet_bind {A B} nm (m : M A) (k : A -> M B) :
  quiet nm m -> (forall a, quiet nm (k a)) -> quiet nm (bind m k).
Proof.
  intros Hm Hk st st' o. unfold bind.
  destruct (m st) as [st1 [a|e]] eqn:E1; intros E2.
  - destruct (Hm _ _ _ E1) as (Hdb1 & Hl1 & evs1 & Ht1 & Hq1 & Hr1).
    destruct (Hk a _ _ _ E2) as (Hdb2 & Hl2 & evs2 & Ht2 & Hq2 & Hr2).
    split; [congruence|]. split; [by eapply logs_grow_trans|].
    exists (evs1 ++ evs2). rewrite Ht2, Ht1, app_assoc. split; [done|].
    split; [by apply Forall_app | by eapply run_ok_app].
  - injection E2 as <- <-.
    destruct (Hm _ _ _ E1) as (Hdb1 & Hl1 & evs1 & Ht1 & Hq1 & Hr1).
    split; [done|]. split; [done|]. by exists evs1.
Qed.

Lemma run_ok_single {A} pkg s (r : res A) : run_ok [mkEvent pkg s (raised r)] r.
Proof.
  destruct r as [a|e]; simpl.
  - by repeat constructor.
  - exists [], (mkEvent pkg s (Some e)). repeat split; constructor.
Qed.

Lemma quiet_act {A} nm s (o : Ext -> Ext * res A) :
  s <> SRecord -> s <> SSave -> s <> SResolve -> quiet nm (act nm s o).
Proof.
  intros H1 H2 H3 st st' r. unfold act.
  destruct (o (ext st)) as [e' r'] eqn:E. intros [= <- <-]. simpl.
  split; [done|]. split; [by apply logs_grow_same|].
  eexists. split; [done|]. split; [|apply run_ok_single].
  by repeat constructor.
Qed.

Lemma quiet_throw {A} nm s e :
  s <> SRecord -> s <> SSave -> s <> SResolve -> quiet nm (throw (A := A) nm s e).
Proof.
  intros H1 H2 H3 st st' r [= <- <-]. simpl.
  split; [done|]. split; [by apply logs_grow_same|].
  eexists. split; [done|]. split; [by repeat constructor|].
  exists [], (mkEvent nm s (Some e)). repeat split; constructor.
Qed.

Lemma logs_grow_insert st lf text l' e' t' :
  l' = <[lf := default "" (logs st !! lf) +:+ text]> (logs st) ->
  logs_grow st (mkState (db st) l' e' t').
Proof.
  intros -> f c Hc. simpl. destruct (decide (lf = f)) as [->|Hne].
  - rewrite lookup_insert_eq, Hc. by eexists.
  - rewrite lookup_insert_ne by done. exists "". by rewrite Hc, str_app_nil_r.
Qed.

Lemma quiet_log_append nm lf text : quiet nm (log_append lf text).
Proof.
  intros st st' r [= <- <-]. simpl.
  split; [done|]. split; [by eapply logs_grow_insert|].
  exists []. rewrite app_nil_r. repeat split; constructor.
Qed.

Lemma quiet_for_each {A} nm (xs : list A) (body : A -> M unit) :
  (forall x, quiet nm (body x)) -> quiet nm (for_each xs body).
Proof.
  intros Hb. induction xs as [|x xs IH]; simpl.
  - apply quiet_ret.
  - apply quiet_bind; [apply Hb | intros _; apply IH].
Qed.

Lemma quiet_run_hooks nm hooks stage workdir lf :
  quiet nm (run_hooks nm hooks stage workdir lf).
Proof.
  apply quiet_for_each. intros cmd. apply quiet_bind.
  - destruct lf; [apply quiet_log_append | apply quiet_ret].
  - intros _. by apply quiet_act.
Qed.

Lemma quiet_run_logged nm cmd cwd lf env : quiet nm (run_logged nm cmd cwd lf env).
Proof.
  intros st st' r. unfold run_logged.
  destruct (mkdir os (path_parent lf) (ext st)) as [e0 [[]|x]].
  - destruct (popen os cmd cwd env e0) as [e' [out r0]] eqn:E.
    intros [= <- <-]. simpl.
    split; [done|]. split; [by eapply logs_grow_insert|].
    eexists. split; [done|]. split; [by repeat constructor|].
    apply run_ok_single.
  - intros [= <- <-]. simpl.
    split; [done|]. split; [by apply logs_grow_same|].
    eexists. split; [done|]. split; [by repeat constructor|].
    apply (run_ok_single nm (SBuild cmd) (@Raise unit x)).
Qed.

Lemma quiet_apply_patches nm urls build_dir :
  quiet nm (apply_patches nm urls build_dir).
Proof.
  unfold apply_patches. destruct urls as [|u urls]; [apply quiet_ret|].
  apply quiet_bind.
  - intros st st' r. destruct (which os "patch" (ext st)).
    + intros [= <- <-]. split; [done|]. split; [apply logs_grow_refl|].
      exists []. rewrite app_nil_r. repeat split; constructor.
    + by apply quiet_throw.
  - intros _. apply quiet_for_each. intros x. apply quiet_bind.
    + by apply quiet_act.
    + intros pf. by apply quiet_act.
Qed.

Lemma quiet_install_package_files nm pkgfile root :
  quiet nm (install_package_files nm pkgfile root).
Proof.
  unfold install_package_files. apply quiet_bind; [by apply quiet_act|].
  intros members. destruct (first_absolute members).
  - by apply quiet_throw.
  - apply quiet_bind; [by apply quiet_act | intros _; apply quiet_ret].
Qed.

(** *** The pipeline of one package *)

(** What a run of a package's pipeline, or of a tail of it, leaves:
    either the manifest is untouched, no record was written and the
    run did not return normally; or the record of [nm] was written,
    as the last step but one, followed by [db.save()] only. With
    [unpack_inside] the steps before the record include the
    completed extraction of the archive. *)
Definition pipeline_run (nm : string) (unpack_inside : bool)
    (st st' : State Ext) (o : res unit) : Prop :=
  logs_grow st st' /\
  exists evs, trace st' = trace st ++ evs /\ run_ok evs o /\
    ((db st' = db st /\ Forall (quiet_event nm) evs /\ o <> Ok tt) \/
     (exists meta pre,
         db st' = <[nm := meta]> (db st) /\
         evs = pre ++ [mkEvent nm SRecord None; mkEvent nm SSave (raised o)] /\
         Forall (quiet_event nm) pre /\
         (unpack_inside = true -> mkEvent nm SExtractAll None ∈ pre))).

Definition pipeline (nm : string) (unpack_inside : bool) (m : M unit) : Prop :=
  forall st st' o, m st = (st', o) -> pipeline_run nm unpack_inside st st' o.

Lemma pipeline_bind_quiet {A} nm b (m : M A) (k : A -> M unit) :
  quiet nm m -> (forall a, pipeline nm b (k a)) -> pipeline nm b (bind m k).
Proof.
  intros Hm Hk st st' o. unfold bind.
  destruct (m st) as [st1 [a|e]] eqn:E1; intros E2.
  - destruct (Hm _ _ _ E1) as (Hdb1 & Hl1 & evs1 & Ht1 & Hq1 & Hr1).
    destruct (Hk a _ _ _ E2) as (Hl2 & evs2 & Ht2 & Hr2 & Hcase).
    split; [by eapply logs_grow_trans|].
    exists (evs1 ++ evs2). rewrite Ht2, Ht1, app_assoc. split; [done|].
    split; [by eapply run_ok_app|].
    destruct Hcase as [(Hdb2 & Hq2 & Hne) | (meta & pre & Hdb2 & -> & Hq2 & Hu)].
    + left. split; [congruence|]. split; [by apply Forall_app | done].
    + right. exists meta, (evs1 ++ pre). rewrite Hdb2, Hdb1, app_assoc.
      split; [done|]. split; [done|]. split; [by apply Forall_app|].
      intros Hb. apply elem_of_app. right. by apply Hu.
  - injection E2 as <- <-.
    destruct (Hm _ _ _ E1) as (Hdb1 & Hl1 & evs1 & Ht1 & Hq1 & Hr1).
    split; [done|]. exists evs1. split; [done|]. split; [done|].
    left. by repeat split.
Qed.

Lemma install_package_files_extracts nm pkgfile root st st' l :
  install_package_files nm pkgfile root st = (st', Ok l) ->
  exists evs, trace st' = trace st ++ evs /\ mkEvent nm SExtractAll None ∈ evs.
Proof.
  unfold install_package_files, bind, act, throw, ret.
  destruct (tar_getmembers os pkgfile (ext st)) as [members|e]; simpl; [|done].
  destruct (first_absolute members); [done|]. simpl.
  destruct (tar_extractall os pkgfile root (ext st)) as [e' [[]|e]]; simpl; [|done].
  intros [= <- _]. simpl. eexists. rewrite <- app_assoc. split; [done|].
  set_solver.
Qed.

Lemma pipeline_bind_unpack nm pkgfile root (k : list string -> M unit) :
  (forall a, pipeline nm false (k a)) ->
  pipeline nm true (bind (install_package_files nm pkgfile root) k).
Proof.
  intros Hk st st' o E.
  destruct (pipeline_bind_quiet nm false _ k
              (quiet_install_package_files nm pkgfile root) Hk _ _ _ E)
    as (Hl & evs & Ht & Hr & Hcase).
  split; [done|]. exists evs. split; [done|]. split; [done|].
  destruct Hcase as [?|(meta & pre & Hdb & -> & Hq & _)]; [by left|].
  right. exists meta, pre. repeat split; try done. intros _.
  revert E. unfold bind.
  destruct (install_package_files nm pkgfile root st) as [st1 [l|e]] eqn:E1.
  - intros E2.
    destruct (install_package_files_extracts _ _ _ _ _ _ E1) as (evs1 & Ht1 & Hin).
    destruct (Hk l _ _ _ E2) as (_ & evs2 & Ht2 & _ & Hcase2).
    assert (Hsplit : pre ++ [mkEvent nm SRecord None; mkEvent nm SSave (raised o)]
                     = evs1 ++ evs2).
    { apply (app_inv_head (trace st)). rewrite <- Ht, Ht2, Ht1. by rewrite app_assoc. }
    destruct Hcase2 as [(Hdb2 & Hq2 & _) | (meta2 & pre2 & _ & -> & _ & _)].
    + (* the tail cannot be quiet: it holds the record event *)
      exfalso. destruct (quiet_install_package_files nm pkgfile root _ _ _ E1)
        as (_ & _ & evs1' & Ht1' & Hq1 & _).
      assert (evs1' = evs1) as -> by (apply (app_inv_head (trace st)); congruence).
      assert (Hall : Forall (quiet_event nm) (evs1 ++ evs2)) by by apply Forall_app.
      rewrite <- Hsplit in Hall. apply Forall_app in Hall as [_ Hall].
      apply Forall_cons in Hall as [(_ & Hbad & _) _]. by apply Hbad.
    + rewrite app_assoc in Hsplit. apply app_inv_tail in Hsplit as ->.
      apply elem_of_app. by left.
  - intros [= <- <-].
    destruct (quiet_install_package_files nm pkgfile root _ _ _ E1)
      as (_ & _ & evs1 & Ht1 & Hq1 & _).
    exfalso.
    assert (evs1 = pre ++ [mkEvent nm SRecord None; mkEvent nm SSave (raised (@Raise unit e))])
      as -> by (apply (app_inv_head (trace st)); congruence).
    apply Forall_app in Hq1 as [_ Hall].
    apply Forall_cons in Hall as [(_ & Hbad & _) _]. by apply Hbad.
Qed.

Lemma build_and_install_pipeline r : pipeline (name r) true (_build_and_install r).
Proof.
  unfold _build_and_install.
  apply pipeline_bind_quiet; [by apply quiet_act | intros _].
  apply pipeline_bind_quiet; [apply quiet_run_hooks | intros _].
  apply pipeline_bind_quiet.
  { destruct (startswith (url r) "git+"); [by apply quiet_act|].
    apply quiet_bind; [by apply quiet_act | intros t; by apply quiet_act]. }
  intros src_dir.
  apply pipeline_bind_quiet; [apply quiet_apply_patches | intros _].
  apply pipeline_bind_quiet; [by apply quiet_act | intros _].
  apply pipeline_bind_quiet.
  { apply quiet_for_each. intros cmd. apply quiet_run_logged. }
  intros _.
  apply pipeline_bind_quiet.
  { destruct (use_strip self); [by apply quiet_act | apply quiet_ret]. }
  intros _.
  apply pipeline_bind_quiet; [by apply quiet_act | intros pkgfile].
  apply pipeline_bind_quiet; [by apply quiet_act | intros bin_copied].
  apply pipeline_bind_unpack. intros created_files.
  apply pipeline_bind_quiet; [apply quiet_run_hooks | intros _].
  (* the record, then db.save() *)
  intros st st' o. unfold bind, act. simpl.
  destruct (db_save os _ (ext st)) as [e' r'] eqn:E. intros [= <- <-]. simpl.
  split; [by apply logs_grow_same|].
  eexists. rewrite <- app_assoc. split; [done|]. split.
  { destruct r' as [[]|e]; simpl.
    - by repeat constructor.
    - eexists [_], _. split; [done|]. split; [by repeat constructor | done]. }
  right. eexists _, []. split; [done|]. split; [done|]. split; [constructor | done].
Qed.

(** [_build_and_install] in one statement. *)
Lemma build_and_install_spec r st st' o :
  _build_and_install r st = (st', o) -> pipeline_run (name r) true st st' o.
Proof. apply build_and_install_pipeline. Qed.

(** *** The recursive installer *)

(** The record of [n] was written, after the extraction of its
    archive had completed. *)
Definition recorded_after_unpack (n : string) (evs : list event) : Prop :=
  exists pre post,
    evs = pre ++ mkEvent n SRecord None :: post /\
    mkEvent n SExtractAll None ∈ pre.

(** Every recipe is stored under its own name. *)
Definition names_ok : Prop :=
  map_Forall (fun n r => name r = n) (recipes self).

(** What holds of every run of the recursive installer, from the
    visited set [v] and state [st] to [v'], [st'] with outcome [o]
    and new events [evs]. *)
Record basic_run (v : gset string) (st : State Ext) (v' : gset string)
    (st' : State Ext) (o : res unit) (evs : list event) : Prop := {
  run_trace : trace st' = trace st ++ evs;
  run_visited : v ⊆ v';
  run_outcome : run_ok evs o;
  run_logs : logs_grow st st';
  run_dom : dom (db st) ⊆ dom (db st');
  run_recorded :
    forall n, n ∈ dom (db st') -> n ∈ dom (db st) \/ recorded_after_unpack n evs
}.

(** What holds in addition when recipes are stored under their names. *)
Record named_run (v : gset string) (st : State Ext) (v' : gset string)
    (st' : State Ext) (o : res unit) (evs : list event) : Prop := {
  run_pkgs : Forall (fun ev => ev_pkg ev ∈ v' /\ ev_pkg ev ∉ v) evs;
  run_db : db st ⊆ db st';
  run_done :
    o = Ok tt -> forall n, n ∈ v' -> n ∉ v ->
      n ∈ dom (db st') /\
      forall r d, find n = Ok r -> d ∈ deps r -> d ∈ dom (db st') \/ d ∈ v';
  run_failed :
    forall e pre ev, o = Raise e -> evs = pre ++ [ev] ->
      ev_step ev <> SSave -> ev_step ev <> SResolve ->
      ev_pkg ev ∉ dom (db st')
}.

Definition summary (v : gset string) (st : State Ext) (v' : gset string)
    (st' : State Ext) (o : res unit) (evs : list event) : Prop :=
  basic_run v st v' st' o evs /\ (names_ok -> named_run v st v' st' o evs).

Lemma recorded_after_unpack_app n evs1 evs2 :
  recorded_after_unpack n evs1 \/ recorded_after_unpack n evs2 ->
  recorded_after_unpack n (evs1 ++ evs2).
Proof.
  intros [(pre & post & -> & Hin)|(pre & post & -> & Hin)].
  - exists pre, (post ++ evs2). by rewrite <- app_assoc.
  - exists (evs1 ++ pre), post. rewrite <- app_assoc. split; [done|].
    apply elem_of_app. by right.
Qed.

Lemma summary_refl v st : summary v st v st (Ok tt) [].
Proof.
  split.
  - split; [by rewrite app_nil_r | done | constructor | apply logs_grow_refl
           | done | by left].
  - intros _. split; [constructor | done | done | by intros e [|??] ev].
Qed.

Lemma summary_trans v st v1 st1 evs1 v2 st2 o evs2 :
  summary v st v1 st1 (Ok tt) evs1 ->
  summary v1 st1 v2 st2 o evs2 ->
  summary v st v2 st2 o (evs1 ++ evs2).
Proof.
  intros [B1 N1] [B2 N2]. split.
  - destruct B1, B2. split.
    + by rewrite run_trace1, run_trace0, app_assoc.
    + set_solver.
    + by eapply run_ok_app.
    + by eapply logs_grow_trans.
    + set_solver.
    + intros n Hn. destruct (run_recorded1 n Hn) as [Hn1|Hr].
      * destruct (run_recorded0 n Hn1) as [?|Hr]; [by left|].
        right. apply recorded_after_unpack_app. by left.
      * right. apply recorded_after_unpack_app. by right.
  - intros Hnames. specialize (N1 Hnames). specialize (N2 Hnames).
    destruct B1, B2, N1, N2. split.
    + apply Forall_app. split.
      * eapply Forall_impl; [exact run_pkgs0|]. set_solver.
      * eapply Forall_impl; [exact run_pkgs1|]. set_solver.
    + by etrans.
    + intros -> n Hn2 Hn. destruct (decide (n ∈ v1)) as [Hn1|Hn1].
      * destruct (run_done0 eq_refl n Hn1 Hn) as [Hd Hdeps]. split; [set_solver|].
        intros r d Hr Hd'. destruct (Hdeps r d Hr Hd'); set_solver.
      * by apply run_done1.
    + intros e pre ev -> Heq Hs1 Hs2.
      destruct run_outcome1 as (pre' & ev' & -> & _ & _).
      rewrite app_assoc in Heq. apply app_inj_tail in Heq as [_ ->].
      by eapply run_failed1.
Qed.

Lemma find_Ok nm r : find nm = Ok r -> recipes self !! nm = Some r.
Proof.
  unfold find. destruct (recipes self !! nm) as [r'|]; [|done].
  destruct (String.eqb (name r') ""); [done|]. by intros [= ->].
Qed.

(** The loop over the dependencies, for any [call] that behaves as
    the recursive installer does. *)
Lemma install_deps_summary call ds :
  (forall d v st v' st' o, call d v st = Some (v', st', o) ->
     d ∈ v' /\ exists evs, summary v st v' st' o evs) ->
  forall v st v' st' o, install_deps call ds v st = Some (v', st', o) ->
    exists evs, summary v st v' st' o evs /\
      (o = Ok tt -> forall d, d ∈ ds -> d ∈ dom (db st') \/ d ∈ v').
Proof.
  intros Hcall. induction ds as [|d ds IH]; intros v st v' st' o; simpl.
  - intros [= <- <- <-]. exists []. split; [apply summary_refl|].
    intros _ d Hd. by apply elem_of_nil in Hd.
  - destruct (decide (d ∈ dom (db st))) as [Hin|Hnin].
    + intros E. destruct (IH _ _ _ _ _ E) as (evs & Hs & Hds).
      exists evs. split; [done|]. intros Ho d' Hd'.
      apply elem_of_cons in Hd' as [->|Hd']; [|by apply Hds].
      left. destruct Hs as [[] _]. set_solver.
    + destruct (call d v st) as [[[v1 st1] [[]|e]]|] eqn:Ec; [| |done].
      * intros E. destruct (Hcall _ _ _ _ _ _ Ec) as (Hd1 & evs1 & Hs1).
        destruct (IH _ _ _ _ _ E) as (evs2 & Hs2 & Hds).
        exists (evs1 ++ evs2). split; [by eapply summary_trans|].
        intros Ho d' Hd'.
        apply elem_of_cons in Hd' as [->|Hd']; [|by apply Hds].
        right. destruct Hs2 as [[] _]. set_solver.
      * intros [= <- <- <-]. destruct (Hcall _ _ _ _ _ _ Ec) as (Hd1 & evs1 & Hs1).
        exists evs1. split; [done|]. done.
Qed.

(** [_install_with_deps], whatever the bound. *)
Lemma install_with_deps_summary fuel :
  forall nm v st v' st' o,
    _install_with_deps fuel nm v st = Some (v', st', o) ->
    nm ∈ v' /\ exists evs, summary v st v' st' o evs.
Proof.
  induction fuel as [|fuel IH]; intros nm v st v' st' o; simpl; [done|].
  destruct (decide (nm ∈ v)) as [Hv|Hv].
  { intros [= <- <- <-]. split; [done|]. exists []. apply summary_refl. }
  destruct (find nm) as [r|e] eqn:Hfind.
  2:{ intros [= <- <- <-]. split; [set_solver|].
      exists [mkEvent nm SResolve (Some e)]. split.
      - split; simpl; [done | set_solver | | by apply logs_grow_same | done | by left].
        exists [], (mkEvent nm SResolve (Some e)).
        split; [done|]. split; [constructor | done].
      - intros _. split; simpl; [|done|done|].
        + repeat constructor; simpl; set_solver.
        + intros e' pre ev _ Heq _ Hres.
          apply (app_inj_tail [] pre) in Heq as [_ <-]. by destruct Hres. }
  destruct (install_deps (_install_with_deps fuel) (deps r) ({[nm]} ∪ v) st)
    as [[[v2 st2] [[]|e]]|] eqn:Eloop; [| |done].
  2:{ intros [= <- <- <-].
      destruct (install_deps_summary _ _ IH _ _ _ _ _ Eloop) as (evs & [B N] & _).
      split; [destruct B; set_solver|]. exists evs. split.
      - destruct B. split; try done. set_solver.
      - intros Hn. destruct (N Hn). split; try done.
        eapply Forall_impl; [exact run_pkgs0|]. set_solver. }
  destruct (install_deps_summary _ _ IH _ _ _ _ _ Eloop) as (evs & [B N] & Hdeps).
  specialize (Hdeps eq_refl).
  destruct (decide (nm ∈ dom (db st2))) as [Hdb|Hdb].
  { intros [= <- <- <-]. split; [destruct B; set_solver|]. exists evs. split.
    - destruct B. split; try done. set_solver.
    - intros Hn. destruct (N Hn). split; try done.
      + eapply Forall_impl; [exact run_pkgs0|]. set_solver.
      + intros _ n Hn2 Hnv. destruct (decide (n = nm)) as [->|Hne].
        * split; [done|]. intros r' d Hr' Hd. rewrite Hfind in Hr'.
          injection Hr' as <-. by apply Hdeps.
        * apply run_done0; [done|done|set_solver]. }
  destruct (_build_and_install r st2) as [st3 o3] eqn:Eb. intros [= <- <- <-].
  destruct (build_and_install_spec _ _ _ _ Eb) as (Hl & evsb & Htb & Hrb & Hcase).
  split; [destruct B; set_solver|]. exists (evs ++ evsb).
  assert (Hdom23 : dom (db st2) ⊆ dom (db st3)).
  { destruct Hcase as [(-> & _)|(meta & pre & -> & _)]; [done|].
    rewrite dom_insert_L. set_solver. }
  split.
  - destruct B. split.
    + by rewrite Htb, run_trace0, app_assoc.
    + set_solver.
    + by eapply run_ok_app.
    + by eapply logs_grow_trans.
    + set_solver.
    + intros n Hn.
      destruct Hcase as [(Hdb3 & _)|(meta & pre & Hdb3 & -> & _ & Hu)].
      * rewrite Hdb3 in Hn. destruct (run_recorded0 n Hn) as [?|Hr]; [by left|].
        right. apply recorded_after_unpack_app. by left.
      * rewrite Hdb3, dom_insert_L in Hn. apply elem_of_union in Hn as [Hn|Hn].
        -- apply elem_of_singleton in Hn as ->. right.
           apply recorded_after_unpack_app. right.
           exists pre, [mkEvent (name r) SSave (raised o3)]. split; [done|]. by apply Hu.
        -- destruct (run_recorded0 n Hn) as [?|Hr]; [by left|].
           right. apply recorded_after_unpack_app. by left.
  - intros Hn. destruct (N Hn). destruct B.
    assert (Hname : name r = nm) by (apply Hn; by apply find_Ok).
    rewrite Hname in Hcase.
    assert (Htag : Forall (fun ev => ev_pkg ev = nm) evsb).
    { destruct Hcase as [(_ & Hq & _)|(meta & pre & _ & -> & Hq & _)].
      - eapply Forall_impl; [exact Hq|]. by intros ev [? _].
      - apply Forall_app. split; [|by repeat constructor].
        eapply Forall_impl; [exact Hq|]. by intros ev [? _]. }
    split.
    + apply Forall_app. split.
      * eapply Forall_impl; [exact run_pkgs0|]. set_solver.
      * eapply Forall_impl; [exact Htag|]. intros ev ->. set_solver.
    + etrans; [exact run_db0|].
      destruct Hcase as [(-> & _)|(meta & pre & -> & _)]; [done|].
      apply insert_subseteq. by apply not_elem_of_dom.
    + intros -> n Hn2 Hnv.
      destruct Hcase as [(_ & _ & Hne)|(meta & pre & Hdb3 & _)]; [done|].
      destruct (decide (n = nm)) as [->|Hne].
      * split; [rewrite Hdb3, dom_insert_L; set_solver|].
        intros r' d Hr' Hd. rewrite Hfind in Hr'. injection Hr' as <-.
        destruct (Hdeps d Hd); set_solver.
      * destruct (run_done0 eq_refl n Hn2) as [Hd Hds]; [set_solver|].
        split; [set_solver|]. intros r' d Hr' Hd'.
        destruct (Hds r' d Hr' Hd'); set_solver.
    + intros e pre ev -> Heq Hs1 Hs2.
      destruct Hrb as (pre' & ev' & -> & _ & _).
      rewrite app_assoc in Heq. apply app_inj_tail in Heq as [_ <-].
      destruct Hcase as [(Hdb3 & Hq & _)|(meta & pre2 & _ & Heq2 & _)].
      * apply Forall_app in Hq as [_ Hq]. apply Forall_cons in Hq as [[Hp _] _].
        by rewrite Hp, Hdb3.
      * change [mkEvent nm SRecord None; mkEvent nm SSave (raised (@Raise unit e))]
          with ([mkEvent nm SRecord None] ++ [mkEvent nm SSave (Some e)]) in Heq2.
        rewrite app_assoc in Heq2. apply app_inj_tail in Heq2 as [_ ->].
        by destruct Hs1.
Qed.

(** *** Termination: the bound of [install] is never reached *)

Lemma install_deps_total call ds v0 :
  (forall d v st, v0 ⊆ v ->
     exists v' st' o, call d v st = Some (v', st', o) /\ v ⊆ v') ->
  forall v st, v0 ⊆ v ->
    exists v' st' o, install_deps call ds v st = Some (v', st', o) /\ v ⊆ v'.
Proof.
  intros Hcall. induction ds as [|d ds IH]; intros v st Hv; simpl.
  - by exists v, st, (Ok tt).
  - destruct (decide (d ∈ dom (db st))); [by apply IH|].
    destruct (Hcall d v st Hv) as (v1 & st1 & o1 & -> & Hv1).
    destruct o1 as [[]|e].
    + destruct (IH v1 st1) as (v2 & st2 & o2 & -> & Hv2); [set_solver|].
      exists v2, st2, o2. split; [done | set_solver].
    + by exists v1, st1, (Raise e).
Qed.

Lemma install_with_deps_total fuel :
  forall nm v st, size (dom (recipes self) ∖ v) < fuel ->
    exists v' st' o, _install_with_deps fuel nm v st = Some (v', st', o) /\ v ⊆ v'.
Proof.
  induction fuel as [|fuel IH]; intros nm v st Hsize; simpl; [lia|].
  destruct (decide (nm ∈ v)) as [Hv|Hv]; [by exists v, st, (Ok tt)|].
  destruct (find nm) as [r|e] eqn:Hfind.
  2:{ eexists _, _, _. split; [done | set_solver]. }
  assert (Hin : nm ∈ dom (recipes self)).
  { apply elem_of_dom. rewrite (find_Ok _ _ Hfind). by eexists. }
  assert (Hlt : size (dom (recipes self) ∖ ({[nm]} ∪ v)) < size (dom (recipes self) ∖ v)).
  { apply subset_size. set_solver. }
  destruct (install_deps_total (_install_with_deps fuel) (deps r) ({[nm]} ∪ v))
    with (v := {[nm]} ∪ v) (st := st) as (v2 & st2 & o2 & -> & Hv2); [|done|].
  { intros d v1 st1 Hv1. apply IH.
    assert (size (dom (recipes self) ∖ v1)
            ≤ size (dom (recipes self) ∖ ({[nm]} ∪ v)))%nat
      by (apply subseteq_size; set_solver).
    lia. }
  destruct o2 as [[]|e]; [|eexists _, _, _; split; [done | set_solver]].
  destruct (decide (nm ∈ dom (db st2))).
  - eexists _, _, _. split; [done | set_solver].
  - destruct (_build_and_install r st2) as [st3 o3].
    eexists _, _, _. split; [done | set_solver].
Qed.

(** [install] always comes back, with a value or an exception. *)
Lemma install_total nm st : exists st' o, install nm st = Some (st', o).
Proof.
  unfold install.
  destruct (install_with_deps_total (S (size (recipes self))) nm ∅ st)
    as (v' & st' & o & -> & _); [|by eauto].
  rewrite difference_empty_L, size_dom. lia.
Qed.

(** [install] in terms of its summary. *)
Lemma install_summary nm st st' o :
  install nm st = Some (st', o) ->
  exists v' evs, nm ∈ v' /\ summary ∅ st v' st' o evs.
Proof.
  unfold install.
  destruct (_install_with_deps _ nm ∅ st) as [[[v' st1] o1]|] eqn:E; [|done].
  intros [= <- <-]. destruct (install_with_deps_summary _ _ _ _ _ _ _ E) as (? & evs & ?).
  by exists v', evs.
Qed.

(** *** Runs in which nothing fails *)

(** A world in which no collaborator raises, every command exits
    with status 0, and archives hold relative names only. *)
Record calm : Prop := {
  calm_mkdir : forall d e, exists e', mkdir os d e = (e', Ok tt);
  calm_run_cmd : forall c w e, exists e', run_cmd os c w e = (e', Ok 0%Z);
  calm_popen : forall c w env e, exists e' out, popen os c w env e = (e', (out, Ok 0%Z));
  calm_git : forall u d e, exists e' p, git_download os u d e = (e', Ok p);
  calm_http : forall u d e, exists e' p, http_download os u d e = (e', Ok p);
  calm_extract : forall t d e, exists e' p, extract_tar_any os t d e = (e', Ok p);
  calm_which : forall e, which os "patch" e = true;
  calm_reset : forall d e, exists e', reset_destdir os d e = (e', Ok tt);
  calm_strip : forall d e, exists e', strip_binaries_in os d e = (e', Ok tt);
  calm_package : forall n v d e, exists e' p, package_destdir os n v d e = (e', Ok p);
  calm_copy : forall d e, exists e' l, copy_binaries_to_bindir os d e = (e', Ok l);
  calm_members :
    forall f e, exists ms, tar_getmembers os f e = Ok ms /\ first_absolute ms = None;
  calm_extractall : forall f r e, exists e', tar_extractall os f r e = (e', Ok tt);
  calm_save : forall d e, exists e', db_save os d e = (e', Ok tt)
}.

(** Every recipe has a name, and every dependency has a recipe. *)
Definition closed_repo : Prop :=
  map_Forall (fun _ r => name r <> "" /\ Forall (fun d => d ∈ dom (recipes self)) (deps r))
             (recipes self).

Definition succeeds {A} (m : M A) : Prop :=
  forall st, exists st' a, m st = (st', Ok a).

Lemma succeeds_ret {A} (a : A) : succeeds (ret a).
Proof. intros st. by exists st, a. Qed.

Lemma succeeds_bind {A B} (m : M A) (k : A -> M B) :
  succeeds m -> (forall a, succeeds (k a)) -> succeeds (bind m k).
Proof.
  intros Hm Hk st. destruct (Hm st) as (st1 & a & E1).
  destruct (Hk a st1) as (st2 & b & E2). exists st2, b.
  unfold bind. by rewrite E1.
Qed.

Lemma succeeds_act {A} pkg s (o : Ext -> Ext * res A) :
  (forall e, exists e' a, o e = (e', Ok a)) -> succeeds (act pkg s o).
Proof.
  intros Ho st. destruct (Ho (ext st)) as (e' & a & E).
  unfold act. rewrite E. by eexists _, _.
Qed.

Lemma succeeds_for_each {A} (xs : list A) (body : A -> M unit) :
  (forall x, succeeds (body x)) -> succeeds (for_each xs body).
Proof.
  intros Hb. induction xs as [|x xs IH]; simpl.
  - apply succeeds_ret.
  - apply succeeds_bind; [apply Hb | intros _; apply IH].
Qed.

Lemma succeeds_checked c w :
  calm -> forall e, exists e' a, checked c (run_cmd os c w) e = (e', Ok a).
Proof.
  intros Hc e. destruct (calm_run_cmd Hc c w e) as (e' & E).
  unfold checked. rewrite E. simpl. by eexists _, _.
Qed.

Lemma succeeds_run_hooks pkg hooks stage workdir lf :
  calm -> succeeds (run_hooks pkg hooks stage workdir lf).
Proof.
  intros Hc. apply succeeds_for_each. intros cmd. apply succeeds_bind.
  - destruct lf; [|apply succeeds_ret]. intros st. by eexists _, _.
  - intros _. apply succeeds_act. by apply succeeds_checked.
Qed.

Lemma succeeds_build_and_install r : calm -> succeeds (_build_and_install r).
Proof.
  intros Hc. unfold _build_and_install.
  apply succeeds_bind.
  { apply succeeds_act. intros e. destruct (calm_mkdir Hc (LOGS_DIR dirs) e) as (e' & ->).
    by eexists _, _. }
  intros _. apply succeeds_bind; [by apply succeeds_run_hooks | intros _].
  apply succeeds_bind.
  { destruct (startswith (url r) "git+").
    - apply succeeds_act. apply (calm_git Hc).
    - apply succeeds_bind; [apply succeeds_act; apply (calm_http Hc)|].
      intros t. apply succeeds_act. apply (calm_extract Hc). }
  intros src_dir. apply succeeds_bind.
  { unfold apply_patches. destruct (patches r) as [|u us]; [apply succeeds_ret|].
    apply succeeds_bind.
    - intros st. rewrite (calm_which Hc). by eexists _, _.
    - intros _. apply succeeds_for_each. intros x. apply succeeds_bind.
      + apply succeeds_act. apply (calm_http Hc).
      + intros pf. apply succeeds_act. by apply succeeds_checked. }
  intros _. apply succeeds_bind.
  { apply succeeds_act. intros e. destruct (calm_reset Hc (path_join (DESTDIR_BASE dirs) (name r)) e)
      as (e' & ->). by eexists _, _. }
  intros _. apply succeeds_bind.
  { apply succeeds_for_each. intros cmd st. unfold run_logged.
    destruct (calm_mkdir Hc
                (path_parent (path_join (LOGS_DIR dirs) (name r +:+ ".log"))) (ext st))
      as (e0 & ->).
    destruct (calm_popen Hc cmd src_dir
                [("DESTDIR", path_join (DESTDIR_BASE dirs) (name r));
                 ("GENPKG_NAME", name r); ("GENPKG_VERSION", version r);
                 ("SOURCES", SOURCES_DIR dirs); ("PATCHES", PATCHES_DIR dirs);
                 ("BIN_DIR", BIN_DIR dirs)] e0) as (e' & out & ->).
    simpl. by eexists _, _. }
  intros _. apply succeeds_bind.
  { destruct (use_strip self); [|apply succeeds_ret].
    apply succeeds_act. intros e.
    destruct (calm_strip Hc (path_join (DESTDIR_BASE dirs) (name r)) e) as (e' & ->).
    by eexists _, _. }
  intros _. apply succeeds_bind; [apply succeeds_act; apply (calm_package Hc)|].
  intros pkgfile. apply succeeds_bind; [apply succeeds_act; apply (calm_copy Hc)|].
  intros bin_copied. apply succeeds_bind.
  { unfold install_package_files. intros st.
    destruct (calm_members Hc pkgfile (ext st)) as (ms & Hms & Habs).
    destruct (calm_extractall Hc pkgfile (target_root self) (ext st)) as (e' & He').
    unfold bind, act, ret. simpl. rewrite Hms. simpl. rewrite Habs. simpl.
    rewrite He'. by eexists _, _. }
  intros created. apply succeeds_bind; [by apply succeeds_run_hooks | intros _].
  apply succeeds_bind; [intros st; by eexists _, _|].
  intros _ st. unfold act.
  destruct (calm_save Hc (db st) (ext st)) as (e' & ->). by eexists _, _.
Qed.

Lemma install_deps_succeeds call ds :
  (forall d v st v' st' o, d ∈ dom (recipes self) ->
     call d v st = Some (v', st', o) -> o = Ok tt) ->
  Forall (fun d => d ∈ dom (recipes self)) ds ->
  forall v st v' st' o, install_deps call ds v st = Some (v', st', o) -> o = Ok tt.
Proof.
  intros Hcall Hds. induction Hds as [|d ds Hd Hds IH]; intros v st v' st' o; simpl.
  - by intros [= _ _ <-].
  - destruct (decide (d ∈ dom (db st))); [apply IH|].
    destruct (call d v st) as [[[v1 st1] [[]|e]]|] eqn:Ec; [apply IH| |done].
    by apply Hcall in Ec.
Qed.

Lemma install_with_deps_succeeds fuel :
  calm -> closed_repo ->
  forall nm v st v' st' o, nm ∈ dom (recipes self) ->
    _install_with_deps fuel nm v st = Some (v', st', o) -> o = Ok tt.
Proof.
  intros Hc Hrepo. induction fuel as [|fuel IH]; intros nm v st v' st' o Hnm; simpl; [done|].
  destruct (decide (nm ∈ v)); [by intros [= _ _ <-]|].
  apply elem_of_dom in Hnm as [r Hr]. destruct (Hrepo nm r Hr) as [Hname Hdeps].
  unfold find. rewrite Hr. apply String.eqb_neq in Hname. rewrite Hname.
  destruct (install_deps _ (deps r) _ st) as [[[v2 st2] o2]|] eqn:El; [|done].
  apply install_deps_succeeds in El as ->; [|exact IH|exact Hdeps].
  destruct (decide (nm ∈ dom (db st2))); [by intros [= _ _ <-]|].
  destruct (succeeds_build_and_install r Hc st2) as (st3 & [] & ->).
  by intros [= _ _ <-].
Qed.

(** A package reached from [top] through dependencies of packages
    that [st] does not have installed; a dependency cycle through
    such packages lies inside this set. *)
Inductive on_chain (st : State Ext) (top : string) : string -> Prop :=
| chain_top : on_chain st top top
| chain_dep n r d :
    on_chain st top n -> n ∉ dom (db st) -> find n = Ok r -> d ∈ deps r ->
    on_chain st top d.

Lemma recorded_after_unpack_In n evs :
  recorded_after_unpack n evs -> mkEvent n SRecord None ∈ evs.
Proof. intros (pre & post & -> & _). set_solver. Qed.

(** An event that failed, in a run whose earlier events did not, is
    the last one. *)
Lemma failed_event_last (pre' : list event) ev' pre ev post :
  pre' ++ [ev'] = pre ++ ev :: post -> ok_events pre' -> failed ev ->
  post = [] /\ ev = ev'.
Proof.
  revert pre. induction pre' as [|a pre' IH]; intros pre Heq Hok Hf.
  - destruct pre as [|b pre]; simpl in Heq.
    + by injection Heq as -> <-.
    + injection Heq as _ Heq. by destruct pre.
  - apply Forall_cons in Hok as [Ha Hok]. destruct pre as [|b pre]; simpl in Heq.
    + injection Heq as -> _. by destruct Hf.
    + injection Heq as _ Heq. by eapply IH.
Qed.


(** *** Properties of the install side *)

Lemma first_absolute_found members m :
  m ∈ members -> startswith (tar_name m) "/" = true ->
  exists m0, first_absolute members = Some m0 /\ m0 ∈ members /\
             startswith (tar_name m0) "/" = true.
Proof.
  induction members as [|a ms IH]; intros Hm Habs; [by apply elem_of_nil in Hm|].
  simpl. destruct (startswith (tar_name a) "/") eqn:Ea.
  - exists a. split; [done|]. split; [set_solver | done].
  - apply elem_of_cons in Hm as [->|Hm]; [congruence|].
    destruct (IH Hm Habs) as (m0 & ? & ? & ?). exists m0. set_solver.
Qed.

(** The part of the check that works: unpacking an archive that
    holds a member with an absolute name raises [RuntimeError] naming
    such a member, whatever the install root; the extraction is
    never started, so the outside world, the manifest and the logs
    are as they were: the only new trace entries are the reading of
    the archive and the rejection. *)
Theorem unpack_rejects_absolute_paths pkg pkgfile root st members m :
  tar_getmembers os pkgfile (ext st) = Ok members ->
  m ∈ members ->
  startswith (tar_name m) "/" = true ->
  exists m0,
    m0 ∈ members /\ startswith (tar_name m0) "/" = true /\
    install_package_files pkg pkgfile root st =
      (mkState (db st) (logs st) (ext st)
         (trace st ++ [mkEvent pkg STarOpen None;
                       mkEvent pkg STarCheck
                         (Some (RuntimeError ("Entrada inválida no tar: " +:+ tar_name m0)))]),
       Raise (RuntimeError ("Entrada inválida no tar: " +:+ tar_name m0))).
Proof.
  intros Hms Hm Habs.
  destruct (first_absolute_found members m Hm Habs) as (m0 & Hfirst & Hin & Habs0).
  exists m0. split; [done|]. split; [done|].
  unfold install_package_files, bind, act, throw. rewrite Hms. simpl.
  rewrite Hfirst. simpl. by rewrite <- app_assoc.
Qed.

Lemma first_absolute_relative members :
  Forall (fun m => startswith (tar_name m) "/" = false) members ->
  first_absolute members = None.
Proof.
  induction 1 as [|m ms Hm _ IH]; simpl; [done|]. by rewrite Hm.
Qed.

(** C1 fails in the code for paths that leave the install root
    without being absolute. The only test [install_package_files]
    makes on a member is whether its name starts with a slash: an
    archive none of whose names does is handed to [tar.extractall]
    as it is, whatever its names are, [../escape.txt] included;
    nothing is raised and nothing is sanitised, and the call returns
    the names as the files of the package. *)
Theorem unpack_accepts_escaping_paths pkg pkgfile root st members e' :
  tar_getmembers os pkgfile (ext st) = Ok members ->
  Forall (fun m => startswith (tar_name m) "/" = false) members ->
  tar_extractall os pkgfile root (ext st) = (e', Ok tt) ->
  install_package_files pkg pkgfile root st =
    (mkState (db st) (logs st) e'
       (trace st ++ [mkEvent pkg STarOpen None; mkEvent pkg SExtractAll None]),
     Ok (sorted_set (map (fun m => str_Path (tar_name m)) members))).
Proof.
  intros Hms Hrel Hex. unfold install_package_files, bind, act, ret.
  rewrite Hms. simpl. rewrite (first_absolute_relative _ Hrel). simpl.
  rewrite Hex. simpl. by rewrite <- app_assoc.
Qed.

(** C2, as the code has it. A dependency cycle is no error: a name
    met again during the same [install] is skipped. When recipes are
    stored under their names, every dependency has a recipe and no
    step fails, [install] returns normally and every package reached
    from the requested one through packages that were not installed,
    so every package on a cycle through it, has a record. *)
Theorem cycle_is_not_an_error top st :
  calm -> names_ok -> closed_repo -> top ∈ dom (recipes self) ->
  exists st',
    install top st = Some (st', Ok tt) /\
    forall n, on_chain st top n -> n ∈ dom (db st').
Proof.
  intros Hc Hn Hrepo Htop.
  destruct (install_total top st) as (st' & o & Hi).
  assert (o = Ok tt) as ->.
  { revert Hi. unfold install.
    destruct (_install_with_deps _ top ∅ st) as [[[v1 st1] o1]|] eqn:E; [|done].
    intros [= <- <-]. by eapply install_with_deps_succeeds. }
  exists st'. split; [done|].
  destruct (install_summary _ _ _ _ Hi) as (v' & evs & Hv' & [B N]).
  specialize (N Hn). destruct B, N.
  assert (Hvis : forall n, n ∈ v' -> n ∈ dom (db st')).
  { intros n Hnv. by apply run_done0. }
  intros n Hch. induction Hch as [|n r d Hch IH Hnin Hfind Hd]; [by apply Hvis|].
  destruct (run_recorded0 n IH) as [?|Hrec]; [done|].
  apply recorded_after_unpack_In in Hrec.
  rewrite Forall_forall in run_pkgs0. destruct (run_pkgs0 _ Hrec) as [Hnv _].
  simpl in Hnv. destruct (run_done0 eq_refl n Hnv) as [_ Hdeps]; [set_solver|].
  destruct (Hdeps r d Hfind Hd); [done | by apply Hvis].
Qed.

(** C3. When [install] stops on an exception raised by a step of
    a package's pipeline before its record is written (any step but
    the recipe lookup and [db.save()]), that package has no record
    in the manifest, recipes being stored under their names; and a
    name that gains a record during [install] has its record
    written after the extraction of its archive completed. *)
Theorem failed_pipeline_leaves_no_record top st st' o evs :
  install top st = Some (st', o) ->
  trace st' = trace st ++ evs ->
  (names_ok ->
   forall e pre ev,
     o = Raise e -> evs = pre ++ [ev] ->
     ev_step ev <> SSave -> ev_step ev <> SResolve ->
     ev_pkg ev ∉ dom (db st')) /\
  (forall n, n ∈ dom (db st') -> n ∉ dom (db st) -> recorded_after_unpack n evs).
Proof.
  intros Hi Ht.
  destruct (install_summary _ _ _ _ Hi) as (v' & evs' & _ & [B N]).
  assert (evs' = evs) as ->.
  { destruct B. apply (app_inv_head (trace st)). congruence. }
  split.
  - intros Hn. by destruct (N Hn).
  - intros n Hin Hnin. destruct B. by destruct (run_recorded0 n Hin).
Qed.



Lemma install_deps_present call ds v st :
  (forall d, d ∈ ds -> d ∈ dom (db st)) ->
  install_deps call ds v st = Some (v, st, Ok tt).
Proof.
  induction ds as [|d ds IH]; intros Hds; simpl; [done|].
  destruct (decide (d ∈ dom (db st))) as [_|Hbad]; [|destruct Hbad; set_solver].
  apply IH. set_solver.
Qed.

(** C6, as the code has it. [install] of a name that has a record,
    whose recipe is found and whose dependencies all have records,
    changes nothing: no step runs, manifest, logs and world stay as
    they are. In particular, when recipes are stored under their
    names, an [install] right after one that returned normally is
    such a call, so the pipeline is performed once. *)
Theorem install_of_recorded_name nm st :
  (forall r, nm ∈ dom (db st) -> find nm = Ok r ->
             (forall d, d ∈ deps r -> d ∈ dom (db st)) ->
             install nm st = Some (st, Ok tt)) /\
  (forall st0, names_ok -> install nm st0 = Some (st, Ok tt) ->
               install nm st = Some (st, Ok tt)).
Proof.
  assert (Hfirst : forall r, nm ∈ dom (db st) -> find nm = Ok r ->
             (forall d, d ∈ deps r -> d ∈ dom (db st)) ->
             install nm st = Some (st, Ok tt)).
  { intros r Hin Hfind Hdeps. unfold install. simpl.
    destruct (decide (nm ∈ (∅ : gset string))) as [Hv|_]; [set_solver|].
    rewrite Hfind, install_deps_present by done.
    by destruct (decide (nm ∈ dom (db st))). }
  split; [exact Hfirst|]. intros st0 Hn Hi.
  destruct (install_summary _ _ _ _ Hi) as (v' & evs & Hv' & [B N]).
  specialize (N Hn). destruct N.
  destruct (run_done0 eq_refl nm Hv') as [Hin Hdeps]; [set_solver|].
  destruct (find nm) as [r|e] eqn:Hfind.
  - apply (Hfirst r); [done|done|]. intros d Hd.
    destruct (Hdeps r d eq_refl Hd) as [?|Hdv]; [done|].
    apply run_done0; [done|done|set_solver].
  - exfalso. revert Hi. unfold install. simpl.
    destruct (decide (nm ∈ (∅ : gset string))) as [Hv|_]; [set_solver|].
    by rewrite Hfind.
Qed.

(** C7, as the code has it. No exception is caught on the way up:
    whatever step of whatever package fails during [install], it is
    the last thing that runs, and [install] raises the exception of
    that step. *)
Theorem failure_aborts_whole_install top st st' o pre ev post :
  install top st = Some (st', o) ->
  trace st' = trace st ++ pre ++ ev :: post ->
  failed ev ->
  post = [] /\ exists e, ev_exn ev = Some e /\ o = Raise e.
Proof.
  intros Hi Ht Hf.
  destruct (install_summary _ _ _ _ Hi) as (v' & evs & _ & [B _]). destruct B.
  assert (evs = pre ++ ev :: post) as ->
    by (apply (app_inv_head (trace st)); congruence).
  destruct o as [[]|e]; simpl in run_outcome0.
  - exfalso. apply Forall_app in run_outcome0 as [_ Hall].
    apply Forall_cons in Hall as [Hev _]. by apply Hf.
  - destruct run_outcome0 as (pre' & ev' & Heq & Hok & Hev').
    symmetry in Heq. destruct (failed_event_last _ _ _ _ _ Heq Hok Hf) as [-> ->].
    split; [done|]. by exists e.
Qed.

(** The logs of [genpkg1.0.py] only grow: whatever [install] does,
    every log file keeps its old content as a prefix of the new. *)
Lemma install_logs_grow nm st st' o :
  install nm st = Some (st', o) -> logs_grow st st'.
Proof.
  intros Hi. destruct (install_summary _ _ _ _ Hi) as (v' & evs & _ & [B _]).
  by destruct B.
Qed.

(** *** What [install_package_files] returns *)

Lemma first_absolute_None members :
  first_absolute members = None ->
  Forall (fun m => startswith (tar_name m) "/" = false) members.
Proof.
  induction members as [|m ms IH]; simpl; [constructor|].
  destruct (startswith (tar_name m) "/") eqn:E; [done|].
  intros H. constructor; [done | by apply IH].
Qed.

(** What the list returned by [install_package_files] is, given the
    members of the archive. *)
Definition recorded_from (members : list TarInfo) (l : list string) : Prop :=
  StronglySorted str_lt l /\ NoDup l /\
  (forall p, p ∈ l <-> exists m, m ∈ members /\ p = str_Path (tar_name m)) /\
  Forall (fun p => startswith p "/" = false) l.

Lemma install_package_files_Ok pkg pkgfile root st st' l :
  install_package_files pkg pkgfile root st = (st', Ok l) ->
  exists members,
    tar_getmembers os pkgfile (ext st) = Ok members /\
    first_absolute members = None /\
    l = sorted_set (map (fun m => str_Path (tar_name m)) members).
Proof.
  unfold install_package_files, bind, act, throw, ret.
  destruct (tar_getmembers os pkgfile (ext st)) as [members|e]; simpl; [|done].
  destruct (first_absolute members) eqn:Habs; [done|]. simpl.
  destruct (tar_extractall os pkgfile root (ext st)) as [e' [[]|e]]; simpl; [|done].
  intros [= _ <-]. by exists members.
Qed.

Lemma sorted_set_members p members :
  p ∈ sorted_set (map (fun m => str_Path (tar_name m)) members)
  <-> exists m, m ∈ members /\ p = str_Path (tar_name m).
Proof.
  rewrite elem_of_sorted_set, list_elem_of_fmap.
  split; intros (m & H1 & H2); exists m; done.
Qed.

Lemma sorted_set_relative members :
  first_absolute members = None ->
  Forall (fun p => startswith p "/" = false)
    (sorted_set (map (fun m => str_Path (tar_name m)) members)).
Proof.
  intros Habs. apply Forall_forall. intros p Hp.
  apply sorted_set_members in Hp as (m & Hm & ->).
  apply str_Path_relative. apply first_absolute_None in Habs.
  rewrite Forall_forall in Habs. by apply Habs.
Qed.

(** X1. When [install_package_files] returns, the list it returns is
    built from the members the archive was read to have: it holds
    [str(Path(m.name))] for every member [m] and nothing else, in
    strictly ascending order, so without repeats, and no path in it
    is absolute. *)
Theorem install_package_files_result pkg pkgfile root st st' l :
  install_package_files pkg pkgfile root st = (st', Ok l) ->
  exists members,
    tar_getmembers os pkgfile (ext st) = Ok members /\
    StronglySorted str_lt l /\ NoDup l /\
    (forall p, p ∈ l <-> exists m, m ∈ members /\ p = str_Path (tar_name m)) /\
    Forall (fun p => startswith p "/" = false) l.
Proof.
  intros Hrun.
  destruct (install_package_files_Ok _ _ _ _ _ _ Hrun) as (members & Hms & Habs & ->).
  exists members. split; [done|].
  split; [apply sorted_set_sorted|].
  split; [apply strongly_sorted_NoDup, sorted_set_sorted|].
  split; [intros p; apply sorted_set_members|].
  by apply sorted_set_relative.
Qed.

(** *** Induction over the recursive installer *)

Section Induction.

(** A relation between the state before and after a run, its outcome
    and the events it added, that holds of doing nothing, of a failed
    recipe lookup and of the pipeline of a package without a record,
    and is closed under sequencing after a normal return. *)
Variable R : State Ext -> State Ext -> res unit -> list event -> Prop.

Hypothesis R_refl : forall st, R st st (Ok tt) [].
Hypothesis R_trans :
  forall st st1 st2 o evs1 evs2,
    trace st1 = trace st ++ evs1 -> trace st2 = trace st1 ++ evs2 ->
    R st st1 (Ok tt) evs1 -> R st1 st2 o evs2 -> R st st2 o (evs1 ++ evs2).
Hypothesis R_resolve :
  forall nm e st,
    find nm = Raise e ->
    R st (fst (throw (A := unit) nm SResolve e st)) (Raise e)
      [mkEvent nm SResolve (Some e)].
Hypothesis R_build :
  forall nm r st st' o,
    find nm = Ok r -> nm ∉ dom (db st) -> _build_and_install r st = (st', o) ->
    exists evs, trace st' = trace st ++ evs /\ R st st' o evs.

Lemma install_deps_rec call ds :
  (forall d v st v' st' o, call d v st = Some (v', st', o) ->
     exists evs, trace st' = trace st ++ evs /\ R st st' o evs) ->
  forall v st v' st' o, install_deps call ds v st = Some (v', st', o) ->
    exists evs, trace st' = trace st ++ evs /\ R st st' o evs.
Proof.
  intros Hcall. induction ds as [|d ds IH]; intros v st v' st' o; simpl.
  - intros [= <- <- <-]. exists []. split; [by rewrite app_nil_r | apply R_refl].
  - destruct (decide (d ∈ dom (db st))); [apply IH|].
    destruct (call d v st) as [[[v1 st1] [[]|e]]|] eqn:Ec; [| |done].
    + intros E. destruct (Hcall _ _ _ _ _ _ Ec) as (evs1 & Ht1 & H1).
      destruct (IH _ _ _ _ _ E) as (evs2 & Ht2 & H2).
      exists (evs1 ++ evs2). split; [by rewrite Ht2, Ht1, app_assoc|].
      by eapply R_trans.
    + intros [= <- <- <-]. by apply (Hcall _ _ _ _ _ _ Ec).
Qed.

Lemma install_with_deps_rec fuel :
  forall nm v st v' st' o,
    _install_with_deps fuel nm v st = Some (v', st', o) ->
    exists evs, trace st' = trace st ++ evs /\ R st st' o evs.
Proof.
  induction fuel as [|fuel IH]; intros nm v st v' st' o; simpl; [done|].
  destruct (decide (nm ∈ v)).
  { intros [= <- <- <-]. exists []. split; [by rewrite app_nil_r | apply R_refl]. }
  destruct (find nm) as [r|e] eqn:Hfind.
  2:{ intros [= <- <- <-]. eexists. split; [|by apply R_resolve]. done. }
  destruct (install_deps (_install_with_deps fuel) (deps r) ({[nm]} ∪ v) st)
    as [[[v2 st2] [[]|e]]|] eqn:Eloop; [| |done].
  2:{ intros [= <- <- <-]. by apply (install_deps_rec _ _ IH _ _ _ _ _ Eloop). }
  destruct (install_deps_rec _ _ IH _ _ _ _ _ Eloop) as (evs1 & Ht1 & H1).
  destruct (decide (nm ∈ dom (db st2))) as [Hdb|Hdb].
  { intros [= <- <- <-]. by exists evs1. }
  destruct (_build_and_install r st2) as [st3 o3] eqn:Eb. intros [= <- <- <-].
  destruct (R_build _ _ _ _ _ Hfind Hdb Eb) as (evs2 & Ht2 & H2).
  exists (evs1 ++ evs2). split; [by rewrite Ht2, Ht1, app_assoc|].
  by eapply R_trans.
Qed.

Lemma install_rec nm st st' o :
  install nm st = Some (st', o) ->
  exists evs, trace st' = trace st ++ evs /\ R st st' o evs.
Proof.
  unfold install.
  destruct (_install_with_deps _ nm ∅ st) as [[[v' st1] o1]|] eqn:E; [|done].
  intros [= <- <-]. by eapply install_with_deps_rec.
Qed.

End Induction.

(** *** The records written by one [install] *)

Definition is_record (ev : event) : bool :=
  match ev_step ev with
  | SRecord => true
  | _ => false
  end.

(** The packages whose record was written, in the order of writing. *)
Definition recorded_names (evs : list event) : list string :=
  map ev_pkg (List.filter is_record evs).

Lemma recorded_names_app evs1 evs2 :
  recorded_names (evs1 ++ evs2) = recorded_names evs1 ++ recorded_names evs2.
Proof. unfold recorded_names. by rewrite List.filter_app, map_app. Qed.

Lemma recorded_names_quiet nm evs :
  Forall (quiet_event nm) evs -> recorded_names evs = [].
Proof.
  induction 1 as [|ev evs (_ & Hrec & _) _ IH]; [done|].
  unfold recorded_names, is_record in *. simpl.
  destruct (ev_step ev); try done.
Qed.

(** What one run adds to the manifest: the names it records are
    pairwise different, they are exactly what the manifest gains, and
    no step but a recipe lookup belongs to a package that had a
    record when the run started. *)
Record tidy_run (st st' : State Ext) (evs : list event) : Prop := {
  tidy_once : NoDup (recorded_names evs);
  tidy_dom : dom (db st') = dom (db st) ∪ list_to_set (recorded_names evs);
  tidy_fresh :
    Forall (fun ev => ev_step ev <> SResolve -> ev_pkg ev ∉ dom (db st)) evs
}.

Lemma recorded_names_fresh (st : State Ext) evs n :
  Forall (fun ev => ev_step ev <> SResolve -> ev_pkg ev ∉ dom (db st)) evs ->
  n ∈ recorded_names evs -> n ∉ dom (db st).
Proof.
  intros Hall Hn. unfold recorded_names in Hn.
  apply list_elem_of_fmap in Hn as (ev & -> & Hev).
  apply list_elem_of_In, List.filter_In in Hev as [Hin Hrec].
  apply list_elem_of_In in Hin. rewrite Forall_forall in Hall.
  apply Hall; [done|]. unfold is_record in Hrec. by destruct (ev_step ev).
Qed.

Lemma tidy_run_install nm st st' o :
  names_ok -> install nm st = Some (st', o) ->
  exists evs, trace st' = trace st ++ evs /\ tidy_run st st' evs.
Proof.
  intros Hn.
  apply (install_rec (fun st st' _ evs => tidy_run st st' evs)).
  - intros st0. split; simpl; [constructor | set_solver | constructor].
  - intros st0 st1 st2 _ evs1 evs2 _ _ [O1 D1 F1] [O2 D2 F2]. split.
    + rewrite recorded_names_app. apply NoDup_app. split; [done|]. split; [|done].
      intros n Hn1 Hn2. apply (recorded_names_fresh _ _ _ F2 Hn2).
      rewrite D1. set_solver.
    + rewrite recorded_names_app, list_to_set_app_L, D2, D1. set_solver.
    + apply Forall_app. split; [done|].
      eapply Forall_impl; [exact F2|]. intros ev Hev Hs. specialize (Hev Hs).
      rewrite D1 in Hev. set_solver.
  - intros n e st0 _. split; simpl; [constructor | set_solver |].
    by repeat constructor.
  - intros n r st0 st1 o1 Hfind Hnin Eb.
    destruct (build_and_install_spec _ _ _ _ Eb) as (_ & evs & Ht & _ & Hcase).
    assert (Hname : name r = n) by (apply Hn; by apply find_Ok).
    rewrite Hname in Hcase. exists evs. split; [done|].
    destruct Hcase as [(Hdb & Hq & _)|(meta & pre & Hdb & -> & Hq & _)].
    + split.
      * rewrite (recorded_names_quiet _ _ Hq). constructor.
      * rewrite (recorded_names_quiet _ _ Hq), Hdb. set_solver.
      * eapply Forall_impl; [exact Hq|]. by intros ev [-> _] _.
    + assert (Hrec : recorded_names
                (pre ++ [mkEvent n SRecord None; mkEvent n SSave (raised o1)]) = [n]).
      { by rewrite recorded_names_app, (recorded_names_quiet _ _ Hq). }
      split.
      * rewrite Hrec. apply NoDup_singleton.
      * rewrite Hrec, Hdb, dom_insert_L. set_solver.
      * apply Forall_app. split; [|by repeat constructor].
        eapply Forall_impl; [exact Hq|]. by intros ev [-> _] _.
Qed.

(** X2. When recipes are stored under their names, one [install]
    writes the record of a package at most once, never for a package
    that had a record when it started, and the names the manifest has
    afterwards are those it had and those recorded, whether [install]
    returns or raises. *)
Theorem install_records_once nm st st' o evs :
  names_ok ->
  install nm st = Some (st', o) ->
  trace st' = trace st ++ evs ->
  NoDup (recorded_names evs) /\
  dom (db st') = dom (db st) ∪ list_to_set (recorded_names evs) /\
  (forall n, n ∈ recorded_names evs -> n ∉ dom (db st)).
Proof.
  intros Hn Hi Ht. destruct (tidy_run_install _ _ _ _ Hn Hi) as (evs' & Ht' & [O D F]).
  assert (evs' = evs) as -> by (apply (app_inv_head (trace st)); congruence).
  split; [done|]. split; [done|]. intros n. by apply recorded_names_fresh.
Qed.

Lemma resolve_events_failed nm st st' o :
  install nm st = Some (st', o) ->
  exists evs, trace st' = trace st ++ evs /\
    Forall (fun ev => ev_step ev = SResolve -> failed ev) evs.
Proof.
  apply (install_rec (fun _ _ _ evs =>
           Forall (fun ev => ev_step ev = SResolve -> failed ev) evs)).
  - constructor.
  - intros. by apply Forall_app.
  - intros. by repeat constructor.
  - intros n r st0 st1 o1 _ _ Eb.
    destruct (build_and_install_spec _ _ _ _ Eb) as (_ & evs & Ht & _ & Hcase).
    exists evs. split; [done|].
    destruct Hcase as [(_ & Hq & _)|(meta & pre & _ & -> & Hq & _)].
    + eapply Forall_impl; [exact Hq|]. by intros ev (_ & _ & _ & Hs) Hr.
    + apply Forall_app. split; [|by repeat constructor].
      eapply Forall_impl; [exact Hq|]. by intros ev (_ & _ & _ & Hs) Hr.
Qed.

(** X3. When recipes are stored under their names, [install] runs no
    step of the pipeline of a package that has a record when it
    starts: an event of such a package can only be the failed lookup
    of its recipe, with which [install] raises. *)
Theorem install_never_rebuilds nm st st' o evs ev :
  names_ok ->
  install nm st = Some (st', o) ->
  trace st' = trace st ++ evs ->
  ev ∈ evs -> ev_pkg ev ∈ dom (db st) ->
  ev_step ev = SResolve /\ exists e, ev_exn ev = Some e /\ o = Raise e.
Proof.
  intros Hn Hi Ht Hev Hpkg.
  destruct (tidy_run_install _ _ _ _ Hn Hi) as (evs' & Ht' & [_ _ F]).
  assert (evs' = evs) as -> by (apply (app_inv_head (trace st)); congruence).
  rewrite Forall_forall in F. specialize (F ev Hev).
  assert (Hstep : ev_step ev = SResolve).
  { destruct (ev_step ev) eqn:E; try done; exfalso; by apply F. }
  split; [done|].
  destruct (resolve_events_failed _ _ _ _ Hi) as (evs1 & Ht1 & Hres).
  assert (evs1 = evs) as -> by (apply (app_inv_head (trace st)); congruence).
  rewrite Forall_forall in Hres. specialize (Hres ev Hev Hstep).
  destruct (install_summary _ _ _ _ Hi) as (v' & evs2 & _ & [B _]). destruct B.
  assert (evs2 = evs) as -> by (apply (app_inv_head (trace st)); congruence).
  apply list_elem_of_split in Hev as (pre & post & ->).
  destruct o as [[]|e]; simpl in run_outcome0.
  - exfalso. apply Forall_app in run_outcome0 as [_ Hall].
    apply Forall_cons in Hall as [Hok _]. by apply Hres.
  - destruct run_outcome0 as (pre' & ev' & Heq & Hok & Hev').
    symmetry in Heq. destruct (failed_event_last _ _ _ _ _ Heq Hok Hres) as [-> ->].
    by exists e.
Qed.

(** *** What [install] keeps and what it reaches *)

(** X4. When recipes are stored under their names, [install] never
    removes or replaces a record: whatever the manifest held for a
    name when [install] started, it holds when [install] is over,
    whether it returns or raises. *)
Theorem install_keeps_records nm st st' o n rec :
  names_ok ->
  install nm st = Some (st', o) ->
  db st !! n = Some rec ->
  db st' !! n = Some rec.
Proof.
  intros Hn Hi Hrec.
  destruct (install_summary _ _ _ _ Hi) as (v' & evs & _ & [_ N]).
  destruct (N Hn). by eapply lookup_weaken.
Qed.

(** X5. When recipes are stored under their names and [install]
    returns normally, the requested package has a record, and so has
    every package reached from it through dependencies of packages
    that had no record at the start; no assumption is made on the
    outside world. *)
Theorem install_returns_with_records top st st' n :
  names_ok ->
  install top st = Some (st', Ok tt) ->
  on_chain st top n ->
  n ∈ dom (db st').
Proof.
  intros Hn Hi Hch.
  destruct (install_summary _ _ _ _ Hi) as (v' & evs & Hv' & [B N]).
  specialize (N Hn). destruct B, N.
  assert (Hvis : forall k, k ∈ v' -> k ∈ dom (db st')).
  { intros k Hk. by apply run_done0. }
  induction Hch as [|k r d Hch IH Hnin Hfind Hd]; [by apply Hvis|].
  destruct (run_recorded0 k IH) as [?|Hrec]; [done|].
  apply recorded_after_unpack_In in Hrec.
  rewrite Forall_forall in run_pkgs0. destruct (run_pkgs0 _ Hrec) as [Hkv _].
  simpl in Hkv. destruct (run_done0 eq_refl k Hkv) as [_ Hdeps]; [set_solver|].
  destruct (Hdeps r d Hfind Hd); [done | by apply Hvis].
Qed.

(** *** The bound of the recursion does not matter *)

Lemma install_deps_mono call call' ds :
  (forall d v st x, call d v st = Some x -> call' d v st = Some x) ->
  forall v st x, install_deps call ds v st = Some x -> install_deps call' ds v st = Some x.
Proof.
  intros Hcall. induction ds as [|d ds IH]; intros v st x; simpl; [done|].
  destruct (decide (d ∈ dom (db st))); [apply IH|].
  destruct (call d v st) as [[[v1 st1] o1]|] eqn:Ec; [|by destruct x].
  rewrite (Hcall _ _ _ _ Ec). destruct o1 as [[]|e]; [apply IH | done].
Qed.

Lemma install_with_deps_mono fuel :
  forall fuel' nm v st x, (fuel ≤ fuel')%nat ->
    _install_with_deps fuel nm v st = Some x ->
    _install_with_deps fuel' nm v st = Some x.
Proof.
  induction fuel as [|fuel IH]; intros fuel' nm v st x Hle; simpl; [done|].
  destruct fuel' as [|fuel']; [lia|]. simpl.
  destruct (decide (nm ∈ v)); [done|].
  destruct (find nm) as [r|e]; [|done].
  destruct (install_deps (_install_with_deps fuel) (deps r) ({[nm]} ∪ v) st)
    as [y|] eqn:El; [|done].
  rewrite (install_deps_mono _ (_install_with_deps fuel') _
             (fun d v0 st0 x0 => IH fuel' d v0 st0 x0 ltac:(lia)) _ _ _ El).
  done.
Qed.

(** X6. The recursion of [_install_with_deps] comes to an end on any
    recipe repository, cyclic or not, within one level per recipe and
    one more: [install] always has a result, and that result is the
    one every larger bound on the depth of the recursion gives. *)
Theorem install_bound_is_enough nm st :
  exists v' st' o,
    install nm st = Some (st', o) /\
    forall fuel, (size (recipes self) < fuel)%nat ->
      _install_with_deps fuel nm ∅ st = Some (v', st', o).
Proof.
  destruct (install_with_deps_total (S (size (recipes self))) nm ∅ st)
    as (v' & st' & o & E & _).
  { rewrite difference_empty_L, size_dom. lia. }
  exists v', st', o. split; [unfold install; by rewrite E|].
  intros fuel Hlt. eapply install_with_deps_mono; [|exact E]. lia.
Qed.

(** *** The order of the steps of one pipeline *)

(** The place of a step in [_build_and_install], from top to bottom. *)
Definition phase (s : step) : nat :=
  match s with
  | SResolve => 0
  | SMkdirLogs => 1
  | SHook stage _ => if String.eqb stage "pre_install" then 2 else 14
  | SFetch => 3
  | SExtract => 4
  | SWhichPatch => 5
  | SPatchDownload _ => 6
  | SPatch _ => 6
  | SPrepare => 7
  | SBuild _ => 8
  | SStrip => 9
  | SPackage => 10
  | SCopyBin => 11
  | STarOpen => 12
  | STarCheck => 13
  | SExtractAll => 13
  | SRecord => 15
  | SSave => 16
  end.

Definition in_order (a b : event) : Prop :=
  (phase (ev_step a) ≤ phase (ev_step b))%nat.

(** The events of [m] are in order and lie between two places. *)
Definition ordered {A} (lo hi : nat) (m : M A) : Prop :=
  forall st st' o, m st = (st', o) ->
    exists evs, trace st' = trace st ++ evs /\ StronglySorted in_order evs /\
      Forall (fun ev => (lo ≤ phase (ev_step ev) ≤ hi)%nat) evs.

Lemma ordered_single lo hi (ev : event) :
  (lo ≤ phase (ev_step ev) ≤ hi)%nat ->
  StronglySorted in_order [ev] /\
  Forall (fun ev => (lo ≤ phase (ev_step ev) ≤ hi)%nat) [ev].
Proof.
  intros H. split.
  - apply SSorted_cons; constructor.
  - constructor; [exact H | constructor].
Qed.

Lemma ordered_ret {A} lo hi (a : A) : ordered lo hi (ret a).
Proof.
  intros st st' o [= <- <-]. exists []. rewrite app_nil_r. repeat split; constructor.
Qed.

Lemma ordered_log_append lo hi lf text : ordered lo hi (log_append lf text).
Proof.
  intros st st' o [= <- <-]. exists []. simpl. rewrite app_nil_r.
  repeat split; constructor.
Qed.

Lemma ordered_act {A} lo hi pkg s (f : Ext -> Ext * res A) :
  (lo ≤ phase s ≤ hi)%nat -> ordered lo hi (act pkg s f).
Proof.
  intros Hs st st' o. unfold act. destruct (f (ext st)) as [e' r].
  intros [= <- <-]. simpl. eexists. split; [done|]. by apply ordered_single.
Qed.

Lemma ordered_throw {A} lo hi pkg s e :
  (lo ≤ phase s ≤ hi)%nat -> ordered lo hi (throw (A := A) pkg s e).
Proof.
  intros Hs st st' o [= <- <-]. simpl. eexists. split; [done|].
  by apply ordered_single.
Qed.

Lemma ordered_bind {A B} lo mid1 mid2 hi (m : M A) (k : A -> M B) :
  ordered lo mid1 m -> (forall a, ordered mid2 hi (k a)) ->
  (lo ≤ mid1)%nat -> (mid1 ≤ mid2)%nat -> (mid2 ≤ hi)%nat ->
  ordered lo hi (bind m k).
Proof.
  intros Hm Hk H1 H2 H3 st st' o. unfold bind.
  destruct (m st) as [st1 [a|e]] eqn:E1; intros E2.
  - destruct (Hm _ _ _ E1) as (evs1 & Ht1 & Hs1 & Hb1).
    destruct (Hk a _ _ _ E2) as (evs2 & Ht2 & Hs2 & Hb2).
    exists (evs1 ++ evs2). rewrite Ht2, Ht1, app_assoc. split; [done|]. split.
    + apply StronglySorted_app_2; [|done|done].
      intros x1 x2 Hx1 Hx2. rewrite Forall_forall in Hb1, Hb2.
      specialize (Hb1 _ Hx1). specialize (Hb2 _ Hx2). unfold in_order. lia.
    + apply Forall_app. split.
      * eapply Forall_impl; [exact Hb1|]. simpl. intros. lia.
      * eapply Forall_impl; [exact Hb2|]. simpl. intros. lia.
  - injection E2 as <- <-.
    destruct (Hm _ _ _ E1) as (evs1 & Ht1 & Hs1 & Hb1).
    exists evs1. split; [done|]. split; [done|].
    eapply Forall_impl; [exact Hb1|]. simpl. intros. lia.
Qed.

Lemma ordered_for_each {A} k (xs : list A) (body : A -> M unit) :
  (forall x, ordered k k (body x)) -> ordered k k (for_each xs body).
Proof.
  intros Hb. induction xs as [|x xs IH]; simpl.
  - apply ordered_ret.
  - apply (ordered_bind k k k k); [apply Hb | intros _; apply IH | lia..].
Qed.

Lemma ordered_run_hooks pkg hooks stage workdir lf :
  ordered (phase (SHook stage "")) (phase (SHook stage ""))
    (run_hooks pkg hooks stage workdir lf).
Proof.
  apply ordered_for_each. intros cmd.
  apply (ordered_bind _ (phase (SHook stage "")) (phase (SHook stage "")) _);
    [| |lia..].
  - destruct lf; [apply ordered_log_append | apply ordered_ret].
  - intros _. apply ordered_act. simpl. lia.
Qed.

Lemma ordered_run_logged pkg cmd cwd lf env :
  ordered 8 8 (run_logged pkg cmd cwd lf env).
Proof.
  intros st st' o. unfold run_logged.
  destruct (mkdir os (path_parent lf) (ext st)) as [e0 [[]|x]].
  - destruct (popen os cmd cwd env e0) as [e' [out r0]].
    intros [= <- <-]. simpl. eexists. split; [done|].
    apply ordered_single. simpl. lia.
  - intros [= <- <-]. simpl. eexists. split; [done|].
    apply ordered_single. simpl. lia.
Qed.

Lemma ordered_apply_patches pkg urls build_dir :
  ordered 5 6 (apply_patches pkg urls build_dir).
Proof.
  unfold apply_patches. destruct urls as [|u urls]; [apply ordered_ret|].
  apply (ordered_bind 5 5 6 6); [| |lia..].
  - intros st st' o. destruct (which os "patch" (ext st)).
    + intros [= <- <-]. exists []. rewrite app_nil_r. repeat split; constructor.
    + apply ordered_throw. simpl. lia.
  - intros _. apply ordered_for_each. intros x.
    apply (ordered_bind 6 6 6 6); [| |lia..].
    + apply ordered_act. simpl. lia.
    + intros pf. apply ordered_act. simpl. lia.
Qed.

Lemma ordered_install_package_files pkg pkgfile root :
  ordered 12 13 (install_package_files pkg pkgfile root).
Proof.
  unfold install_package_files.
  apply (ordered_bind 12 12 13 13); [apply ordered_act; simpl; lia | | lia..].
  intros members. destruct (first_absolute members).
  - apply ordered_throw. simpl. lia.
  - apply (ordered_bind 13 13 13 13); [apply ordered_act; simpl; lia | | lia..].
    intros _. apply ordered_ret.
Qed.

(** X7. The steps of [_build_and_install] run in the order in which
    the function lists them, whatever happens in them: the log
    directory, the pre-install hooks, the download and the
    extraction of the source, the patches, the staging directory,
    the build commands, the strip, the package, the copy of the
    binaries, the unpacking into the root, the post-install hooks,
    the record, the save; and no step is the lookup of a recipe. *)
Theorem build_and_install_in_order r st :
  exists evs,
    trace (fst (_build_and_install r st)) = trace st ++ evs /\
    StronglySorted in_order evs /\
    Forall (fun ev => (1 ≤ phase (ev_step ev) ≤ 16)%nat) evs.
Proof.
  assert (H : ordered 1 16 (_build_and_install r)).
  { unfold _build_and_install.
    apply (ordered_bind 1 1 2 16); [apply ordered_act; simpl; lia | intros _ | lia..].
    apply (ordered_bind 2 2 3 16); [apply ordered_run_hooks | intros _ | lia..].
    apply (ordered_bind 3 4 5 16); [|intros src_dir | lia..].
    { destruct (startswith (url r) "git+"); [apply ordered_act; simpl; lia|].
      apply (ordered_bind 3 3 4 4); [apply ordered_act; simpl; lia | | lia..].
      intros t. apply ordered_act. simpl. lia. }
    apply (ordered_bind 5 6 7 16); [apply ordered_apply_patches | intros _ | lia..].
    apply (ordered_bind 7 7 8 16); [apply ordered_act; simpl; lia | intros _ | lia..].
    apply (ordered_bind 8 8 9 16); [|intros _ | lia..].
    { apply ordered_for_each. intros cmd. apply ordered_run_logged. }
    apply (ordered_bind 9 9 10 16); [|intros _ | lia..].
    { destruct (use_strip self); [apply ordered_act; simpl; lia | apply ordered_ret]. }
    apply (ordered_bind 10 10 11 16); [apply ordered_act; simpl; lia | intros pkgfile | lia..].
    apply (ordered_bind 11 11 12 16); [apply ordered_act; simpl; lia | intros bin | lia..].
    apply (ordered_bind 12 13 14 16);
      [apply ordered_install_package_files | intros created | lia..].
    apply (ordered_bind 14 14 15 16); [apply ordered_run_hooks | intros _ | lia..].
    apply (ordered_bind 15 15 16 16); [| | lia..].
    - intros st0 st1 o [= <- <-]. simpl. eexists. split; [done|].
      apply ordered_single. simpl. lia.
    - intros _ st0. apply ordered_act. simpl. lia. }
  destruct (_build_and_install r st) as [st' o] eqn:E. by apply (H _ _ _ E).
Qed.

(** *** [build_only] *)

(** [Installer.build_only(name)]: the log file is named after the
    name asked for, and the environment of the commands has
    [DESTDIR] only. *)
Definition build_only (nm : string) : M unit :=
  fun st =>
    match find nm with
    | Raise e => throw nm SResolve e st
    | Ok r =>
        (let log_file := path_join (LOGS_DIR dirs) (nm +:+ ".log") in
         let! src_dir :=
           (if startswith (url r) "git+"
            then act (name r) SFetch
                   (git_download os (str_drop 4 (url r)) (SOURCES_DIR dirs))
            else
              let! tarball :=
                act (name r) SFetch (http_download os (url r) (SOURCES_DIR dirs)) in
              act (name r) SExtract (extract_tar_any os tarball (SOURCES_DIR dirs))) in
         apply_patches (name r) (patches r) src_dir >>
         let destdir := path_join (DESTDIR_BASE dirs) (name r) in
         act (name r) SPrepare (reset_destdir os destdir) >>
         let env := [("DESTDIR", destdir)] in
         for_each (commands r) (fun cmd =>
           run_logged (name r) cmd src_dir log_file env) >>
         (if use_strip self then act (name r) SStrip (strip_binaries_in os destdir)
          else ret tt) >>
         let! pkgfile :=
           act (name r) SPackage (package_destdir os (name r) (version r) destdir) in
         ret tt) st
    end.

(** The steps that [build_only] can take. *)
Definition build_step (s : step) : bool :=
  match s with
  | SResolve | SFetch | SExtract | SWhichPatch | SPatchDownload _
  | SPatch _ | SPrepare | SBuild _ | SStrip | SPackage => true
  | SMkdirLogs | SHook _ _ | SCopyBin | STarOpen | STarCheck | SExtractAll
  | SRecord | SSave => false
  end.

(** [m] leaves the manifest alone, only adds to the logs, and all its
    events satisfy [P]. *)
Definition emits {A} (P : event -> Prop) (m : M A) : Prop :=
  forall st st' o, m st = (st', o) ->
    db st' = db st /\ logs_grow st st' /\
    exists evs, trace st' = trace st ++ evs /\ Forall P evs /\ run_ok evs o.

Lemma emits_ret {A} P (a : A) : emits P (ret a).
Proof.
  intros st st' o [= <- <-]. split; [done|]. split; [apply logs_grow_refl|].
  exists []. rewrite app_nil_r. repeat split; constructor.
Qed.

Lemma emits_bind {A B} P (m : M A) (k : A -> M B) :
  emits P m -> (forall a, emits P (k a)) -> emits P (bind m k).
Proof.
  intros Hm Hk st st' o. unfold bind.
  destruct (m st) as [st1 [a|e]] eqn:E1; intros E2.
  - destruct (Hm _ _ _ E1) as (Hdb1 & Hl1 & evs1 & Ht1 & Hq1 & Hr1).
    destruct (Hk a _ _ _ E2) as (Hdb2 & Hl2 & evs2 & Ht2 & Hq2 & Hr2).
    split; [congruence|]. split; [by eapply logs_grow_trans|].
    exists (evs1 ++ evs2). rewrite Ht2, Ht1, app_assoc. split; [done|].
    split; [by apply Forall_app | by eapply run_ok_app].
  - injection E2 as <- <-.
    destruct (Hm _ _ _ E1) as (Hdb1 & Hl1 & evs1 & Ht1 & Hq1 & Hr1).
    split; [done|]. split; [done|]. by exists evs1.
Qed.

Lemma emits_act {A} (P : event -> Prop) pkg s (f : Ext -> Ext * res A) :
  (forall x, P (mkEvent pkg s x)) -> emits P (act pkg s f).
Proof.
  intros HP st st' r. unfold act.
  destruct (f (ext st)) as [e' r'] eqn:E. intros [= <- <-]. simpl.
  split; [done|]. split; [by apply logs_grow_same|].
  eexists. split; [done|]. split; [|apply run_ok_single].
  constructor; [apply HP | constructor].
Qed.

Lemma emits_throw {A} (P : event -> Prop) pkg s e :
  P (mkEvent pkg s (Some e)) -> emits P (throw (A := A) pkg s e).
Proof.
  intros HP st st' r [= <- <-]. simpl.
  split; [done|]. split; [by apply logs_grow_same|].
  eexists. split; [done|]. split; [constructor; [apply HP | constructor]|].
  exists [], (mkEvent pkg s (Some e)). repeat split; constructor.
Qed.

Lemma emits_for_each {A} P (xs : list A) (body : A -> M unit) :
  (forall x, emits P (body x)) -> emits P (for_each xs body).
Proof.
  intros Hb. induction xs as [|x xs IH]; simpl.
  - apply emits_ret.
  - apply emits_bind; [apply Hb | intros _; apply IH].
Qed.

Lemma emits_run_logged (P : event -> Prop) pkg cmd cwd lf env :
  (forall x, P (mkEvent pkg (SBuild cmd) x)) ->
  emits P (run_logged pkg cmd cwd lf env).
Proof.
  intros HP st st' r. unfold run_logged.
  destruct (mkdir os (path_parent lf) (ext st)) as [e0 [[]|x]].
  - destruct (popen os cmd cwd env e0) as [e' [out r0]] eqn:E.
    intros [= <- <-]. simpl.
    split; [done|]. split; [by eapply logs_grow_insert|].
    eexists. split; [done|]. split; [constructor; [apply HP | constructor]|].
    apply run_ok_single.
  - intros [= <- <-]. simpl.
    split; [done|]. split; [by apply logs_grow_same|].
    eexists. split; [done|]. split; [constructor; [apply HP | constructor]|].
    apply (run_ok_single pkg (SBuild cmd) (@Raise unit x)).
Qed.

Lemma emits_apply_patches (P : event -> Prop) pkg urls build_dir :
  (forall s x, build_step s = true -> P (mkEvent pkg s x)) ->
  emits P (apply_patches pkg urls build_dir).
Proof.
  intros HP. unfold apply_patches. destruct urls as [|u urls]; [apply emits_ret|].
  apply emits_bind.
  - intros st st' r. destruct (which os "patch" (ext st)).
    + intros [= <- <-]. split; [done|]. split; [apply logs_grow_refl|].
      exists []. rewrite app_nil_r. repeat split; constructor.
    + apply emits_throw. by apply HP.
  - intros _. apply emits_for_each. intros x. apply emits_bind.
    + apply emits_act. intros. by apply HP.
    + intros pf. apply emits_act. intros. by apply HP.
Qed.

(** X8. [build_only] builds and packages and does nothing else,
    whatever the recipe and whatever fails: the manifest is as it
    was, the logs have only grown, and every step taken is the
    lookup of the recipe, a download, an extraction of the source, a
    patch, the preparation of the staging directory, a build
    command, the strip or the packaging; no hook runs, nothing is
    copied to the directory of binaries, nothing is unpacked into
    the install root, no record is written and the manifest is not
    saved. *)
Theorem build_only_builds_only nm st :
  db (fst (build_only nm st)) = db st /\
  logs_grow st (fst (build_only nm st)) /\
  exists evs,
    trace (fst (build_only nm st)) = trace st ++ evs /\
    Forall (fun ev => build_step (ev_step ev) = true) evs /\
    run_ok evs (snd (build_only nm st)).
Proof.
  assert (H : emits (fun ev => build_step (ev_step ev) = true) (build_only nm)).
  { intros st0. unfold build_only. destruct (find nm) as [r|e].
    2:{ by apply emits_throw. }
    revert st0.
    apply emits_bind.
    { destruct (startswith (url r) "git+"); [by apply emits_act|].
      apply emits_bind; [by apply emits_act | intros t; by apply emits_act]. }
    intros src_dir. apply emits_bind; [by apply emits_apply_patches | intros _].
    apply emits_bind; [by apply emits_act | intros _].
    apply emits_bind.
    { apply emits_for_each. intros cmd. by apply emits_run_logged. }
    intros _. apply emits_bind.
    { destruct (use_strip self); [by apply emits_act | apply emits_ret]. }
    intros _. apply emits_bind; [by apply emits_act | intros pkgfile].
    apply emits_ret. }
  destruct (build_only nm st) as [st' o] eqn:E. by apply (H _ _ _ E).
Qed.

(** X9. The logs of [genpkg1.0.py] only grow under [install]:
    [install] always comes back, and every log file then has its old
    content as a prefix of its content. *)
Theorem install_appends_to_logs nm st :
  exists st' o, install nm st = Some (st', o) /\ logs_grow st st'.
Proof.
  destruct (install_total nm st) as (st' & o & Hi). exists st', o.
  split; [done|]. by eapply install_logs_grow.
Qed.

(** *** [install] of a package without a record *)

(** In [install] of a package without a record, only the pipeline of
    that package, which runs last, can write its record; so when
    [install] raises, and not from [db.save()], the package has no
    record. *)
Lemma install_failed_unrecorded nm st st' e pre ev :
  names_ok -> nm ∉ dom (db st) ->
  install nm st = Some (st', Raise e) ->
  trace st' = trace st ++ pre ++ [ev] ->
  ev_step ev <> SSave ->
  nm ∉ dom (db st').
Proof.
  intros Hn Hnin. unfold install. simpl.
  destruct (decide (nm ∈ (∅ : gset string))) as [Hv|_]; [set_solver|].
  destruct (find nm) as [r|e0] eqn:Hfind; [|by intros [= <- _]].
  destruct (install_deps _ (deps r) _ st) as [[[v2 st2] o2]|] eqn:El; [|done].
  destruct (install_deps_summary _ _ (install_with_deps_summary _) _ _ _ _ _ El)
    as (evs1 & [B N] & _).
  specialize (N Hn). destruct B, N.
  assert (Hnin2 : nm ∉ dom (db st2)).
  { intros Hin. destruct (run_recorded0 nm Hin) as [?|Hrec]; [done|].
    apply recorded_after_unpack_In in Hrec. rewrite Forall_forall in run_pkgs0.
    destruct (run_pkgs0 _ Hrec) as [_ Hbad]. simpl in Hbad. set_solver. }
  destruct o2 as [[]|e2]; [|by intros [= <- _]].
  destruct (decide (nm ∈ dom (db st2))); [done|].
  destruct (_build_and_install r st2) as [st3 o3] eqn:Eb. intros [= <- ->] Ht Hstep.
  destruct (build_and_install_spec _ _ _ _ Eb) as (_ & evsb & Htb & _ & Hcase).
  assert (Hname : name r = nm) by (apply Hn; by apply find_Ok).
  rewrite Hname in Hcase.
  destruct Hcase as [(-> & _)|(meta & pre2 & _ & -> & _)]; [done|].
  exfalso. apply Hstep.
  assert (Heq : (evs1 ++ pre2 ++ [mkEvent nm SRecord None]) ++
                [mkEvent nm SSave (raised (@Raise unit e))]
                = pre ++ [ev]).
  { apply (app_inv_head (trace st)). rewrite <- Ht, Htb, run_trace0.
    by rewrite <- !app_assoc. }
  by apply app_inj_tail in Heq as [_ <-].
Qed.

(** *** The exit status of the program *)

(** How the process ends. *)
Inductive ending : Type :=
| Returns
| SysExit (code : Z)
| Traceback (e : exn).

(** The [try] around [main()] at the bottom of the file. *)
Definition main_guard (o : res unit) : ending :=
  match o with
  | Ok _ => Returns
  | Raise (FileNotFoundError _) => SysExit 1
  | Raise (CalledProcessError returncode _) => SysExit returncode
  | Raise KeyboardInterrupt => SysExit 130
  | Raise e => Traceback e
  end.

(** [main()] for the command [install], once the directories are
    there and the index and the manifest are loaded. *)
Definition main_install (package : string) (st : State Ext)
    : option (State Ext * ending) :=
  match install package st with
  | Some (st', o) => Some (st', main_guard o)
  | None => None
  end.

(** X21. The exit status of [genpkg install] is decided by the one
    step that failed, in whatever package of the dependency tree:
    the process ends as the handler at the bottom of the file ends
    it for the exception of that step; with the exit status of the
    command when a build command, a hook or a patch exited with a
    non-zero status, and with status 1 when a recipe was not
    found. *)
Theorem exit_status_of_failed_step package st st' x evs ev e :
  main_install package st = Some (st', x) ->
  trace st' = trace st ++ evs ->
  ev ∈ evs -> ev_exn ev = Some e ->
  x = main_guard (Raise e) /\
  (forall rc cmd, e = CalledProcessError rc cmd -> x = SysExit rc) /\
  (forall msg, e = FileNotFoundError msg -> x = SysExit 1).
Proof.
  unfold main_install. destruct (install package st) as [[st1 o]|] eqn:Hi; [|done].
  intros [= <- <-] Ht Hev He.
  assert (Ho : o = Raise e).
  { destruct (install_summary _ _ _ _ Hi) as (v' & evs' & _ & [B _]). destruct B.
    assert (evs' = evs) as -> by (apply (app_inv_head (trace st)); congruence).
    apply list_elem_of_split in Hev as (pre & post & ->).
    assert (Hf : failed ev) by (unfold failed; congruence).
    destruct o as [[]|e0]; simpl in run_outcome0.
    - exfalso. apply Forall_app in run_outcome0 as [_ Hall].
      apply Forall_cons in Hall as [Hok _]. by apply Hf.
    - destruct run_outcome0 as (pre' & ev' & Heq & Hok & Hev').
      symmetry in Heq. destruct (failed_event_last _ _ _ _ _ Heq Hok Hf) as [_ ->].
      congruence. }
  rewrite Ho. split; [done|]. split; [by intros rc cmd ->|by intros msg ->].
Qed.

(** *** The record of a package *)

(** What holds of the state and the value whenever [m] returns. *)
Definition returns_in {A} (Q : State Ext -> A -> Prop) (m : M A) : Prop :=
  forall st st' a, m st = (st', Ok a) -> Q st' a.

Lemma returns_bind {A B} (P : A -> Prop) (Q : State Ext -> B -> Prop)
    (m : M A) (k : A -> M B) :
  (forall st st' a, m st = (st', Ok a) -> P a) ->
  (forall a, P a -> returns_in Q (k a)) ->
  returns_in Q (bind m k).
Proof.
  intros Hm Hk st st' b. unfold bind.
  destruct (m st) as [st1 [a|e]] eqn:E; [|done].
  apply Hk. by eapply Hm.
Qed.

Lemma returns_then {A B} (Q : State Ext -> B -> Prop) (m : M A) (k : A -> M B) :
  (forall a, returns_in Q (k a)) -> returns_in Q (bind m k).
Proof. intros Hk. apply (returns_bind (fun _ => True)); [done | by intros]. Qed.

(** X24. When [_build_and_install] returns normally the manifest
    has a record for the package that says where it went: the
    version and the path of the recipe, the staging directory of the
    package, the install root the archive was unpacked into, and as
    files the normalised names of the members of the package
    archive it names, in ascending order, without repeats, none of
    them absolute. *)
Theorem build_and_install_record r st st' :
  _build_and_install r st = (st', Ok tt) ->
  exists meta,
    db st' !! name r = Some meta /\
    meta_version meta = version r /\
    meta_recipe_path meta = path r /\
    meta_destdir meta = path_join (DESTDIR_BASE dirs) (name r) /\
    meta_installed_root meta = target_root self /\
    exists e members,
      tar_getmembers os (meta_package_file meta) e = Ok members /\
      recorded_from members (meta_files meta).
Proof.
  set (Q := fun (st' : State Ext) (_ : unit) =>
    exists meta,
      db st' !! name r = Some meta /\
      meta_version meta = version r /\
      meta_recipe_path meta = path r /\
      meta_destdir meta = path_join (DESTDIR_BASE dirs) (name r) /\
      meta_installed_root meta = target_root self /\
      exists e members,
        tar_getmembers os (meta_package_file meta) e = Ok members /\
        recorded_from members (meta_files meta)).
  assert (H : returns_in Q (_build_and_install r)).
  { unfold _build_and_install.
    do 7 (apply returns_then; intros ?).
    apply returns_then. intros pkgfile. apply returns_then. intros bin_copied.
    apply (returns_bind (fun l => exists e members,
             tar_getmembers os pkgfile e = Ok members /\ recorded_from members l)).
    { intros st0 st1 l E.
      destruct (install_package_files_Ok _ _ _ _ _ _ E) as (ms & Hms & Habs & ->).
      exists (ext st0), ms. split; [done|].
      split; [apply sorted_set_sorted|].
      split; [apply strongly_sorted_NoDup, sorted_set_sorted|].
      split; [intros p; apply sorted_set_members | by apply sorted_set_relative]. }
    intros created_files Hfiles. apply returns_then. intros _.
    intros st0 st1 []. unfold bind, act. simpl.
    destruct (db_save os _ (ext st0)) as [e' [[]|e]]; [|done].
    intros [= <-]. unfold Q. simpl. eexists. rewrite lookup_insert_eq.
    split; [done|]. by repeat split. }
  intros E. destruct (H _ _ _ E) as (meta & ?). by exists meta.
Qed.

(** [install] of a package without a record whose dependencies all
    have one adds the record of that package and nothing else. *)
Lemma install_single nm r st st' :
  names_ok -> nm ∉ dom (db st) -> find nm = Ok r ->
  (forall d, d ∈ deps r -> d ∈ dom (db st)) ->
  install nm st = Some (st', Ok tt) ->
  exists meta, db st' = <[nm := meta]> (db st).
Proof.
  intros Hn Hnin Hfind Hdeps. unfold install. simpl.
  destruct (decide (nm ∈ (∅ : gset string))) as [Hv|_]; [set_solver|].
  rewrite Hfind, install_deps_present by done.
  destruct (decide (nm ∈ dom (db st))); [done|].
  destruct (_build_and_install r st) as [st1 o1] eqn:Eb. intros [= <- ->].
  destruct (build_and_install_spec _ _ _ _ Eb) as (_ & evs & _ & _ & Hcase).
  assert (Hname : name r = nm) by (apply Hn; by apply find_Ok).
  rewrite Hname in Hcase.
  destruct Hcase as [(_ & _ & Hne)|(meta & pre & Hdb & _)]; [done|]. by exists meta.
Qed.
End Engine.

Arguments M : clear implicits.

(** *** Concrete runs *)

(** A small world: the outside is the journal of what was done to it.
    Of all collaborators three can fail: the download of a URL ending
    in ["broken.tar.gz"], the command ["false"], and the archive of
    the package ["evil"], which holds an absolute member. *)
Definition dirs0 : Dirs :=
  mkDirs "/work" "/work/repo/recipes" "/work/sources" "/work/patches" "/work/destdir"
         "/work/packages" "/work/logs" "/home/u/.genpkg/bin".

Definition world0 : World (list string) :=
  mkWorld (list string)
    (fun d e => (e ++ ["mkdir " +:+ d], Ok tt))
    (fun c w e => (e ++ [c], Ok 0%Z))
    (fun c w env e =>
       (e ++ [c], ("output of " +:+ c, Ok (if String.eqb c "false" then 1%Z else 0%Z))))
    (fun u d e => (e ++ ["git " +:+ u], Ok (path_join d "checkout")))
    (fun u d e =>
       if String.eqb u "http://mirror/broken.tar.gz"
       then (e, Raise (OSError "404"))
       else (e ++ ["get " +:+ u], Ok (path_join d "src.tar.gz")))
    (fun t d e => (e ++ ["untar " +:+ t], Ok (path_join d "src")))
    (fun _ _ => true)
    (fun d e => (e ++ ["reset " +:+ d], Ok tt))
    (fun d e => (e ++ ["strip " +:+ d], Ok tt))
    (fun n v d e =>
       (e ++ ["pack " +:+ n], Ok (path_join "/work/packages" (n +:+ "-" +:+ v +:+ ".tar.gz"))))
    (fun d e => (e, Ok []))
    (fun f e =>
       if String.eqb f "/work/packages/evil-1.0.tar.gz"
       then Ok [mkTarInfo "."; mkTarInfo "./bin"; mkTarInfo "/etc/passwd"]
       else Ok [mkTarInfo "."; mkTarInfo "./bin"; mkTarInfo "./bin/tool"])
    (fun f r e => (e ++ ["extract " +:+ f +:+ " into " +:+ r], Ok tt))
    (fun d e => (e ++ ["save"], Ok tt))
    (fun e => Z.of_nat (List.length e)).

(** The same world with nothing that fails. *)
Definition calm_world : World (list string) :=
  mkWorld (list string)
    (mkdir world0) (run_cmd world0)
    (fun c w env e => (e ++ [c], ("output of " +:+ c, Ok 0%Z)))
    (git_download world0)
    (fun u d e => (e ++ ["get " +:+ u], Ok (path_join d "src.tar.gz")))
    (extract_tar_any world0) (which world0) (reset_destdir world0)
    (strip_binaries_in world0) (package_destdir world0)
    (copy_binaries_to_bindir world0)
    (fun f e => Ok [mkTarInfo "."; mkTarInfo "./bin"; mkTarInfo "./bin/tool"])
    (tar_extractall world0) (db_save world0) (time_now world0).

Definition recipe0 (nm src : string) (ds cmds : list string) : Recipe :=
  mkRecipe nm "1.0" src ds cmds [] [] [] [] [] ("/work/repo/recipes/" +:+ nm +:+ ".yml").

Definition fresh : State (list string) := mkState ∅ ∅ [] [].

(** The state [install] leaves, for a call that is known to return. *)
Definition after (os : World (list string)) (self : Installer) (nm : string)
    (st : State (list string)) : State (list string) :=
  match install dirs0 os self nm st with
  | Some (st', _) => st'
  | None => st
  end.

(** [A] depends on [B] and [B] on [A]. *)
Definition cyclic : Installer :=
  mkInstaller
    (<["A" := recipe0 "A" "http://mirror/a.tar.gz" ["B"] ["make install"]]>
       (<["B" := recipe0 "B" "http://mirror/b.tar.gz" ["A"] ["make install"]]> ∅))
    "/" false.

(** [app] depends on [lib]. *)
Definition layered : Installer :=
  mkInstaller
    (<["app" := recipe0 "app" "http://mirror/app.tar.gz" ["lib"] ["make"; "make install"]]>
       (<["lib" := recipe0 "lib" "http://mirror/lib.tar.gz" [] ["make install"]]> ∅))
    "/" false.

(** [top] depends on [one], whose source cannot be fetched, and on
    [two], which is independent of [one]. *)
Definition forked : Installer :=
  mkInstaller
    (<["top" := recipe0 "top" "http://mirror/top.tar.gz" ["one"; "two"] ["make install"]]>
       (<["one" := recipe0 "one" "http://mirror/broken.tar.gz" [] ["make install"]]>
          (<["two" := recipe0 "two" "http://mirror/two.tar.gz" [] ["make install"]]> ∅)))
    "/" false.

(** [tool], whose only build command fails. *)
Definition failing : Installer :=
  mkInstaller (<["tool" := recipe0 "tool" "http://mirror/tool.tar.gz" [] ["false"]]> ∅)
              "/" false.

Lemma calm_world_calm : calm calm_world.
Proof. split; intros; simpl; eauto. Defined.

Lemma names_ok_decide (self : Installer) :
  bool_decide (map_Forall (fun n r => name r = n) (recipes self)) = true -> names_ok self.
Proof. intros H. by apply bool_decide_eq_true in H. Defined.

Lemma closed_repo_decide (self : Installer) :
  bool_decide (map_Forall (fun _ r => name r <> "" /\
                             Forall (fun d => d ∈ dom (recipes self)) (deps r))
                 (recipes self)) = true ->
  closed_repo self.
Proof. intros H. by apply bool_decide_eq_true in H. Defined.

(** The check at a concrete archive: [/etc/passwd] is rejected,
    nothing is extracted. *)
Lemma unpack_rejects_absolute_paths_witness :
  exists m0,
    m0 ∈ [mkTarInfo "."; mkTarInfo "./bin"; mkTarInfo "/etc/passwd"] /\
    startswith (tar_name m0) "/" = true /\
    install_package_files world0 "evil" "/work/packages/evil-1.0.tar.gz" "/tmp/root" fresh =
      (mkState ∅ ∅ []
         [mkEvent "evil" STarOpen None;
          mkEvent "evil" STarCheck
            (Some (RuntimeError ("Entrada inválida no tar: " +:+ tar_name m0)))],
       Raise (RuntimeError ("Entrada inválida no tar: " +:+ tar_name m0))).
Proof.
  apply (unpack_rejects_absolute_paths world0 "evil" "/work/packages/evil-1.0.tar.gz"
           "/tmp/root" fresh
           [mkTarInfo "."; mkTarInfo "./bin"; mkTarInfo "/etc/passwd"]
           (mkTarInfo "/etc/passwd")).
  - reflexivity.
  - apply list_elem_of_In. simpl. tauto.
  - reflexivity.
Defined.

(** The world in which the archive of every package holds [ok.txt]
    and [../escape.txt]. *)
Definition sneaky_world : World (list string) :=
  mkWorld (list string)
    (mkdir world0) (run_cmd world0) (popen world0) (git_download world0)
    (http_download world0) (extract_tar_any world0) (which world0)
    (reset_destdir world0) (strip_binaries_in world0) (package_destdir world0)
    (copy_binaries_to_bindir world0)
    (fun f e => Ok [mkTarInfo "ok.txt"; mkTarInfo "../escape.txt"])
    (tar_extractall world0) (db_save world0) (time_now world0).

(** C1 fails at that archive: it is extracted, and [../escape.txt]
    is returned as a file of the package. *)
Lemma unpack_accepts_escaping_paths_witness :
  install_package_files sneaky_world "sneaky" "/work/packages/sneaky-1.0.tar.gz"
    "/tmp/root" fresh =
    (mkState ∅ ∅ ["extract /work/packages/sneaky-1.0.tar.gz into /tmp/root"]
       [mkEvent "sneaky" STarOpen None; mkEvent "sneaky" SExtractAll None],
     Ok ["../escape.txt"; "ok.txt"]).
Proof.
  apply (unpack_accepts_escaping_paths sneaky_world "sneaky"
           "/work/packages/sneaky-1.0.tar.gz" "/tmp/root" fresh
           [mkTarInfo "ok.txt"; mkTarInfo "../escape.txt"]
           ["extract /work/packages/sneaky-1.0.tar.gz into /tmp/root"]).
  - reflexivity.
  - by repeat constructor.
  - reflexivity.
Defined.

(** C2 as stated fails: with [A] and [B] depending on each other and
    neither installed, [install "A"] returns normally and both end up
    with a record. *)
Lemma cycle_installs_both :
  exists st',
    install dirs0 calm_world cyclic "A" fresh = Some (st', Ok tt) /\
    "A" ∈ dom (db st') /\ "B" ∈ dom (db st').
Proof.
  exists (after calm_world cyclic "A" fresh).
  split; [by vm_compute|].
  split; apply elem_of_dom; vm_compute; eauto.
Qed.

(** Inside the cycle the order of records cannot follow every
    dependency: [B], reached from [A], is built while [A], on which
    it depends, has no record yet. *)
Example cycle_builds_inner_package_first :
  mkEvent "B" (SBuild "make install") None
    ∈ take 5 (trace (after calm_world cyclic "A" fresh)) /\
  mkEvent "A" SRecord None ∉ take 5 (trace (after calm_world cyclic "A" fresh)).
Proof.
  split.
  - apply list_elem_of_In. vm_compute. tauto.
  - intros Hin. apply list_elem_of_In in Hin. vm_compute in Hin.
    repeat (destruct Hin as [Hin|Hin]; [discriminate|]). destruct Hin.
Qed.

(** C2 as the code has it, at the cycle of [A] and [B]. *)
Lemma cycle_is_not_an_error_witness :
  exists st',
    install dirs0 calm_world cyclic "A" fresh = Some (st', Ok tt) /\
    forall n, on_chain dirs0 cyclic fresh "A" n -> n ∈ dom (db st').
Proof.
  apply (cycle_is_not_an_error dirs0 calm_world cyclic "A" fresh).
  - exact calm_world_calm.
  - apply names_ok_decide. by vm_compute.
  - apply closed_repo_decide. by vm_compute.
  - apply elem_of_dom. vm_compute. eauto.
Defined.

(** C3 at a concrete run: the build command of [tool] fails, and
    [tool] has no record afterwards. *)
Lemma failed_pipeline_leaves_no_record_witness :
  "tool" ∉ dom (db (after world0 failing "tool" fresh)).
Proof.
  apply (proj1 (failed_pipeline_leaves_no_record dirs0 world0 failing "tool" fresh
                  (after world0 failing "tool" fresh)
                  (Raise (CalledProcessError 1 "false"))
                  (trace (after world0 failing "tool" fresh))
                  eq_refl eq_refl)
           (names_ok_decide failing eq_refl)
           (CalledProcessError 1 "false")
           (take 4 (trace (after world0 failing "tool" fresh)))
           (mkEvent "tool" (SBuild "false") (Some (CalledProcessError 1 "false")))).
  - reflexivity.
  - by vm_compute.
  - discriminate.
  - discriminate.
Defined.


(** A manifest that has [app] but not its dependency [lib]. *)
Definition only_app : State (list string) :=
  mkState
    {["app" := mkInstallRecord "1.0" ["bin/tool"] "/work/packages/app-1.0.tar.gz"
                 "/work/destdir/app" [] "/" 0%Z "/work/repo/recipes/app.yml"]}
    ∅ [] [].

(** C6 as stated fails: [app] has a record, yet [install "app"] runs
    the pipeline of the missing dependency [lib] and changes the
    manifest. *)
Lemma install_of_recorded_name_builds_dependency :
  "app" ∈ dom (db only_app) /\
  exists st',
    install dirs0 calm_world layered "app" only_app = Some (st', Ok tt) /\
    db st' <> db only_app /\
    mkEvent "lib" (SBuild "make install") None ∈ trace st'.
Proof.
  split; [apply elem_of_dom; vm_compute; eauto|].
  exists (after calm_world layered "app" only_app).
  split; [by vm_compute|]. split.
  - intros Heq.
    assert (H : db (after calm_world layered "app" only_app) !! "lib"
                = db only_app !! "lib") by by rewrite Heq.
    vm_compute in H. discriminate.
  - apply list_elem_of_In. vm_compute. tauto.
Qed.

(** C6 as the code has it, at a concrete run: a second [install "app"]
    right after the first changes nothing. *)
Lemma install_of_recorded_name_witness :
  install dirs0 calm_world layered "app" (after calm_world layered "app" fresh)
  = Some (after calm_world layered "app" fresh, Ok tt).
Proof.
  apply (proj2 (install_of_recorded_name dirs0 calm_world layered "app"
                  (after calm_world layered "app" fresh)) fresh).
  - apply names_ok_decide. by vm_compute.
  - by vm_compute.
Defined.

(** C7 as stated fails: the source of [one] cannot be fetched, which
    is neither a cycle nor a manifest error, and the whole
    [install "top"] is given up with that exception: [two], which does
    not depend on [one], is never started. *)
Lemma fetch_failure_aborts_siblings :
  exists st',
    install dirs0 world0 forked "top" fresh = Some (st', Raise (OSError "404")) /\
    ("two" ∉ dom (db st')) /\
    Forall (fun ev => ev_pkg ev = "one") (trace st').
Proof.
  exists (after world0 forked "top" fresh).
  split; [by vm_compute|]. split.
  - apply not_elem_of_dom. by vm_compute.
  - vm_compute. by repeat constructor.
Qed.

(** C7 as the code has it, at that run. *)
Lemma failure_aborts_whole_install_witness :
  (@nil event) = [] /\
  exists e, ev_exn (mkEvent "one" SFetch (Some (OSError "404"))) = Some e /\
            (@Raise unit (OSError "404")) = Raise e.
Proof.
  apply (failure_aborts_whole_install dirs0 world0 forked "top" fresh
           (after world0 forked "top" fresh) (Raise (OSError "404"))
           [mkEvent "one" SMkdirLogs None]
           (mkEvent "one" SFetch (Some (OSError "404"))) []).
  - by vm_compute.
  - by vm_compute.
  - discriminate.
Defined.

(** *** More concrete runs *)

(** X1 at the archive of [tool]: the members [.], [./bin] and
    [./bin/tool] are recorded as [.], [bin] and [bin/tool]. *)
Lemma install_package_files_result_witness :
  exists members,
    tar_getmembers world0 "/work/packages/tool-1.0.tar.gz" (ext fresh) = Ok members /\
    StronglySorted str_lt ["."; "bin"; "bin/tool"] /\
    NoDup ["."; "bin"; "bin/tool"] /\
    (forall p, p ∈ ["."; "bin"; "bin/tool"] <->
               exists m, m ∈ members /\ p = str_Path (tar_name m)) /\
    Forall (fun p => startswith p "/" = false) ["."; "bin"; "bin/tool"].
Proof.
  apply (install_package_files_result world0 "tool" "/work/packages/tool-1.0.tar.gz"
           "/" fresh
           (fst (install_package_files world0 "tool" "/work/packages/tool-1.0.tar.gz"
                   "/" fresh))
           ["."; "bin"; "bin/tool"]).
  by vm_compute.
Defined.

(** X2 at the run that installs [app] and its dependency [lib]. *)
Lemma install_records_once_witness :
  NoDup (recorded_names (trace (after calm_world layered "app" fresh))) /\
  dom (db (after calm_world layered "app" fresh))
  = dom (db fresh)
    ∪ list_to_set (recorded_names (trace (after calm_world layered "app" fresh))) /\
  (forall n, n ∈ recorded_names (trace (after calm_world layered "app" fresh)) ->
             n ∉ dom (db fresh)).
Proof.
  apply (install_records_once dirs0 calm_world layered "app" fresh
           (after calm_world layered "app" fresh) (Ok tt)
           (trace (after calm_world layered "app" fresh))).
  - apply names_ok_decide. by vm_compute.
  - by vm_compute.
  - reflexivity.
Defined.

(** A repository without recipes. *)
Definition bare : Installer := mkInstaller ∅ "/" false.

(** X3 at a run in which [app] has a record and no recipe: the
    only event of [app] is the failed lookup. *)
Lemma install_never_rebuilds_witness :
  ev_step (mkEvent "app" SResolve
             (Some (FileNotFoundError
                      "Receita 'app' não encontrada em /work/repo/recipes.")))
  = SResolve /\
  exists e,
    ev_exn (mkEvent "app" SResolve
              (Some (FileNotFoundError
                       "Receita 'app' não encontrada em /work/repo/recipes.")))
    = Some e /\
    @Raise unit (FileNotFoundError "Receita 'app' não encontrada em /work/repo/recipes.")
    = Raise e.
Proof.
  apply (install_never_rebuilds dirs0 world0 bare "app" only_app
           (after world0 bare "app" only_app)
           (Raise (FileNotFoundError "Receita 'app' não encontrada em /work/repo/recipes."))
           (trace (after world0 bare "app" only_app))
           (mkEvent "app" SResolve
              (Some (FileNotFoundError
                       "Receita 'app' não encontrada em /work/repo/recipes.")))).
  - apply names_ok_decide. by vm_compute.
  - by vm_compute.
  - reflexivity.
  - apply list_elem_of_In. vm_compute. tauto.
  - apply elem_of_dom. vm_compute. eauto.
Defined.

(** X4 at the run that installs [lib] for the recorded [app]: the
    record of [app] is the one it was. *)
Lemma install_keeps_records_witness :
  db (after calm_world layered "app" only_app) !! "app"
  = Some (mkInstallRecord "1.0" ["bin/tool"] "/work/packages/app-1.0.tar.gz"
            "/work/destdir/app" [] "/" 0%Z "/work/repo/recipes/app.yml").
Proof.
  apply (install_keeps_records dirs0 calm_world layered "app" only_app
           (after calm_world layered "app" only_app) (Ok tt) "app").
  - apply names_ok_decide. by vm_compute.
  - by vm_compute.
  - by vm_compute.
Defined.

(** X5 at the run that installs [app]: its dependency [lib] has a
    record afterwards. *)
Lemma install_returns_with_records_witness :
  "lib" ∈ dom (db (after calm_world layered "app" fresh)).
Proof.
  apply (install_returns_with_records dirs0 calm_world layered "app" fresh
           (after calm_world layered "app" fresh) "lib").
  - apply names_ok_decide. by vm_compute.
  - by vm_compute.
  - apply (chain_dep dirs0 layered fresh "app" "app"
             (recipe0 "app" "http://mirror/app.tar.gz" ["lib"] ["make"; "make install"])
             "lib").
    + apply chain_top.
    + apply not_elem_of_dom. reflexivity.
    + by vm_compute.
    + apply list_elem_of_In. simpl. tauto.
Defined.

(** X21 at the run in which the build command of [tool] exits with
    status 1: so does the program. *)
Lemma exit_status_of_failed_step_witness :
  SysExit 1 = main_guard (Raise (CalledProcessError 1 "false")) /\
  (forall rc cmd, CalledProcessError 1 "false" = CalledProcessError rc cmd ->
                  SysExit 1 = SysExit rc) /\
  (forall msg, CalledProcessError 1 "false" = FileNotFoundError msg ->
               SysExit 1 = SysExit 1).
Proof.
  apply (exit_status_of_failed_step dirs0 world0 failing "tool" fresh
           (after world0 failing "tool" fresh) (SysExit 1)
           (trace (after world0 failing "tool" fresh))
           (mkEvent "tool" (SBuild "false") (Some (CalledProcessError 1 "false")))
           (CalledProcessError 1 "false")).
  - by vm_compute.
  - reflexivity.
  - apply list_elem_of_In. vm_compute. tauto.
  - reflexivity.
Defined.

(** X24 at the pipeline of [lib]. *)
Lemma build_and_install_record_witness :
  exists meta,
    db (fst (_build_and_install dirs0 calm_world layered
               (recipe0 "lib" "http://mirror/lib.tar.gz" [] ["make install"]) fresh))
      !! "lib" = Some meta /\
    meta_version meta = "1.0" /\
    meta_recipe_path meta = "/work/repo/recipes/lib.yml" /\
    meta_destdir meta = path_join (DESTDIR_BASE dirs0) "lib" /\
    meta_installed_root meta = "/" /\
    exists e members,
      tar_getmembers calm_world (meta_package_file meta) e = Ok members /\
      recorded_from members (meta_files meta).
Proof.
  apply (build_and_install_record dirs0 calm_world layered
           (recipe0 "lib" "http://mirror/lib.tar.gz" [] ["make install"]) fresh
           (fst (_build_and_install dirs0 calm_world layered
                   (recipe0 "lib" "http://mirror/lib.tar.gz" [] ["make install"]) fresh))).
  by vm_compute.
Defined.

End V10.

(** ** The remove side of [genpkg1.0.py] *)

Module Removal.

Import V10.

(** [ALLOWED_REMOVE_PREFIXES] *)
Definition ALLOWED_REMOVE_PREFIXES : list string :=
  ["/usr"; "/etc"; "/var"; "/opt"; "/bin"; "/sbin"; "/lib"; "/lib64"; "/usr/local"].

(** What a path of the file system is. *)
Inductive node : Type :=
| File
| Symlink (target : string)
| Dir
| Special.

#[global] Instance node_eq_dec : EqDecision node.
Proof. solve_decision. Defined.

(** [target_root / rel]: an absolute [rel] replaces the root, ["."]
    adds nothing. *)
Definition pathlib_join (root rel : string) : string :=
  if startswith rel "/" then rel
  else if String.eqb rel "." then root
  else path_join root rel.

(** [len(p.split("/"))] *)
Definition depth (p : string) : nat := List.length (split_slash p).

(** [sorted(files, key=lambda p: len(p.split("/")), reverse=True)]:
    deepest first, paths of equal depth in their order in [files]. *)
Fixpoint insert_by_depth (x : string) (l : list string) : list string :=
  match l with
  | [] => [x]
  | y :: l' =>
      if (depth y <=? depth x)%nat then x :: l else y :: insert_by_depth x l'
  end.
Definition deepest_first (files : list string) : list string :=
  foldr insert_by_depth [] files.

(** [k] lies inside the directory [d]. *)
Definition inside (d k : string) : bool :=
  startswith k (if String.eqb d "/" then "/" else d +:+ "/") && negb (String.eqb k d).

Section Remove.

(** The file system is the finite map from every existing path,
    resolved, to its kind. The collaborators of [remove]: [Path.resolve()], which reads
    the file system and may raise; the entries the operating system
    refuses to delete; [subprocess.run] for the hooks;
    [shutil.rmtree(..., ignore_errors=True)]; and [db.save()]. *)
Variable resolve : gmap string node -> string -> res string.
Variable denied : gmap string node -> string -> bool.
Variable run_cmd : string -> string -> gmap string node -> gmap string node * res Z.
Variable rmtree : string -> gmap string node -> gmap string node.
Variable db_save : gmap string InstallRecord -> gmap string node -> gmap string node * res unit.

Variable dirs : Dirs.
Variable self : Installer.

(** [os.stat], following at most 40 symbolic links as Linux does. *)
Fixpoint stat (hops : nat) (fs : gmap string node) (p : string) : option node :=
  match fs !! p with
  | Some (Symlink t) =>
      match hops with
      | O => None
      | S hops' => stat hops' fs t
      end
  | o => o
  end.

Definition is_symlink (fs : gmap string node) (p : string) : bool :=
  match fs !! p with
  | Some (Symlink _) => true
  | _ => false
  end.

Definition is_file (fs : gmap string node) (p : string) : bool :=
  match stat 40 fs p with
  | Some File => true
  | _ => false
  end.

Definition is_dir (fs : gmap string node) (p : string) : bool :=
  match stat 40 fs p with
  | Some Dir => true
  | _ => false
  end.

Definition dir_empty (fs : gmap string node) (d : string) : bool :=
  bool_decide (map_Forall (fun k _ => inside d k = false) fs).

(** [p.unlink(missing_ok=True)] *)
Definition unlink (fs : gmap string node) (p : string) : gmap string node * res unit :=
  match fs !! p with
  | None => (fs, Ok tt)
  | Some Dir => (fs, Raise (OSError "EISDIR"))
  | Some _ =>
      if denied fs p then (fs, Raise (OSError "EACCES")) else (delete p fs, Ok tt)
  end.

(** [p.rmdir()]: only an empty directory goes. *)
Definition rmdir (fs : gmap string node) (p : string) : gmap string node * res unit :=
  match fs !! p with
  | None => (fs, Raise (FileNotFoundError p))
  | Some Dir =>
      if denied fs p then (fs, Raise (OSError "EACCES"))
      else if dir_empty fs p then (delete p fs, Ok tt)
      else (fs, Raise (OSError "ENOTEMPTY"))
  | Some _ => (fs, Raise (OSError "ENOTDIR"))
  end.

(** The [try] block of the loop over the recorded files; the
    boolean tells whether [removed] is incremented. *)
Definition remove_entry_try (target_root abs_path : string) (fs : gmap string node) : gmap string node * res bool :=
  match resolve fs target_root with
  | Raise e => (fs, Raise e)
  | Ok root =>
      if String.eqb root "/"
         && negb (existsb (fun pref => startswith abs_path pref) ALLOWED_REMOVE_PREFIXES)
      then (fs, Ok false)
      else if is_symlink fs abs_path || is_file fs abs_path then
        match unlink fs abs_path with
        | (fs', Ok _) => (fs', Ok true)
        | (fs', Raise e) => (fs', Raise e)
        end
      else if is_dir fs abs_path then
        match rmdir fs abs_path with
        | (fs', Raise e) => if is_OSError e then (fs', Ok false) else (fs', Raise e)
        | (fs', Ok _) => (fs', Ok false)
        end
      else (fs, Ok false)
  end.

(** One turn of the loop: [abs_path] is computed outside the [try];
    [except Exception: pass] around the rest. *)
Definition remove_entry (target_root rel : string) (fs : gmap string node) : gmap string node * res bool :=
  match resolve fs (pathlib_join target_root rel) with
  | Raise e => (fs, Raise e)
  | Ok abs_path =>
      match remove_entry_try target_root abs_path fs with
      | (fs', Raise e) => if is_Exception e then (fs', Ok false) else (fs', Raise e)
      | done => done
      end
  end.

(** [for rel in ...: ...] with the counter [removed]. *)
Fixpoint remove_entries (target_root : string) (rels : list string) (removed : nat)
    (fs : gmap string node) : gmap string node * res nat :=
  match rels with
  | [] => (fs, Ok removed)
  | rel :: rels' =>
      match remove_entry target_root rel fs with
      | (fs', Ok b) =>
          remove_entries target_root rels' (if b then S removed else removed) fs'
      | (fs', Raise e) => (fs', Raise e)
      end
  end.

(** The whole loop over [meta["files"]]. *)
Definition remove_files (target_root : string) (files : list string) (fs : gmap string node)
    : gmap string node * res nat :=
  remove_entries target_root (deepest_first files) 0 fs.

(** [run_hooks(hooks, stage, workdir=BASE_DIR)] of [remove]. *)
Fixpoint run_hooks (hooks : list string) (workdir : string) (fs : gmap string node) : gmap string node * res unit :=
  match hooks with
  | [] => (fs, Ok tt)
  | cmd :: hooks' =>
      match run_cmd cmd workdir fs with
      | (fs', Ok rc) =>
          if (rc =? 0)%Z then run_hooks hooks' workdir fs'
          else (fs', Raise (CalledProcessError rc cmd))
      | (fs', Raise e) => (fs', Raise e)
      end
  end.

(** [for b in meta["bin_files"]: try: Path(b).unlink(missing_ok=True)
    except Exception: pass] *)
Fixpoint unlink_all (bs : list string) (fs : gmap string node) : gmap string node :=
  match bs with
  | [] => fs
  | b :: bs' => unlink_all bs' (fst (unlink fs b))
  end.

(** [Installer.remove(name)] on the manifest and the file system. *)
Definition remove (nm : string) (db : gmap string InstallRecord) (fs : gmap string node)
    : gmap string InstallRecord * gmap string node * res unit :=
  match db !! nm with
  | None => (db, fs, Ok tt)
  | Some meta =>
      let r := match find dirs self nm with Ok r => Some r | Raise _ => None end in
      match run_hooks (from_option pre_remove [] r) (BASE_DIR dirs) fs with
      | (fs1, Raise e) => (db, fs1, Raise e)
      | (fs1, Ok _) =>
          match remove_files (meta_installed_root meta) (meta_files meta) fs1 with
          | (fs2, Raise e) => (db, fs2, Raise e)
          | (fs2, Ok _) =>
              let fs3 := unlink_all (meta_bin_files meta) fs2 in
              match run_hooks (from_option post_remove [] r) (BASE_DIR dirs) fs3 with
              | (fs4, Raise e) => (db, fs4, Raise e)
              | (fs4, Ok _) =>
                  let fs5 := rmtree (meta_destdir meta) fs4 in
                  let db' := delete nm db in
                  let '(fs6, o) := db_save db' fs5 in
                  (db', fs6, o)
              end
          end
      end
  end.

(** *** What the loop over the recorded files can do *)

Lemma dir_empty_spec fs d :
  dir_empty fs d = true -> forall k, inside d k = true -> fs !! k = None.
Proof.
  intros H k Hk. apply bool_decide_eq_true in H.
  destruct (fs !! k) as [n|] eqn:E; [|done].
  specialize (H k n E). simpl in H. congruence.
Qed.

Lemma unlinkable_kind fs p :
  is_symlink fs p || is_file fs p = true ->
  fs !! p = None \/ fs !! p = Some File \/ exists t, fs !! p = Some (Symlink t).
Proof.
  unfold is_symlink, is_file.
  change (stat 40 fs p) with
    (match fs !! p with
     | Some (Symlink t) => stat 39 fs t
     | o => o
     end).
  destruct (fs !! p) as [[| t | |]|]; simpl; try done; eauto.
Qed.

(** One deletion at most, of a file, a link, or an empty directory;
    under the real root only of a path with an allowed prefix. *)
Definition one_step (target_root : string) (fs fs' : gmap string node) : Prop :=
  fs' = fs \/
  exists p,
    fs' = delete p fs /\
    (resolve fs target_root = Ok "/" ->
     existsb (fun pref => startswith p pref) ALLOWED_REMOVE_PREFIXES = true) /\
    (fs !! p = Some File \/ (exists t, fs !! p = Some (Symlink t)) \/
     (fs !! p = Some Dir /\ dir_empty fs p = true)).

Lemma remove_entry_try_step target_root abs_path fs fs' o :
  remove_entry_try target_root abs_path fs = (fs', o) -> one_step target_root fs fs'.
Proof.
  unfold remove_entry_try.
  destruct (resolve fs target_root) as [root|e] eqn:Hroot; [|intros [= <- _]; by left].
  destruct (String.eqb root "/"
            && negb (existsb (fun pref => startswith abs_path pref)
                       ALLOWED_REMOVE_PREFIXES)) eqn:Hskip;
    [intros [= <- _]; by left|].
  assert (Hguard : Ok root = Ok "/" ->
            existsb (fun pref => startswith abs_path pref) ALLOWED_REMOVE_PREFIXES = true).
  { intros [= ->]. apply andb_false_iff in Hskip as [Hbad|Hneg]; [done|].
    by apply negb_false_iff in Hneg. }
  clear Hskip.
  destruct (is_symlink fs abs_path || is_file fs abs_path) eqn:Hk.
  - apply unlinkable_kind in Hk. unfold unlink.
    destruct Hk as [Hk|[Hk|[t Hk]]]; rewrite Hk; [intros [= <- _]; by left| |];
      (destruct (denied fs abs_path); intros [= <- _]; [by left|]);
      right; exists abs_path; (split; [done|]); (split; [by rewrite Hroot|]); eauto.
  - destruct (is_dir fs abs_path); [|intros [= <- _]; by left].
    unfold rmdir. destruct (fs !! abs_path) as [[| t | |]|] eqn:E;
      try (intros [= <- _]; by left).
    destruct (denied fs abs_path); [intros [= <- _]; by left|].
    destruct (dir_empty fs abs_path) eqn:Hempty; intros [= <- _]; [|by left].
    right. exists abs_path. split; [done|]. split; [by rewrite Hroot|]. eauto.
Qed.

Lemma remove_entry_step target_root rel fs fs' o :
  remove_entry target_root rel fs = (fs', o) -> one_step target_root fs fs'.
Proof.
  unfold remove_entry.
  destruct (resolve fs (pathlib_join target_root rel)) as [abs_path|e];
    [|intros [= <- _]; by left].
  destruct (remove_entry_try target_root abs_path fs) as [fs1 [b|e]] eqn:E.
  - intros [= <- _]. by eapply remove_entry_try_step.
  - destruct (is_Exception e); intros [= <- _]; by eapply remove_entry_try_step.
Qed.

(** What any number of turns of the loop has done to the file
    system: it only deleted; what it deleted was a file, a link or a
    directory; a directory it deleted has nothing left inside; and
    under the real root every path it deleted has an allowed prefix. *)
Record removal (target_root : string) (fs fs' : gmap string node) : Prop := {
  rm_only_deletes : forall p n, fs' !! p = Some n -> fs !! p = Some n;
  rm_kinds :
    forall p n, fs !! p = Some n -> fs' !! p = None ->
      n = File \/ (exists t, n = Symlink t) \/ n = Dir;
  rm_empty_dirs :
    forall d, fs !! d = Some Dir -> fs' !! d = None ->
      forall k, inside d k = true -> fs' !! k = None;
  rm_guard :
    (forall fs0, resolve fs0 target_root = Ok "/") ->
    forall p, fs' !! p <> fs !! p ->
      existsb (fun pref => startswith p pref) ALLOWED_REMOVE_PREFIXES = true
}.

Lemma removal_refl target_root fs : removal target_root fs fs.
Proof.
  split; [done | congruence | congruence | intros _ p Hp; by destruct Hp].
Qed.

Lemma removal_step target_root fs fs1 fs2 :
  removal target_root fs fs1 -> one_step target_root fs1 fs2 ->
  removal target_root fs fs2.
Proof.
  intros R [->|(p & -> & Hguard & Hkind)]; [done|]. destruct R. split.
  - intros q n Hq. apply rm_only_deletes0.
    destruct (decide (p = q)) as [->|Hne]; [by rewrite lookup_delete_eq in Hq|].
    by rewrite lookup_delete_ne in Hq.
  - intros q n Hq Hgone. destruct (fs1 !! q) as [n1|] eqn:E1; [|by eapply rm_kinds0].
    assert (n1 = n) as -> by (apply rm_only_deletes0 in E1; congruence).
    destruct (decide (p = q)) as [->|Hne]; [|by rewrite lookup_delete_ne, E1 in Hgone].
    destruct Hkind as [Hk|[[t Hk]|[Hk _]]]; rewrite E1 in Hk; injection Hk as ->; eauto.
  - intros d Hd Hgone k Hk.
    destruct (fs1 !! d) as [n1|] eqn:E1.
    + assert (n1 = Dir) as -> by (apply rm_only_deletes0 in E1; congruence).
      destruct (decide (p = d)) as [->|Hne]; [|by rewrite lookup_delete_ne, E1 in Hgone].
      destruct Hkind as [Hk'|[[t Hk']|[_ Hempty]]]; [congruence|congruence|].
      destruct (decide (d = k)) as [->|Hne]; [by rewrite lookup_delete_eq|].
      rewrite lookup_delete_ne by done. by eapply dir_empty_spec.
    + destruct (decide (p = k)) as [->|Hne]; [by rewrite lookup_delete_eq|].
      rewrite lookup_delete_ne by done. by eapply rm_empty_dirs0.
  - intros Hroot q Hq. destruct (decide (p = q)) as [->|Hne]; [by apply Hguard|].
    rewrite lookup_delete_ne in Hq by done. by apply rm_guard0.
Qed.

Lemma remove_entries_removal target_root rels :
  forall removed fs0 fs fs' o,
    removal target_root fs0 fs ->
    remove_entries target_root rels removed fs = (fs', o) ->
    removal target_root fs0 fs'.
Proof.
  induction rels as [|rel rels IH]; intros removed fs0 fs fs' o R; simpl.
  - by intros [= <- _].
  - destruct (remove_entry target_root rel fs) as [fs1 [b|e]] eqn:E.
    + apply IH. eapply removal_step; [done | by eapply remove_entry_step].
    + intros [= <- _]. eapply removal_step; [done | by eapply remove_entry_step].
Qed.

Lemma remove_files_removal target_root files fs fs' o :
  remove_files target_root files fs = (fs', o) -> removal target_root fs fs'.
Proof. apply remove_entries_removal, removal_refl. Qed.

(** *** Properties of the remove side *)

(** What the guard of the loop does ensure: when the install root
    resolves to the real system root, the loop of [remove] over the
    recorded files deletes only paths whose text starts with one of
    [ALLOWED_REMOVE_PREFIXES]; every other path, listed in the
    manifest or not, is as it was after the loop. *)
Theorem remove_guarded_under_real_root target_root files fs fs' o :
  (forall fs0, resolve fs0 target_root = Ok "/") ->
  remove_files target_root files fs = (fs', o) ->
  (forall p, fs !! p <> None -> fs' !! p = None ->
     exists pref, pref ∈ ALLOWED_REMOVE_PREFIXES /\ startswith p pref = true) /\
  (forall p, (forall pref, pref ∈ ALLOWED_REMOVE_PREFIXES -> startswith p pref = false) ->
     fs' !! p = fs !! p).
Proof.
  intros Hroot Hrun. destruct (remove_files_removal _ _ _ _ _ Hrun) as [_ _ _ Hguard].
  specialize (Hguard Hroot).
  assert (Hallowed : forall p, fs' !! p <> fs !! p ->
            exists pref, pref ∈ ALLOWED_REMOVE_PREFIXES /\ startswith p pref = true).
  { intros p Hp. apply Hguard, existsb_exists in Hp as (pref & Hin & Hpre).
    exists pref. split; [by apply list_elem_of_In | done]. }
  split.
  - intros p Hthere Hgone. apply Hallowed. congruence.
  - intros p Hout. destruct (decide (fs' !! p = fs !! p)) as [|Hne]; [done|].
    destruct (Hallowed p Hne) as (pref & Hin & Hpre). rewrite (Hout pref Hin) in Hpre.
    discriminate.
Qed.

(** *** The loop, turn by turn *)

Lemma remove_entry_try_target target_root abs_path fs fs' o :
  remove_entry_try target_root abs_path fs = (fs', o) ->
  fs' = fs \/ fs' = delete abs_path fs.
Proof.
  unfold remove_entry_try.
  destruct (resolve fs target_root) as [root|e]; [|intros [= <- _]; by left].
  destruct (String.eqb root "/"
            && negb (existsb (fun pref => startswith abs_path pref)
                       ALLOWED_REMOVE_PREFIXES));
    [intros [= <- _]; by left|].
  destruct (is_symlink fs abs_path || is_file fs abs_path).
  - unfold unlink. destruct (fs !! abs_path) as [[| t | |]|];
      try (intros [= <- _]; by left);
      (destruct (denied fs abs_path); intros [= <- _]; [by left | by right]).
  - destruct (is_dir fs abs_path); [|intros [= <- _]; by left].
    unfold rmdir. destruct (fs !! abs_path) as [[| t | |]|];
      try (intros [= <- _]; by left).
    destruct (denied fs abs_path); [intros [= <- _]; by left|].
    destruct (dir_empty fs abs_path); intros [= <- _]; [by right | by left].
Qed.

Lemma remove_entry_target target_root rel fs fs' o :
  remove_entry target_root rel fs = (fs', o) ->
  fs' = fs \/
  exists p, resolve fs (pathlib_join target_root rel) = Ok p /\ fs' = delete p fs.
Proof.
  unfold remove_entry.
  destruct (resolve fs (pathlib_join target_root rel)) as [abs_path|e];
    [|intros [= <- _]; by left].
  destruct (remove_entry_try target_root abs_path fs) as [fs1 [b|e]] eqn:E.
  - intros [= <- _]. destruct (remove_entry_try_target _ _ _ _ _ E) as [->| ->];
      [by left | right; by exists abs_path].
  - destruct (is_Exception e); intros [= <- _];
      (destruct (remove_entry_try_target _ _ _ _ _ E) as [->| ->];
       [by left | right; by exists abs_path]).
Qed.

(** One turn of the loop, for the entry [rel]: nothing changes, or
    exactly one path goes, the one the entry resolves to, which is
    at that moment a regular file, a symbolic link, or a directory
    with nothing inside. *)
Definition turn (target_root rel : string) (fs fs' : gmap string node) : Prop :=
  fs' = fs \/
  exists p,
    resolve fs (pathlib_join target_root rel) = Ok p /\ fs' = delete p fs /\
    (fs !! p = Some File \/ (exists t, fs !! p = Some (Symlink t)) \/
     (fs !! p = Some Dir /\ dir_empty fs p = true)).

(** The turns of the loop over [rels], one after the other; an
    exception leaves the loop after the turn it was raised in. *)
Inductive turns (target_root : string)
    : list string -> gmap string node -> gmap string node -> Prop :=
| turns_stop rels fs : turns target_root rels fs fs
| turns_next rel rels fs fs1 fs2 :
    turn target_root rel fs fs1 -> turns target_root rels fs1 fs2 ->
    turns target_root (rel :: rels) fs fs2.

Lemma remove_entry_turn target_root rel fs fs' o :
  remove_entry target_root rel fs = (fs', o) -> turn target_root rel fs fs'.
Proof.
  intros Hrun.
  destruct (remove_entry_target _ _ _ _ _ Hrun) as [->|(p & Hp & ->)]; [by left|].
  destruct (remove_entry_step _ _ _ _ _ Hrun) as [Heq|(q & Hq & _ & Hkind)];
    [by left|].
  assert (Hthere : fs !! q <> None).
  { destruct Hkind as [Hk|[[t Hk]|[Hk _]]]; by rewrite Hk. }
  assert (p = q) as ->.
  { destruct (decide (p = q)) as [|Hne]; [done|]. exfalso. apply Hthere.
    rewrite <- (lookup_delete_ne fs p q) by done. rewrite Hq.
    apply lookup_delete_eq. }
  right. by exists q.
Qed.

Lemma remove_entries_turns target_root rels :
  forall removed fs fs' o,
    remove_entries target_root rels removed fs = (fs', o) ->
    turns target_root rels fs fs'.
Proof.
  induction rels as [|rel rels IH]; intros removed fs fs' o; simpl.
  - intros [= <- _]. constructor.
  - destruct (remove_entry target_root rel fs) as [fs1 [b|e]] eqn:E.
    + intros Hrun. eapply turns_next; [by eapply remove_entry_turn | by eapply IH].
    + intros [= <- _]. eapply turns_next; [by eapply remove_entry_turn | constructor].
Qed.

(** C10. Whatever the recorded file list, the loop of [remove] over
    it goes through the recorded paths, deepest first, one turn
    each, and a turn deletes one path at most: the path the entry
    resolves to, and only when it is at that moment a regular file,
    a symbolic link, or a directory with nothing inside; a directory
    that still has entries stays, with its entries. So the loop only
    deletes; what is gone afterwards was a regular file, a symbolic
    link or a directory, never anything else; and nothing is left
    inside a directory that is gone. *)
Theorem remove_deletes_files_links_empty_dirs target_root files fs fs' o :
  remove_files target_root files fs = (fs', o) ->
  turns target_root (deepest_first files) fs fs' /\
  (forall p n, fs !! p = Some n -> fs' !! p = None ->
     n = File \/ (exists t, n = Symlink t) \/ n = Dir) /\
  (forall d, fs !! d = Some Dir -> fs' !! d = None ->
     forall k, inside d k = true -> fs' !! k = None) /\
  (forall p n, fs' !! p = Some n -> fs !! p = Some n).
Proof.
  intros Hrun. split; [by eapply remove_entries_turns|].
  by destruct (remove_files_removal _ _ _ _ _ Hrun).
Qed.

(** The same, turn by turn: a turn of the loop that makes a
    directory disappear found it empty. *)
Lemma remove_entry_rmdir_empty target_root rel fs fs' o d :
  remove_entry target_root rel fs = (fs', o) ->
  fs !! d = Some Dir -> fs' !! d = None -> dir_empty fs d = true.
Proof.
  intros Hrun Hd Hgone.
  destruct (remove_entry_step _ _ _ _ _ Hrun) as [->|(p & -> & _ & Hkind)]; [congruence|].
  destruct (decide (p = d)) as [->|Hne]; [|rewrite lookup_delete_ne in Hgone; congruence].
  destruct Hkind as [?|[[t ?]|[_ ?]]]; congruence.
Qed.

Lemma unlink_all_other bs fs p : p ∉ bs -> unlink_all bs fs !! p = fs !! p.
Proof.
  revert fs. induction bs as [|b bs IH]; intros fs Hp; simpl; [done|].
  rewrite IH by set_solver. unfold unlink.
  destruct (fs !! b) as [[| t | |]|]; simpl; try done;
    (destruct (denied fs b); simpl; [done|]); apply lookup_delete_ne; set_solver.
Qed.

(** X13. The loop inside the whole of [remove]: under the real
    root, a path without an allowed prefix is as it was after
    [remove], when the recipe has no removal hooks, the path is not
    one of the recorded convenience binaries, and neither the
    removal of the staging directory nor the saving of the manifest
    touches it. *)
Theorem remove_spares_other_prefixes nm db fs db' fs' o meta p :
  db !! nm = Some meta ->
  (forall r, find dirs self nm = Ok r -> pre_remove r = [] /\ post_remove r = []) ->
  (forall fs0, resolve fs0 (meta_installed_root meta) = Ok "/") ->
  (forall pref, pref ∈ ALLOWED_REMOVE_PREFIXES -> startswith p pref = false) ->
  p ∉ meta_bin_files meta ->
  (forall fs0, rmtree (meta_destdir meta) fs0 !! p = fs0 !! p) ->
  (forall d fs0, fst (db_save d fs0) !! p = fs0 !! p) ->
  remove nm db fs = (db', fs', o) ->
  fs' !! p = fs !! p.
Proof.
  intros Hmeta Hhooks Hroot Hout Hbin Htree Hsave. unfold remove. rewrite Hmeta.
  assert (Hpre : from_option pre_remove []
                   match find dirs self nm with Ok r => Some r | Raise _ => None end = []).
  { destruct (find dirs self nm) as [r|e] eqn:E; [|done]. by destruct (Hhooks r). }
  assert (Hpost : from_option post_remove []
                    match find dirs self nm with Ok r => Some r | Raise _ => None end = []).
  { destruct (find dirs self nm) as [r|e] eqn:E; [|done]. by destruct (Hhooks r). }
  rewrite Hpre, Hpost. simpl.
  destruct (remove_files (meta_installed_root meta) (meta_files meta) fs) as [fs2 o2] eqn:E2.
  assert (Hkeep : fs2 !! p = fs !! p).
  { destruct (remove_files_removal _ _ _ _ _ E2) as [_ _ _ Hguard].
    destruct (decide (fs2 !! p = fs !! p)) as [|Hne]; [done|].
    apply (Hguard Hroot), existsb_exists in Hne as (pref & Hin & Hpf).
    apply list_elem_of_In in Hin. rewrite (Hout pref Hin) in Hpf. discriminate. }
  destruct o2 as [n|e]; [|by intros [= _ <- _]].
  destruct (db_save (delete nm db) _) as [fs6 o6] eqn:E6. intros [= _ <- _].
  specialize (Hsave (delete nm db)
                (rmtree (meta_destdir meta) (unlink_all (meta_bin_files meta) fs2))).
  rewrite E6 in Hsave. simpl in Hsave.
  by rewrite Hsave, Htree, unlink_all_other.
Qed.


(** *** The order of the loop *)

Definition deeper_first (a b : string) : Prop := (depth b ≤ depth a)%nat.

Lemma insert_by_depth_perm x l : insert_by_depth x l ≡ₚ x :: l.
Proof.
  induction l as [|y l IH]; simpl; [done|].
  destruct (depth y <=? depth x)%nat; [done|].
  rewrite IH. apply Permutation_swap.
Qed.

Lemma deepest_first_perm files : deepest_first files ≡ₚ files.
Proof.
  unfold deepest_first. induction files as [|x files IH]; simpl; [done|].
  by rewrite insert_by_depth_perm, IH.
Qed.

Lemma insert_by_depth_sorted x l :
  StronglySorted deeper_first l -> StronglySorted deeper_first (insert_by_depth x l).
Proof.
  induction 1 as [|y l Hs IH Hy]; simpl; [by repeat constructor|].
  destruct (depth y <=? depth x)%nat eqn:E.
  - apply Nat.leb_le in E. constructor; [by constructor|].
    constructor; [done|]. eapply Forall_impl; [exact Hy|].
    unfold deeper_first. intros b Hb. lia.
  - apply Nat.leb_gt in E. constructor; [done|].
    rewrite insert_by_depth_perm. constructor; [|done].
    unfold deeper_first. lia.
Qed.

Lemma insert_by_depth_stable x l k :
  filter (fun p => depth p = k) (insert_by_depth x l)
  = filter (fun p => depth p = k) (x :: l).
Proof.
  induction l as [|y l IH]; simpl; [done|].
  destruct (depth y <=? depth x)%nat eqn:E; [done|].
  apply Nat.leb_gt in E. rewrite (filter_cons _ y), IH, !filter_cons.
  destruct (decide (depth y = k)), (decide (depth x = k)); try done. lia.
Qed.

(** X10. The loop of [remove] visits the recorded paths deepest
    first: [deepest_first] rearranges the list without losing or
    adding a path, no path comes before a path with more
    components, and paths with the same number of components keep
    the order they have in the manifest. *)
Theorem deepest_first_spec files :
  deepest_first files ≡ₚ files /\
  StronglySorted deeper_first (deepest_first files) /\
  forall k, filter (fun p => depth p = k) (deepest_first files)
            = filter (fun p => depth p = k) files.
Proof.
  split; [apply deepest_first_perm|].
  unfold deepest_first. induction files as [|x files (IH2 & IH3)]; simpl.
  - split; [constructor | done].
  - split; [by apply insert_by_depth_sorted|].
    intros k. by rewrite insert_by_depth_stable, !filter_cons, IH3.
Qed.

(** *** What [remove] does to the manifest *)

Lemma remove_returns_without nm db fs db' fs' :
  remove nm db fs = (db', fs', Ok tt) -> db' = delete nm db.
Proof.
  unfold remove. destruct (db !! nm) as [meta|] eqn:Hmeta.
  2:{ intros [= <- _]. symmetry. by apply delete_id. }
  destruct (run_hooks _ (BASE_DIR dirs) fs) as [fs1 [[]|e1]]; [|done].
  destruct (remove_files _ _ fs1) as [fs2 [n|e2]]; [|done].
  destruct (run_hooks _ (BASE_DIR dirs) _) as [fs4 [[]|e4]]; [|done].
  destruct (db_save _ _) as [fs6 o6]. by intros [= <- _].
Qed.

(** X11. [remove] touches the manifest last and touches one record
    only: the manifest it leaves is the one it found, or that one
    without the record of the package; it is without the record
    whenever [remove] returns normally; and for a package without a
    record [remove] changes nothing, on disk either. *)
Theorem remove_touches_one_record nm db fs db' fs' o :
  remove nm db fs = (db', fs', o) ->
  (db' = db \/ db' = delete nm db) /\
  (o = Ok tt -> db' = delete nm db) /\
  (db !! nm = None -> db' = db /\ fs' = fs /\ o = Ok tt).
Proof.
  unfold remove. destruct (db !! nm) as [meta|] eqn:Hmeta.
  2:{ intros [= <- <- <-]. split; [by left|]. split; [|done].
      intros _. symmetry. by apply delete_id. }
  destruct (run_hooks _ (BASE_DIR dirs) fs) as [fs1 [[]|e1]];
    [|intros [= <- <- <-]; by repeat split; try left].
  destruct (remove_files _ _ fs1) as [fs2 [n|e2]];
    [|intros [= <- <- <-]; by repeat split; try left].
  destruct (run_hooks _ (BASE_DIR dirs) _) as [fs4 [[]|e4]];
    [|intros [= <- <- <-]; by repeat split; try left].
  destruct (db_save _ _) as [fs6 o6]. intros [= <- <- <-].
  split; [by right|]. by split.
Qed.

(** *** What the loop does delete *)

Section Returning.

(** [Path.resolve()] raises nothing and no deletion is refused. *)
Hypothesis resolve_returns : forall fs q, exists q', resolve fs q = Ok q'.
Hypothesis denied_never : forall fs p, denied fs p = false.

Lemma remove_entry_try_Exception target_root abs_path fs fs' e :
  remove_entry_try target_root abs_path fs = (fs', Raise e) -> is_Exception e = true.
Proof.
  unfold remove_entry_try.
  destruct (resolve_returns fs target_root) as [root ->].
  destruct (String.eqb root "/"
            && negb (existsb (fun pref => startswith abs_path pref)
                       ALLOWED_REMOVE_PREFIXES)); [done|].
  destruct (is_symlink fs abs_path || is_file fs abs_path).
  - unfold unlink. destruct (fs !! abs_path) as [[| t | |]|]; try done;
      rewrite ?denied_never; try done; by intros [= _ <-].
  - destruct (is_dir fs abs_path); [|done].
    unfold rmdir. destruct (fs !! abs_path) as [[| t | |]|]; try done.
    rewrite denied_never. by destruct (dir_empty fs abs_path).
Qed.

Lemma remove_entry_returns target_root rel fs :
  exists fs' b, remove_entry target_root rel fs = (fs', Ok b).
Proof.
  unfold remove_entry.
  destruct (resolve_returns fs (pathlib_join target_root rel)) as [abs_path ->].
  destruct (remove_entry_try target_root abs_path fs) as [fs1 [b|e]] eqn:E; [by eauto|].
  rewrite (remove_entry_try_Exception _ _ _ _ _ E). by eauto.
Qed.

Lemma remove_entries_returns target_root rels :
  forall removed fs, exists fs' n,
    remove_entries target_root rels removed fs = (fs', Ok n).
Proof.
  induction rels as [|rel rels IH]; intros removed fs; simpl; [by eauto|].
  destruct (remove_entry_returns target_root rel fs) as (fs1 & b & ->). apply IH.
Qed.

Lemma remove_entry_deletes target_root root rel p fs :
  resolve fs (pathlib_join target_root rel) = Ok p ->
  resolve fs target_root = Ok root ->
  (root = "/" ->
   existsb (fun pref => startswith p pref) ALLOWED_REMOVE_PREFIXES = true) ->
  fs !! p = Some File ->
  remove_entry target_root rel fs = (delete p fs, Ok true).
Proof.
  intros Hp Hroot Hguard Hfile. unfold remove_entry, remove_entry_try.
  rewrite Hp, Hroot.
  assert (String.eqb root "/"
          && negb (existsb (fun pref => startswith p pref)
                     ALLOWED_REMOVE_PREFIXES) = false) as ->.
  { destruct (String.eqb root "/") eqn:E; [|done].
    apply String.eqb_eq in E. by rewrite (Hguard E). }
  assert (is_symlink fs p || is_file fs p = true) as ->.
  { unfold is_symlink, is_file.
    change (stat 40 fs p) with
      (match fs !! p with
       | Some (Symlink t) => stat 39 fs t
       | o => o
       end).
    by rewrite Hfile. }
  unfold unlink. by rewrite Hfile, denied_never.
Qed.

Lemma remove_entries_gone target_root rels p :
  forall removed fs fs' o,
    fs !! p = None -> remove_entries target_root rels removed fs = (fs', o) ->
    fs' !! p = None.
Proof.
  intros removed fs fs' o Hp Hrun.
  destruct (remove_entries_removal target_root rels removed fs fs fs' o
              (removal_refl _ _) Hrun) as [Honly _ _ _].
  destruct (fs' !! p) as [n|] eqn:E; [|done]. apply Honly in E. congruence.
Qed.

Lemma remove_entries_deletes target_root root rel p rels :
  (forall fs, resolve fs (pathlib_join target_root rel) = Ok p) ->
  (forall fs, resolve fs target_root = Ok root) ->
  (root = "/" ->
   existsb (fun pref => startswith p pref) ALLOWED_REMOVE_PREFIXES = true) ->
  rel ∈ rels ->
  forall removed fs,
    fs !! p = None \/ fs !! p = Some File ->
    exists fs' n,
      remove_entries target_root rels removed fs = (fs', Ok n) /\ fs' !! p = None.
Proof.
  intros Hp Hroot Hguard. induction rels as [|x rels IH]; intros Hin removed fs Hkind.
  { by apply elem_of_nil in Hin. }
  destruct Hkind as [Hnone|Hfile].
  { destruct (remove_entries_returns target_root (x :: rels) removed fs)
      as (fs' & n & E).
    exists fs', n. split; [done|]. by eapply remove_entries_gone. }
  apply elem_of_cons in Hin as [<-|Hin].
  - simpl. rewrite (remove_entry_deletes _ _ _ _ _ (Hp fs) (Hroot fs) Hguard Hfile).
    destruct (remove_entries_returns target_root rels (S removed) (delete p fs))
      as (fs' & n & E).
    exists fs', n. split; [done|].
    eapply remove_entries_gone; [|exact E]. apply lookup_delete_eq.
  - simpl. destruct (remove_entry_returns target_root x fs) as (fs1 & b & E1).
    rewrite E1. apply (IH Hin).
    destruct (remove_entry_step _ _ _ _ _ E1) as [->|(q & -> & _)]; [by right|].
    destruct (decide (q = p)) as [->|Hne].
    + left. apply lookup_delete_eq.
    + right. by rewrite lookup_delete_ne.
Qed.

End Returning.

(** X12. When [Path.resolve()] raises nothing and no deletion is
    refused, the loop of [remove] over the recorded files returns
    normally, and when a recorded path resolves to a regular file,
    that file is gone afterwards, provided the guard of the real
    root lets it through. For a recorded symbolic link to a file,
    the file that goes is the one the link leads to. *)
Theorem remove_files_deletes_listed target_root root files fs rel p :
  (forall fs0 q, exists q', resolve fs0 q = Ok q') ->
  (forall fs0 q, denied fs0 q = false) ->
  rel ∈ files ->
  (forall fs0, resolve fs0 (pathlib_join target_root rel) = Ok p) ->
  (forall fs0, resolve fs0 target_root = Ok root) ->
  (root = "/" ->
   existsb (fun pref => startswith p pref) ALLOWED_REMOVE_PREFIXES = true) ->
  fs !! p = Some File ->
  exists fs' n,
    remove_files target_root files fs = (fs', Ok n) /\ fs' !! p = None.
Proof.
  intros Hres Hden Hin Hp Hroot Hguard Hfile. unfold remove_files.
  apply (remove_entries_deletes Hres Hden _ root rel); [done|done|done| |by right].
  by rewrite deepest_first_perm.
Qed.

(** *** Which paths the loop can delete *)

Lemma remove_entries_resolved target_root rels p :
  forall removed fs fs' o,
    remove_entries target_root rels removed fs = (fs', o) ->
    fs !! p <> None -> fs' !! p = None ->
    exists rel fs0, rel ∈ rels /\ resolve fs0 (pathlib_join target_root rel) = Ok p.
Proof.
  induction rels as [|rel rels IH]; intros removed fs fs' o; simpl.
  - by intros [= <- _] ? ?.
  - destruct (remove_entry target_root rel fs) as [fs1 r] eqn:E1. intros Hrun Hthere Hgone.
    destruct (remove_entry_target _ _ _ _ _ E1) as [->|(q & Hq & ->)].
    + destruct r as [b|e]; [|by injection Hrun as <- _].
      destruct (IH _ _ _ _ Hrun Hthere Hgone) as (rel' & fs0 & Hin & Hres).
      exists rel', fs0. split; [apply elem_of_cons; by right | done].
    + destruct (decide (q = p)) as [->|Hne].
      { exists rel, fs. split; [apply elem_of_cons; by left | done]. }
      assert (Hthere1 : delete q fs !! p <> None) by by rewrite lookup_delete_ne.
      destruct r as [b|e]; [|by injection Hrun as <- _].
      destruct (IH _ _ _ _ Hrun Hthere1 Hgone) as (rel' & fs0 & Hin & Hres).
      exists rel', fs0. split; [apply elem_of_cons; by right | done].
Qed.

(** X25. The loop of [remove] deletes nothing but what a recorded
    path resolves to: a path that is gone after the loop is the
    result of [Path.resolve()] on the install root joined with an
    entry of the recorded file list. For a recorded symbolic link
    that is the path the link leads to. *)
Theorem remove_files_deletes_resolved target_root files fs fs' o p :
  remove_files target_root files fs = (fs', o) ->
  fs !! p <> None -> fs' !! p = None ->
  exists rel fs0, rel ∈ files /\ resolve fs0 (pathlib_join target_root rel) = Ok p.
Proof.
  intros Hrun Hthere Hgone.
  destruct (remove_entries_resolved _ _ _ _ _ _ _ Hrun Hthere Hgone)
    as (rel & fs0 & Hin & Hres).
  exists rel, fs0. split; [|done]. by rewrite <- (deepest_first_perm files).
Qed.
End Remove.

(** *** Concrete runs *)

(** A file system without symbolic links, where every path is its own
    resolution and nothing is refused. *)
Definition plain_resolve (fs : gmap string node) (p : string) : res string := Ok p.
Definition nothing_denied (fs : gmap string node) (p : string) : bool := false.

Definition disk0 : gmap string node :=
  list_to_map
    [("/", Dir); ("/usr", Dir); ("/usr/bin", Dir); ("/usr/bin/tool", File);
     ("/usr/bin/other", File); ("/home", Dir); ("/home/u", Dir);
     ("/home/u/notes.txt", File)].

(** [tool] goes, [/usr/bin] stays because [other] is still in it, and
    the path outside the allowed prefixes stays although it is listed. *)
Example remove_files_disk0 :
  map_to_list
    (fst (remove_files plain_resolve nothing_denied "/"
            ["."; "usr"; "usr/bin"; "usr/bin/tool"; "home/u/notes.txt"] disk0))
  ≡ₚ [("/", Dir); ("/usr", Dir); ("/usr/bin", Dir); ("/usr/bin/other", File);
      ("/home", Dir); ("/home/u", Dir); ("/home/u/notes.txt", File)].
Proof.
  apply NoDup_Permutation.
  - apply NoDup_map_to_list.
  - vm_compute. repeat (constructor; [set_solver|]). constructor.
  - intros [k n]. vm_compute map_to_list. set_solver.
Qed.

(** [shutil.rmtree]: the directory and everything inside it. *)
Definition rmtree0 (d : string) (fs : gmap string node) : gmap string node :=
  filter (fun kn => String.eqb (fst kn) d || inside d (fst kn) = false) fs.

(** [foo] was installed under [/tmp/root] with one file, [bin/foo]. *)
Definition foo_db : gmap string InstallRecord :=
  {["foo" := mkInstallRecord "1.0" ["."; "bin"; "bin/foo"] "/work/packages/foo-1.0.tar.gz"
               "/work/destdir/foo" ["/home/u/.genpkg/bin/foo"] "/tmp/root" 0%Z
               "/work/repo/recipes/foo.yml"]}.

Definition foo_disk : gmap string node :=
  list_to_map
    [("/tmp/root", Dir); ("/tmp/root/bin", Dir); ("/tmp/root/bin/foo", File);
     ("/tmp/root/bin/sh", File); ("/home/u/.genpkg/bin/foo", File);
     ("/work/destdir/foo", Dir); ("/work/destdir/foo/bin", Dir);
     ("/work/destdir/foo/bin/foo", File)].

(** After [remove "foo"] the manifest has no [foo], [bin/foo] is gone
    from the install root, and so are the copied binary and the
    staging directory; [bin], which still holds [sh], stays. *)
Example remove_foo :
  let '(db', fs', o) :=
    remove plain_resolve nothing_denied (fun _ _ fs => (fs, Ok 0%Z)) rmtree0
           (fun _ fs => (fs, Ok tt)) dirs0 (mkInstaller ∅ "/tmp/root" false)
           "foo" foo_db foo_disk in
  o = Ok tt /\ db' !! "foo" = None /\
  map_to_list fs' ≡ₚ
    [("/tmp/root", Dir); ("/tmp/root/bin", Dir); ("/tmp/root/bin/sh", File)].
Proof.
  vm_compute. split; [done|]. split; [done|].
  apply NoDup_Permutation.
  - repeat (constructor; [set_solver|]). constructor.
  - repeat (constructor; [set_solver|]). constructor.
  - intros kn. set_solver.
Qed.

(** [p] is the directory [d] or lies inside it. *)
Definition under (d p : string) : bool := String.eqb p d || inside d p.

(** A system with a directory [/etcetera] beside [/etc]. *)
Definition disk1 : gmap string node :=
  list_to_map
    [("/", Dir); ("/etc", Dir); ("/etc/passwd", File); ("/etcetera", Dir);
     ("/etcetera/notes.txt", File)].

(** C4 fails in the code. The guard compares the text of the path
    with the text of each prefix, so it lets through a path that
    lies under none of the allow-listed directories as soon as its
    name begins like one of them: under the real root, with a
    manifest that lists [etcetera/notes.txt], the loop of [remove]
    deletes [/etcetera/notes.txt], which is neither one of the
    allow-listed directories nor inside one. *)
Theorem remove_deletes_outside_allowed_directories :
  disk1 !! "/etcetera/notes.txt" = Some File /\
  forallb (fun pref => negb (under pref "/etcetera/notes.txt"))
    ALLOWED_REMOVE_PREFIXES = true /\
  remove_files plain_resolve nothing_denied "/" ["etcetera/notes.txt"] disk1
  = (delete "/etcetera/notes.txt" disk1, Ok 1%nat).
Proof. repeat split; by vm_compute. Qed.

(** The guard at work on a path whose text matches no prefix. *)
Lemma remove_guarded_under_real_root_witness :
  fst (remove_files plain_resolve nothing_denied "/"
         ["."; "usr"; "usr/bin"; "usr/bin/tool"; "home/u/notes.txt"] disk0)
    !! "/home/u/notes.txt"
  = disk0 !! "/home/u/notes.txt".
Proof.
  apply (proj2 (remove_guarded_under_real_root plain_resolve nothing_denied "/"
                  ["."; "usr"; "usr/bin"; "usr/bin/tool"; "home/u/notes.txt"] disk0
                  (fst (remove_files plain_resolve nothing_denied "/"
                          ["."; "usr"; "usr/bin"; "usr/bin/tool"; "home/u/notes.txt"] disk0))
                  (snd (remove_files plain_resolve nothing_denied "/"
                          ["."; "usr"; "usr/bin"; "usr/bin/tool"; "home/u/notes.txt"] disk0))
                  (fun _ => eq_refl) (surjective_pairing _))).
  intros pref Hin. apply list_elem_of_In in Hin. simpl in Hin.
  repeat (destruct Hin as [<-|Hin]; [reflexivity|]). destruct Hin.
Defined.

Lemma remove_deletes_files_links_empty_dirs_witness :
  turns plain_resolve "/tmp/root" (deepest_first ["/usr/bin/tool"; "/usr/bin"]) disk0
    (fst (remove_files plain_resolve nothing_denied "/tmp/root"
            ["/usr/bin/tool"; "/usr/bin"] disk0)) /\
  (forall p n, disk0 !! p = Some n ->
     fst (remove_files plain_resolve nothing_denied "/tmp/root" ["/usr/bin/tool"; "/usr/bin"] disk0)
       !! p = None ->
     n = File \/ (exists t, n = Symlink t) \/ n = Dir) /\
  (forall d, disk0 !! d = Some Dir ->
     fst (remove_files plain_resolve nothing_denied "/tmp/root" ["/usr/bin/tool"; "/usr/bin"] disk0)
       !! d = None ->
     forall k, inside d k = true ->
       fst (remove_files plain_resolve nothing_denied "/tmp/root" ["/usr/bin/tool"; "/usr/bin"] disk0)
         !! k = None) /\
  (forall p n,
     fst (remove_files plain_resolve nothing_denied "/tmp/root" ["/usr/bin/tool"; "/usr/bin"] disk0)
       !! p = Some n ->
     disk0 !! p = Some n).
Proof.
  apply (remove_deletes_files_links_empty_dirs plain_resolve nothing_denied "/tmp/root"
           ["/usr/bin/tool"; "/usr/bin"] disk0 _
           (snd (remove_files plain_resolve nothing_denied "/tmp/root"
                   ["/usr/bin/tool"; "/usr/bin"] disk0))).
  apply surjective_pairing.
Defined.


(** *** More concrete runs *)

(** X11 at the removal of [foo]: the manifest is left without it. *)
Lemma remove_touches_one_record_witness :
  (fst (fst (remove plain_resolve nothing_denied (fun _ _ fs => (fs, Ok 0%Z)) rmtree0
               (fun _ fs => (fs, Ok tt)) dirs0 (mkInstaller ∅ "/tmp/root" false)
               "foo" foo_db foo_disk)) = foo_db \/
   fst (fst (remove plain_resolve nothing_denied (fun _ _ fs => (fs, Ok 0%Z)) rmtree0
               (fun _ fs => (fs, Ok tt)) dirs0 (mkInstaller ∅ "/tmp/root" false)
               "foo" foo_db foo_disk)) = delete "foo" foo_db) /\
  (Ok tt = Ok tt ->
   fst (fst (remove plain_resolve nothing_denied (fun _ _ fs => (fs, Ok 0%Z)) rmtree0
               (fun _ fs => (fs, Ok tt)) dirs0 (mkInstaller ∅ "/tmp/root" false)
               "foo" foo_db foo_disk)) = delete "foo" foo_db) /\
  (foo_db !! "foo" = None ->
   fst (fst (remove plain_resolve nothing_denied (fun _ _ fs => (fs, Ok 0%Z)) rmtree0
               (fun _ fs => (fs, Ok tt)) dirs0 (mkInstaller ∅ "/tmp/root" false)
               "foo" foo_db foo_disk)) = foo_db /\
   snd (fst (remove plain_resolve nothing_denied (fun _ _ fs => (fs, Ok 0%Z)) rmtree0
               (fun _ fs => (fs, Ok tt)) dirs0 (mkInstaller ∅ "/tmp/root" false)
               "foo" foo_db foo_disk)) = foo_disk /\
   Ok tt = Ok tt).
Proof.
  apply (remove_touches_one_record plain_resolve nothing_denied
           (fun _ _ fs => (fs, Ok 0%Z)) rmtree0 (fun _ fs => (fs, Ok tt)) dirs0
           (mkInstaller ∅ "/tmp/root" false) "foo" foo_db foo_disk).
  by vm_compute.
Defined.

(** A file system with a symbolic link: [bin/run] leads to
    [bin/foo], and resolves to it. *)
Definition link_disk : gmap string node :=
  list_to_map
    [("/tmp/root", Dir); ("/tmp/root/bin", Dir); ("/tmp/root/bin/foo", File);
     ("/tmp/root/bin/run", Symlink "/tmp/root/bin/foo")].

Definition link_resolve (fs : gmap string node) (p : string) : res string :=
  if String.eqb p "/tmp/root/bin/run" then Ok "/tmp/root/bin/foo" else Ok p.

(** X12 at a manifest that lists the link [bin/run]: the file the
    link leads to is gone after the loop. *)
Lemma remove_files_deletes_listed_witness :
  exists fs' n,
    remove_files link_resolve nothing_denied "/tmp/root" ["bin/run"] link_disk
    = (fs', Ok n) /\
    fs' !! "/tmp/root/bin/foo" = None.
Proof.
  apply (remove_files_deletes_listed link_resolve nothing_denied "/tmp/root"
           "/tmp/root" ["bin/run"] link_disk "bin/run" "/tmp/root/bin/foo").
  - intros fs0 q. unfold link_resolve. destruct (String.eqb q "/tmp/root/bin/run"); eauto.
  - reflexivity.
  - apply list_elem_of_In. simpl. tauto.
  - reflexivity.
  - reflexivity.
  - discriminate.
  - reflexivity.
Defined.

(** The link itself is still there: what the loop unlinked is the
    file. *)
Example remove_files_leaves_link :
  fst (remove_files link_resolve nothing_denied "/tmp/root" ["bin/run"] link_disk)
    !! "/tmp/root/bin/run"
  = Some (Symlink "/tmp/root/bin/foo").
Proof. by vm_compute. Qed.

(** [tool] was installed under the real root; its manifest entry
    lists a path outside the allowed prefixes. *)
Definition tool_db : gmap string InstallRecord :=
  {["tool" := mkInstallRecord "1.0" ["usr/bin/tool"; "home/u/notes.txt"]
                "/work/packages/tool-1.0.tar.gz" "/work/destdir/tool" [] "/" 0%Z
                "/work/repo/recipes/tool.yml"]}.

Lemma rmtree0_outside d fs p :
  String.eqb p d || inside d p = false -> rmtree0 d fs !! p = fs !! p.
Proof.
  intros Hout. unfold rmtree0. destruct (fs !! p) as [n|] eqn:E.
  - by apply map_lookup_filter_Some_2.
  - apply map_lookup_filter_None_2. by left.
Defined.

(** X13 at the removal of [tool]: the notes outside the allowed
    prefixes are still there. *)
Lemma remove_spares_other_prefixes_witness :
  snd (fst (remove plain_resolve nothing_denied (fun _ _ fs => (fs, Ok 0%Z)) rmtree0
              (fun _ fs => (fs, Ok tt)) dirs0 (mkInstaller ∅ "/" false)
              "tool" tool_db disk0)) !! "/home/u/notes.txt"
  = disk0 !! "/home/u/notes.txt".
Proof.
  apply (remove_spares_other_prefixes plain_resolve nothing_denied
           (fun _ _ fs => (fs, Ok 0%Z)) rmtree0 (fun _ fs => (fs, Ok tt)) dirs0
           (mkInstaller ∅ "/" false) "tool" tool_db disk0
           (fst (fst (remove plain_resolve nothing_denied (fun _ _ fs => (fs, Ok 0%Z))
                        rmtree0 (fun _ fs => (fs, Ok tt)) dirs0
                        (mkInstaller ∅ "/" false) "tool" tool_db disk0)))
           (snd (fst (remove plain_resolve nothing_denied (fun _ _ fs => (fs, Ok 0%Z))
                        rmtree0 (fun _ fs => (fs, Ok tt)) dirs0
                        (mkInstaller ∅ "/" false) "tool" tool_db disk0)))
           (snd (remove plain_resolve nothing_denied (fun _ _ fs => (fs, Ok 0%Z))
                   rmtree0 (fun _ fs => (fs, Ok tt)) dirs0
                   (mkInstaller ∅ "/" false) "tool" tool_db disk0))
           (mkInstallRecord "1.0" ["usr/bin/tool"; "home/u/notes.txt"]
              "/work/packages/tool-1.0.tar.gz" "/work/destdir/tool" [] "/" 0%Z
              "/work/repo/recipes/tool.yml")
           "/home/u/notes.txt").
  - reflexivity.
  - intros r Hr. vm_compute in Hr. discriminate.
  - reflexivity.
  - intros pref Hin. apply list_elem_of_In in Hin. simpl in Hin.
    repeat (destruct Hin as [<-|Hin]; [reflexivity|]). destruct Hin.
  - intros Hin. by apply elem_of_nil in Hin.
  - intros fs0. by apply rmtree0_outside.
  - reflexivity.
  - by rewrite <- !surjective_pairing.
Defined.

(** X25 at the loop over the files of [tool] under the real root:
    what went is what [usr/bin/tool] resolves to. *)
Lemma remove_files_deletes_resolved_witness :
  exists rel fs0,
    rel ∈ ["usr/bin/tool"; "home/u/notes.txt"] /\
    plain_resolve fs0 (pathlib_join "/" rel) = Ok "/usr/bin/tool".
Proof.
  apply (remove_files_deletes_resolved plain_resolve nothing_denied "/"
           ["usr/bin/tool"; "home/u/notes.txt"] disk0
           (fst (remove_files plain_resolve nothing_denied "/"
                   ["usr/bin/tool"; "home/u/notes.txt"] disk0))
           (snd (remove_files plain_resolve nothing_denied "/"
                   ["usr/bin/tool"; "home/u/notes.txt"] disk0))
           "/usr/bin/tool").
  - by rewrite <- surjective_pairing.
  - discriminate.
  - by vm_compute.
Defined.

End Removal.

(** ** Loading the manifest: [DB._load] of both versions *)

Module Manifest.

(** What [installed.json] can be on disk: not there, there but
    [open] raises, or there with some text. *)
Inductive file_state : Type :=
| Absent
| Unreadable (e : exn)
| Content (text : string).

Section Load.

(** [json.load]: the mapping the text denotes, or the exception
    the decoder raises. *)
Variable json_load : string -> res (gmap string InstallRecord).

(** The text is not JSON: the decoder raises [JSONDecodeError]. *)
Definition not_json (text : string) : Prop :=
  exists msg, json_load text = Raise (JSONDecodeError msg).

(** [except Exception: return {}] *)
Definition or_empty (r : res (gmap string InstallRecord))
    : res (gmap string InstallRecord) :=
  match r with
  | Raise e => if is_Exception e then Ok ∅ else Raise e
  | Ok d => Ok d
  end.

(** [DB._load] of [genpkg1.0.py]: [open] and [json.load] are both
    inside the [try]. *)
Definition _load (f : file_state) : res (gmap string InstallRecord) :=
  match f with
  | Absent => Ok ∅
  | Unreadable e => or_empty (Raise e)
  | Content text => or_empty (json_load text)
  end.

(** [DB._load] of [genpkg.py]: [open] is outside the [try]. *)
Definition _load_09 (f : file_state) : res (gmap string InstallRecord) :=
  match f with
  | Absent => Ok ∅
  | Unreadable e => Raise e
  | Content text => or_empty (json_load text)
  end.

(** [DB.__init__]: [self.data = self._load()] *)
Definition DB (f : file_state) : res (gmap string InstallRecord) := _load f.
Definition DB_09 (f : file_state) : res (gmap string InstallRecord) := _load_09 f.

(** C9. When the manifest file is absent, or present with a text
    that is not JSON, constructing the [DB] raises nothing and gives
    the empty mapping, in both versions: no package has a record. *)
Theorem load_absent_or_corrupt_is_empty f :
  f = Absent \/ (exists text, f = Content text /\ not_json text) ->
  DB f = Ok ∅ /\ DB_09 f = Ok ∅ /\
  forall d nm, DB f = Ok d -> d !! nm = None.
Proof.
  intros [->|(text & -> & msg & Hbad)]; unfold DB, DB_09; simpl.
  - split; [done|]. split; [done|]. by intros d nm [= <-].
  - rewrite Hbad. simpl. split; [done|]. split; [done|]. by intros d nm [= <-].
Qed.


End Load.

(** A decoder that accepts the empty object only. *)
Definition json_load0 (text : string) : res (gmap string InstallRecord) :=
  if String.eqb text "{}" then Ok ∅ else Raise (JSONDecodeError "Expecting value").

Lemma load_absent_or_corrupt_is_empty_witness :
  DB json_load0 (Content "{version: ") = Ok ∅ /\
  DB_09 json_load0 (Content "{version: ") = Ok ∅ /\
  forall d nm, DB json_load0 (Content "{version: ") = Ok d -> d !! nm = None.
Proof.
  apply (load_absent_or_corrupt_is_empty json_load0 (Content "{version: ")).
  right. exists "{version: ". split; [reflexivity|]. by exists "Expecting value".
Defined.

(** Where the two versions part: a file that cannot be opened is an
    empty manifest for [genpkg1.0.py] and an error for [genpkg.py]. *)
Example load_unreadable :
  DB json_load0 (Unreadable (OSError "EACCES")) = Ok ∅ /\
  DB_09 json_load0 (Unreadable (OSError "EACCES")) = Raise (OSError "EACCES").
Proof. by split. Qed.

End Manifest.

(** ** The older [genpkg.py]: the same recursion, another log *)

Module V09.

Import V10.

(** [Package] *)
Record Package : Type := mkPackage {
  name : string;
  version : string;
  url : string;
  dependencies : list string;
  commands : list string;
  patches : list string
}.

Section Engine.

Context {Ext : Type}.
Variable dirs : Dirs.
Variable os : World Ext.

(** The recipes [RecipeManager] finds, by file name. *)
Variable recipes : gmap string Recipe.

(** [Installer._collect_file_list(destdir)] *)
Variable collect_file_list : string -> Ext -> list string.

(** The [--strip] flag. *)
Variable strip_binaries : bool.

Notation "'let!' x ':=' m 'in' k" := (bind m (fun x => k))
  (at level 10, x name, m at level 100, k at level 200, only parsing).
Notation "m >> k" := (bind m (fun _ => k))
  (at level 90, right associativity, only parsing).

(** [RecipeManager.load(package_name)]: a recipe without ["nome"]
    takes the name it was asked under. *)
Definition load (package_name : string) : res Package :=
  match recipes !! package_name with
  | None => Raise (FileNotFoundError ("Receita " +:+ package_name +:+ " não encontrada."))
  | Some (mkRecipe nm ver u ds cmds ps _ _ _ _ _) =>
      Ok (mkPackage (if String.eqb nm "" then package_name else nm) ver u ds cmds ps)
  end.

(** The command line [run_shell_as_user_or_fakeroot] runs. *)
Definition fakeroot_line (cmd : string) (e : Ext) : string :=
  if which os "fakeroot" e then "fakeroot sh -c '" +:+ cmd +:+ "'" else cmd.

(** [Installer._apply_patches(pkg, build_dir)] *)
Definition _apply_patches (pkg : Package) (build_dir : string) : M Ext unit :=
  for_each (patches pkg) (fun u =>
    let! patch_file := act (name pkg) (SPatchDownload u) (http_download os u (PATCHES_DIR dirs)) in
    let cmd := "patch -p1 < '" +:+ patch_file +:+ "'" in
    act (name pkg) (SPatch u) (checked cmd (run_cmd os cmd build_dir))).

(** [open(log_path, "w")]: the file is emptied. *)
Definition log_open_w (log_path : string) : M Ext unit :=
  fun st => (mkState (db st) (<[log_path := ""]> (logs st)) (ext st) (trace st), Ok tt).

(** One command of the build, its output written to the open log. *)
Definition run_to_log (pkg : Package) (cmd cwd log_path : string)
    (env : list (string * string)) : M Ext unit :=
  fun st =>
    let line := fakeroot_line cmd (ext st) in
    let '(e', (out, r)) := popen os line cwd env (ext st) in
    let r' :=
      match r with
      | Ok rc => if (rc =? 0)%Z then Ok tt else Raise (CalledProcessError rc line)
      | Raise x => Raise x
      end in
    (mkState (db st)
             (<[log_path := default "" (logs st !! log_path) +:+ out]> (logs st))
             e' (trace st ++ [mkEvent (name pkg) (SBuild cmd) (raised r')]),
     r').

(** [Installer._run_build_commands(pkg, build_dir, strip_binaries)] *)
Definition _run_build_commands (pkg : Package) (build_dir : string) : M Ext string :=
  let destdir := path_join (DESTDIR_BASE dirs) (name pkg) in
  act (name pkg) SPrepare (mkdir os destdir) >>
  let env := [("DESTDIR", destdir)] in
  let log_path := path_join (LOGS_DIR dirs) (name pkg +:+ ".log") in
  log_open_w log_path >>
  for_each (commands pkg) (fun cmd => run_to_log pkg cmd build_dir log_path env) >>
  (if strip_binaries then act (name pkg) SStrip (strip_binaries_in os destdir) else ret tt) >>
  ret destdir.

(** [Installer._install_core(pkg, strip_binaries)] *)
Definition _install_core (pkg : Package) : M Ext unit :=
  (if String.eqb (url pkg) ""
   then throw (name pkg) SFetch (RuntimeError ("URL ausente na recipe de " +:+ name pkg +:+ "."))
   else ret tt) >>
  let! tarball := act (name pkg) SFetch (http_download os (url pkg) (SOURCES_DIR dirs)) in
  let! build_dir := act (name pkg) SExtract (extract_tar_any os tarball (SOURCES_DIR dirs)) in
  _apply_patches pkg build_dir >>
  let! destdir := _run_build_commands pkg build_dir in
  let! pkgfile := act (name pkg) SPackage (package_destdir os (name pkg) (version pkg) destdir) in
  let! bin_copied := act (name pkg) SCopyBin (copy_binaries_to_bindir os destdir) in
  (fun st =>
     let files := collect_file_list destdir (ext st) in
     let meta := mkInstallRecord (version pkg) files pkgfile destdir bin_copied "" 0%Z "" in
     (mkState (<[name pkg := meta]> (db st)) (logs st) (ext st)
              (trace st ++ [mkEvent (name pkg) SRecord None]), Ok tt)) >>
  (fun st => act (name pkg) SSave (db_save os (db st)) st).

(** [for dep_name in pkg.dependencies: if dep_name not in self.db.data:
    dep_pkg = self.recipes.load(dep_name); self._install_with_deps(dep_pkg, ...)] *)
Fixpoint install_deps
    (call : Package -> gset string -> State Ext -> option (gset string * State Ext * res unit))
    (ds : list string) (visited : gset string) (st : State Ext)
    : option (gset string * State Ext * res unit) :=
  match ds with
  | [] => Some (visited, st, Ok tt)
  | dep_name :: ds' =>
      if decide (dep_name ∈ dom (db st)) then install_deps call ds' visited st
      else
        match load dep_name with
        | Raise e =>
            let '(st', _) := throw (A := unit) dep_name SResolve e st in
            Some (visited, st', Raise e)
        | Ok dep_pkg =>
            match call dep_pkg visited st with
            | Some (visited', st', Ok _) => install_deps call ds' visited' st'
            | other => other
            end
        end
  end.

(** [Installer._install_with_deps(pkg, visited, strip_binaries)] *)
Fixpoint _install_with_deps (fuel : nat) (pkg : Package) (visited : gset string)
    (st : State Ext) : option (gset string * State Ext * res unit) :=
  match fuel with
  | O => None
  | S fuel' =>
      if decide (name pkg ∈ visited) then Some (visited, st, Ok tt)
      else
        let visited := {[name pkg]} ∪ visited in
        match install_deps (_install_with_deps fuel') (dependencies pkg) visited st with
        | Some (visited', st', Ok _) =>
            if decide (name pkg ∈ dom (db st')) then Some (visited', st', Ok tt)
            else
              let '(st'', o) := _install_core pkg st' in
              Some (visited', st'', o)
        | other => other
        end
  end.

(** [Installer.install(name, strip_binaries)] *)
Definition install (nm : string) (st : State Ext) : option (State Ext * res unit) :=
  match load nm with
  | Raise e => Some (fst (throw (A := unit) nm SResolve e st), Raise e)
  | Ok pkg =>
      match _install_with_deps (S (size recipes)) pkg ∅ st with
      | Some (_, st', o) => Some (st', o)
      | None => None
      end
  end.

(** [Installer.build_only(name, strip_binaries)] *)
Definition build_only (nm : string) : M Ext unit :=
  fun st =>
    match load nm with
    | Raise e => throw nm SResolve e st
    | Ok pkg =>
        (let! tarball := act (name pkg) SFetch (http_download os (url pkg) (SOURCES_DIR dirs)) in
         let! build_dir := act (name pkg) SExtract (extract_tar_any os tarball (SOURCES_DIR dirs)) in
         _apply_patches pkg build_dir >>
         let! destdir := _run_build_commands pkg build_dir in
         let! pkgfile := act (name pkg) SPackage
                           (package_destdir os (name pkg) (version pkg) destdir) in
         ret tt) st
    end.

(** *** The log of a build in [genpkg.py] *)

(** [_run_build_commands] forgets the old log: once the staging
    directory is there, the build goes on as if the log file had
    not existed before. *)
Lemma build_forgets_log pkg build_dir st old e1 :
  let log_path := path_join (LOGS_DIR dirs) (name pkg +:+ ".log") in
  mkdir os (path_join (DESTDIR_BASE dirs) (name pkg)) (ext st) = (e1, Ok tt) ->
  _run_build_commands pkg build_dir
    (mkState (db st) (<[log_path := old]> (logs st)) (ext st) (trace st))
  = _run_build_commands pkg build_dir
      (mkState (db st) (delete log_path (logs st)) (ext st) (trace st)).
Proof.
  intros log_path Hmk. unfold _run_build_commands. fold log_path.
  unfold bind, act, log_open_w. simpl. rewrite Hmk. simpl.
  by rewrite insert_insert_eq, insert_delete_eq.
Qed.


(** *** What [build_only] of [genpkg.py] leaves alone *)

(** [m] leaves the manifest alone and all its events satisfy [P]. *)
Definition keeps_manifest {A} (P : event -> Prop) (m : M Ext A) : Prop :=
  forall st st' o, m st = (st', o) ->
    db st' = db st /\ exists evs, trace st' = trace st ++ evs /\ Forall P evs.

Lemma keeps_ret {A} P (a : A) : keeps_manifest P (ret a).
Proof.
  intros st st' o [= <- <-]. split; [done|]. exists []. by rewrite app_nil_r.
Qed.

Lemma keeps_bind {A B} P (m : M Ext A) (k : A -> M Ext B) :
  keeps_manifest P m -> (forall a, keeps_manifest P (k a)) ->
  keeps_manifest P (bind m k).
Proof.
  intros Hm Hk st st' o. unfold bind.
  destruct (m st) as [st1 [a|e]] eqn:E1; intros E2.
  - destruct (Hm _ _ _ E1) as (Hdb1 & evs1 & Ht1 & Hq1).
    destruct (Hk a _ _ _ E2) as (Hdb2 & evs2 & Ht2 & Hq2).
    split; [congruence|]. exists (evs1 ++ evs2).
    rewrite Ht2, Ht1, app_assoc. split; [done | by apply Forall_app].
  - injection E2 as <- <-. by apply (Hm _ _ _ E1).
Qed.

Lemma keeps_act {A} (P : event -> Prop) pkg s (f : Ext -> Ext * res A) :
  (forall x, P (mkEvent pkg s x)) -> keeps_manifest P (act pkg s f).
Proof.
  intros HP st st' r. unfold act.
  destruct (f (ext st)) as [e' r']. intros [= <- <-]. simpl.
  split; [done|]. eexists. split; [done|]. constructor; [apply HP | constructor].
Qed.

Lemma keeps_for_each {A} P (xs : list A) (body : A -> M Ext unit) :
  (forall x, keeps_manifest P (body x)) -> keeps_manifest P (for_each xs body).
Proof.
  intros Hb. induction xs as [|x xs IH]; simpl.
  - apply keeps_ret.
  - apply keeps_bind; [apply Hb | intros _; apply IH].
Qed.

Lemma keeps_run_build_commands (P : event -> Prop) pkg build_dir :
  (forall s x, build_step s = true -> P (mkEvent (name pkg) s x)) ->
  keeps_manifest P (_run_build_commands pkg build_dir).
Proof.
  intros HP. unfold _run_build_commands.
  apply keeps_bind; [apply keeps_act; intros; by apply HP | intros _].
  apply keeps_bind.
  { intros st st' o [= <- <-]. split; [done|]. exists []. by rewrite app_nil_r. }
  intros _. apply keeps_bind.
  { apply keeps_for_each. intros cmd st st' o. unfold run_to_log.
    destruct (popen os _ build_dir _ (ext st)) as [e' [out r]].
    intros [= <- <-]. simpl. split; [done|]. eexists. split; [done|].
    constructor; [by apply HP | constructor]. }
  intros _. apply keeps_bind; [|intros _; apply keeps_ret].
  destruct strip_binaries; [apply keeps_act; intros; by apply HP | apply keeps_ret].
Qed.

(** X22. [build_only] of [genpkg.py] does what its docstring says,
    whatever fails: it does not register the package. The manifest
    is as it was, and every step taken is the lookup of the recipe,
    the download, the extraction, a patch, the creation of the
    staging directory, a build command, the strip or the packaging:
    nothing is copied to the directory of binaries, no record is
    written, the manifest is not saved. *)
Theorem build_only_registers_nothing nm st :
  db (fst (build_only nm st)) = db st /\
  exists evs,
    trace (fst (build_only nm st)) = trace st ++ evs /\
    Forall (fun ev => build_step (ev_step ev) = true) evs.
Proof.
  assert (H : keeps_manifest (fun ev => build_step (ev_step ev) = true) (build_only nm)).
  { intros st0. unfold build_only. destruct (load nm) as [pkg|e].
    2:{ intros st' o [= <- <-]. simpl. split; [done|]. eexists. split; [done|].
        by repeat constructor. }
    revert st0.
    apply keeps_bind; [by apply keeps_act | intros tarball].
    apply keeps_bind; [by apply keeps_act | intros build_dir].
    apply keeps_bind.
    { apply keeps_for_each. intros u.
      apply keeps_bind; [by apply keeps_act | intros pf; by apply keeps_act]. }
    intros _. apply keeps_bind; [by apply keeps_run_build_commands | intros destdir].
    apply keeps_bind; [by apply keeps_act | intros pkgfile; apply keeps_ret]. }
  destruct (build_only nm st) as [st' o] eqn:E. by apply (H _ _ _ E).
Qed.

(** *** Termination of [install] in [genpkg.py] *)

(** The names packages are loaded under: the visited set holds
    names of packages, not of recipe files. *)
Definition loaded_names : gset string :=
  list_to_set
    (omap (fun kr => match load (fst kr) with
                     | Ok pkg => Some (name pkg)
                     | Raise _ => None
                     end)
          (map_to_list recipes)).

Lemma load_loaded package_name pkg :
  load package_name = Ok pkg -> name pkg ∈ loaded_names.
Proof.
  intros Hl. unfold loaded_names. apply elem_of_list_to_set, list_elem_of_omap.
  assert (exists r, recipes !! package_name = Some r) as [r Hr].
  { unfold load in Hl. destruct (recipes !! package_name) as [r|]; [by eexists | done]. }
  exists (package_name, r). split; [by apply elem_of_map_to_list|].
  simpl. by rewrite Hl.
Qed.

Lemma size_list_to_set_le (l : list string) :
  (size (list_to_set l : gset string) ≤ List.length l)%nat.
Proof.
  induction l as [|x l IH]; [done|].
  change (list_to_set (x :: l) : gset string) with ({[x]} ∪ list_to_set l : gset string).
  rewrite size_union_alt, size_singleton. simpl.
  assert (size (list_to_set l ∖ {[x]} : gset string) ≤ size (list_to_set l : gset string))%nat
    by (apply subseteq_size; set_solver).
  lia.
Qed.

Lemma length_omap_le {A B} (f : A -> option B) (l : list A) :
  (List.length (omap f l) ≤ List.length l)%nat.
Proof.
  induction l as [|x l IH]; [done|]. csimpl. destruct (f x); simpl; lia.
Qed.

Lemma size_loaded_names : (size loaded_names ≤ size recipes)%nat.
Proof.
  unfold loaded_names. etrans; [apply size_list_to_set_le|].
  etrans; [apply length_omap_le|]. by rewrite length_map_to_list.
Qed.

Lemma install_deps_total_09 call ds v0 :
  (forall pkg v st, name pkg ∈ loaded_names -> v0 ⊆ v ->
     exists v' st' o, call pkg v st = Some (v', st', o) /\ v ⊆ v') ->
  forall v st, v0 ⊆ v ->
    exists v' st' o, install_deps call ds v st = Some (v', st', o) /\ v ⊆ v'.
Proof.
  intros Hcall. induction ds as [|d ds IH]; intros v st Hv; simpl.
  - by exists v, st, (Ok tt).
  - destruct (decide (d ∈ dom (db st))); [by apply IH|].
    destruct (load d) as [pkg|e] eqn:Hl; [|by eexists _, _, _].
    destruct (Hcall pkg v st (load_loaded _ _ Hl) Hv) as (v1 & st1 & o1 & -> & Hv1).
    destruct o1 as [[]|e].
    + destruct (IH v1 st1) as (v2 & st2 & o2 & -> & Hv2); [set_solver|].
      exists v2, st2, o2. split; [done | set_solver].
    + by exists v1, st1, (Raise e).
Qed.

Lemma install_with_deps_total_09 fuel :
  forall pkg v st, name pkg ∈ loaded_names ->
    (size (loaded_names ∖ v) < fuel)%nat ->
    exists v' st' o, _install_with_deps fuel pkg v st = Some (v', st', o) /\ v ⊆ v'.
Proof.
  induction fuel as [|fuel IH]; intros pkg v st Hin Hsize; simpl; [lia|].
  destruct (decide (name pkg ∈ v)) as [Hv|Hv]; [by exists v, st, (Ok tt)|].
  assert (Hlt : (size (loaded_names ∖ ({[name pkg]} ∪ v)) < size (loaded_names ∖ v))%nat).
  { apply subset_size. set_solver. }
  destruct (install_deps_total_09 (_install_with_deps fuel) (dependencies pkg)
              ({[name pkg]} ∪ v))
    with (v := {[name pkg]} ∪ v) (st := st) as (v2 & st2 & o2 & -> & Hv2); [|done|].
  { intros p v1 st1 Hp Hv1. apply IH; [done|].
    assert (size (loaded_names ∖ v1) ≤ size (loaded_names ∖ ({[name pkg]} ∪ v)))%nat
      by (apply subseteq_size; set_solver).
    lia. }
  destruct o2 as [[]|e]; [|eexists _, _, _; split; [done | set_solver]].
  destruct (decide (name pkg ∈ dom (db st2))).
  - eexists _, _, _. split; [done | set_solver].
  - destruct (_install_core pkg st2) as [st3 o3].
    eexists _, _, _. split; [done | set_solver].
Qed.

(** X23. [install] of [genpkg.py] comes to an end on any recipe
    repository, cyclic or not: the recursion goes no deeper than the
    number of recipes and one more level, because each level adds
    the name of a loaded package to the visited set. *)
Theorem install_terminates_09 nm st : exists st' o, install nm st = Some (st', o).
Proof.
  unfold install. destruct (load nm) as [pkg|e] eqn:Hl; [|by eauto].
  destruct (install_with_deps_total_09 (S (size recipes)) pkg ∅ st)
    as (v' & st' & o & -> & _); [by eapply load_loaded| |by eauto].
  rewrite difference_empty_L. pose proof size_loaded_names. lia.
Qed.
End Engine.

(** *** Concrete runs, in the world of the newer version *)

Definition collect0 (destdir : string) (e : list string) : list string := ["bin/tool"].

(** [tool], built by one command. *)
Definition single : gmap string Recipe :=
  {["tool" := recipe0 "tool" "http://mirror/tool.tar.gz" [] ["make install"]]}.

(** The log of [tool] holds the output of an earlier build. *)
Definition logged : State (list string) :=
  mkState ∅ {["/work/logs/tool.log" := "output of an earlier build"]} [] [].

(** C8 fails in [genpkg.py]: a build of [tool] leaves in its log the
    output of this build only; what an earlier build wrote is gone.
    In [genpkg1.0.py] the same build adds to the log: what was there
    stays, then comes the output of the command, then the line that
    names the command. *)
Theorem rebuild_truncates_log :
  logs (fst (build_only dirs0 calm_world single false "tool" logged))
    !! "/work/logs/tool.log"
  = Some "output of fakeroot sh -c 'make install'" /\
  logs (after calm_world (mkInstaller single "/" false) "tool" logged)
    !! "/work/logs/tool.log"
  = Some "output of an earlier buildoutput of make install
$ make install
".
Proof. split; by vm_compute. Qed.

(** The state [install] of [genpkg.py] leaves. *)
Definition after09 (repo : gmap string Recipe) (nm : string) (st : State (list string))
    : State (list string) :=
  match install dirs0 calm_world repo collect0 false nm st with
  | Some (st', _) => st'
  | None => st
  end.

(** The cycle of [A] and [B] in [genpkg.py]: no error, both recorded. *)
Example cycle_installs_both_09 :
  install dirs0 calm_world (recipes cyclic) collect0 false "A" fresh
  = Some (after09 (recipes cyclic) "A" fresh, Ok tt) /\
  "A" ∈ dom (db (after09 (recipes cyclic) "A" fresh)) /\
  "B" ∈ dom (db (after09 (recipes cyclic) "A" fresh)).
Proof.
  split; [by vm_compute|]. split; apply elem_of_dom; vm_compute; eauto.
Qed.

(** A recorded [app] with a missing dependency in [genpkg.py]: the
    dependency is built. *)
Example install_of_recorded_name_builds_dependency_09 :
  install dirs0 calm_world (recipes layered) collect0 false "app" only_app
  = Some (after09 (recipes layered) "app" only_app, Ok tt) /\
  mkEvent "lib" (SBuild "make install") None ∈ trace (after09 (recipes layered) "app" only_app).
Proof.
  split; [by vm_compute|]. apply list_elem_of_In. vm_compute. tauto.
Qed.

End V09.

(** ** The log of a build in [genpkg1.0.py] *)

Module Logs.

Import V10.

(** [run_logged] adds to the end of the log: after the old content
    comes the output of the command, then the line with the
    command. *)
Lemma run_logged_appends {Ext : Type} (os : World Ext) pkg cmd cwd lf env
    (st : State Ext) e0 :
  mkdir os (path_parent lf) (ext st) = (e0, Ok tt) ->
  logs (fst (run_logged os pkg cmd cwd lf env st)) !! lf
  = Some (default "" (logs st !! lf) +:+ fst (snd (popen os cmd cwd env e0)) +:+ ("
$ " +:+ cmd +:+ "
")).
Proof.
  intros Hmk. unfold run_logged. rewrite Hmk.
  destruct (popen os cmd cwd env e0) as [e' [out r]]. simpl.
  by rewrite lookup_insert_eq.
Qed.

End Logs.

(** ** [upgrade] of [genpkg1.0.py]: remove, then install *)

Module Upgrade.

Import V10 Removal.

Section Upgrade.

(** The file system is the outside world of the installer; the
    collaborators of [remove] that [install] does not use come as in
    the remove side. *)
Variable resolve : gmap string node -> string -> res string.
Variable denied : gmap string node -> string -> bool.
Variable rmtree : string -> gmap string node -> gmap string node.
Variable dirs : Dirs.
Variable os : World (gmap string node).
Variable self : Installer.

(** [list(self.db.data.keys())]: the names in the order of the
    dictionary. *)
Variable keys : gmap string InstallRecord -> list string.

(** [self.remove(name)] on the state of the installer. *)
Definition remove (nm : string) (st : State (gmap string node))
    : State (gmap string node) * res unit :=
  let '(db', fs', o) :=
    Removal.remove resolve denied (run_cmd os) rmtree (db_save os) dirs self
      nm (db st) (ext st) in
  (mkState db' (logs st) fs' (trace st), o).

(** [self.remove(pkg); self.install(pkg)] *)
Definition reinstall (nm : string) (st : State (gmap string node))
    : option (State (gmap string node) * res unit) :=
  match remove nm st with
  | (st1, Ok _) => install dirs os self nm st1
  | (st1, Raise e) => Some (st1, Raise e)
  end.

(** [for pkg in list(self.db.data.keys()): ...] *)
Fixpoint upgrade_all (pkgs : list string) (st : State (gmap string node))
    : option (State (gmap string node) * res unit) :=
  match pkgs with
  | [] => Some (st, Ok tt)
  | pkg :: pkgs' =>
      match reinstall pkg st with
      | Some (st', Ok _) => upgrade_all pkgs' st'
      | other => other
      end
  end.

(** [Installer.upgrade(name, all_pkgs)] *)
Definition upgrade (name : option string) (all_pkgs : bool)
    (st : State (gmap string node))
    : option (State (gmap string node) * res unit) :=
  if all_pkgs then
    if decide (db st = ∅) then Some (st, Ok tt)
    else upgrade_all (keys (db st)) st
  else
    match name with
    | None => Some (st, Ok tt)
    | Some nm =>
        if String.eqb nm "" then Some (st, Ok tt)
        else if decide (nm ∈ dom (db st)) then reinstall nm st
        else install dirs os self nm st
    end.

Lemma remove_Ok nm st st1 :
  remove nm st = (st1, Ok tt) ->
  db st1 = delete nm (db st) /\ trace st1 = trace st /\ logs st1 = logs st.
Proof.
  unfold remove.
  destruct (Removal.remove _ _ _ _ _ _ _ nm (db st) (ext st)) as [[db' fs'] o] eqn:E.
  intros [= <- ->]. simpl. split; [|done]. by eapply remove_returns_without.
Qed.

Lemma remove_trace nm st st1 o : remove nm st = (st1, o) -> trace st1 = trace st.
Proof.
  unfold remove.
  destruct (Removal.remove _ _ _ _ _ _ _ nm (db st) (ext st)) as [[db' fs'] o'].
  by intros [= <- _].
Qed.

(** X14. [upgrade] of one package that has a record builds it
    again: when it returns normally, recipes being stored under
    their names, the record of the package has been written anew,
    after the extraction of its archive, whereas [install] of a
    recorded package would have skipped its pipeline. *)
Theorem upgrade_rebuilds nm st st' evs :
  names_ok self ->
  nm <> "" -> nm ∈ dom (db st) ->
  upgrade (Some nm) false st = Some (st', Ok tt) ->
  trace st' = trace st ++ evs ->
  recorded_after_unpack nm evs /\ nm ∈ dom (db st').
Proof.
  intros Hn Hne Hin. unfold upgrade. apply String.eqb_neq in Hne. rewrite Hne.
  destruct (decide (nm ∈ dom (db st))) as [_|Hbad]; [|done].
  unfold reinstall. destruct (remove nm st) as [st1 [[]|e]] eqn:Er; [|done].
  destruct (remove_Ok _ _ _ Er) as (Hdb & Htr & _).
  intros Hi Ht.
  destruct (install_summary _ _ _ _ _ _ _ Hi) as (v' & evs' & Hv' & [B N]).
  specialize (N Hn). destruct B, N.
  assert (evs' = evs) as -> by (apply (app_inv_head (trace st)); congruence).
  destruct (run_done0 eq_refl nm Hv') as [Hdom _]; [set_solver|].
  split; [|done].
  destruct (run_recorded0 nm Hdom) as [Hold|?]; [|done].
  rewrite Hdb, dom_delete_L in Hold. set_solver.
Qed.

(** X15. [upgrade] does not put back what it removed: when the
    package had a record, its removal went through and the
    following [install] raises, other than from [db.save()], the
    package is left without a record, recipes being stored under
    their names. *)
Theorem failed_upgrade_uninstalls nm st st' e pre ev :
  names_ok self ->
  nm <> "" -> nm ∈ dom (db st) ->
  upgrade (Some nm) false st = Some (st', Raise e) ->
  trace st' = trace st ++ pre ++ [ev] ->
  ev_step ev <> SSave ->
  nm ∉ dom (db st').
Proof.
  intros Hn Hne Hin. unfold upgrade. apply String.eqb_neq in Hne. rewrite Hne.
  destruct (decide (nm ∈ dom (db st))) as [_|Hbad]; [|done].
  unfold reinstall. destruct (remove nm st) as [st1 [[]|e1]] eqn:Er.
  - destruct (remove_Ok _ _ _ Er) as (Hdb & Htr & _). intros Hi Ht Hstep.
    eapply (install_failed_unrecorded dirs os self nm st1); eauto.
    + rewrite Hdb, dom_delete_L. set_solver.
    + by rewrite Htr.
  - intros [= <- _] Ht. apply remove_trace in Er. rewrite Er in Ht.
    exfalso. apply (f_equal List.length) in Ht. rewrite !length_app in Ht.
    simpl in Ht. lia.
Qed.

(** X26. [remove] takes back what [install] did to the manifest:
    after an [install] of a package without a record that returned
    normally and a [remove] of it that returned normally, recipes
    being stored under their names, every record the manifest held
    before is there unchanged and the package has none; and when
    the dependencies of the package all had records, the manifest
    is the one it was. *)
Theorem remove_undoes_install nm r st st1 st2 :
  names_ok self ->
  nm ∉ dom (db st) -> find dirs self nm = Ok r ->
  install dirs os self nm st = Some (st1, Ok tt) ->
  remove nm st1 = (st2, Ok tt) ->
  (db st ⊆ db st2) /\ (nm ∉ dom (db st2)) /\
  ((forall d, d ∈ deps r -> d ∈ dom (db st)) -> db st2 = db st).
Proof.
  intros Hn Hnin Hfind Hi Hr.
  destruct (remove_Ok _ _ _ Hr) as (Hdb & _ & _).
  destruct (install_summary _ _ _ _ _ _ _ Hi) as (v' & evs & _ & [_ N]).
  destruct (N Hn) as [_ Hsub _ _].
  split; [|split].
  - rewrite Hdb. apply map_subseteq_spec. intros k x Hk.
    assert (k <> nm) by (intros ->; apply Hnin, elem_of_dom; by eexists).
    rewrite lookup_delete_ne by done. by eapply lookup_weaken.
  - rewrite Hdb, dom_delete_L. set_solver.
  - intros Hdeps.
    destruct (install_single _ _ _ _ _ _ _ Hn Hnin Hfind Hdeps Hi) as (meta & Hins).
    rewrite Hdb, Hins, delete_insert_eq. apply delete_id. by apply not_elem_of_dom.
Qed.

End Upgrade.

(** *** Concrete runs *)

(** A world on the file system in which every collaborator returns
    at once and changes nothing. *)
Definition still_world : World (gmap string node) :=
  mkWorld (gmap string node)
    (fun d e => (e, Ok tt))
    (fun c w e => (e, Ok 0%Z))
    (fun c w env e => (e, ("", Ok 0%Z)))
    (fun u d e => (e, Ok (path_join d "checkout")))
    (fun u d e => (e, Ok (path_join d "src.tar.gz")))
    (fun t d e => (e, Ok (path_join d "src")))
    (fun _ _ => true)
    (fun d e => (e, Ok tt))
    (fun d e => (e, Ok tt))
    (fun n v d e => (e, Ok (path_join "/work/packages" (n +:+ "-" +:+ v +:+ ".tar.gz"))))
    (fun d e => (e, Ok []))
    (fun f e => Ok [mkTarInfo "."; mkTarInfo "./bin"; mkTarInfo "./bin/foo"])
    (fun f r e => (e, Ok tt))
    (fun d e => (e, Ok tt))
    (fun e => 0%Z).

(** The repository has a recipe for [foo]. *)
Definition with_foo : Installer :=
  mkInstaller {["foo" := recipe0 "foo" "http://mirror/foo.tar.gz" [] ["make install"]]}
              "/tmp/root" false.

Definition foo_state : State (gmap string node) := mkState foo_db ∅ foo_disk [].

Definition no_keys (d : gmap string InstallRecord) : list string := [].

(** The state [upgrade] of one package leaves, for a call that is
    known to come back. *)
Definition upgraded (self : Installer) (nm : string) (st : State (gmap string node))
    : State (gmap string node) :=
  match upgrade plain_resolve nothing_denied rmtree0 dirs0 still_world self no_keys
          (Some nm) false st with
  | Some (st', _) => st'
  | None => st
  end.

(** The state [install] leaves in this world. *)
Definition after_still (self : Installer) (nm : string) (st : State (gmap string node))
    : State (gmap string node) :=
  match install dirs0 still_world self nm st with
  | Some (st', _) => st'
  | None => st
  end.

(** X14 at the upgrade of [foo]. *)
Lemma upgrade_rebuilds_witness :
  recorded_after_unpack "foo" (trace (upgraded with_foo "foo" foo_state)) /\
  "foo" ∈ dom (db (upgraded with_foo "foo" foo_state)).
Proof.
  apply (upgrade_rebuilds plain_resolve nothing_denied rmtree0 dirs0 still_world
           with_foo no_keys "foo" foo_state (upgraded with_foo "foo" foo_state)
           (trace (upgraded with_foo "foo" foo_state))).
  - apply names_ok_decide. by vm_compute.
  - discriminate.
  - apply elem_of_dom. vm_compute. eauto.
  - by vm_compute.
  - reflexivity.
Defined.

(** X15 at the upgrade of [foo] when its recipe is gone: the files
    and the record of [foo] are removed, then the lookup fails. *)
Lemma failed_upgrade_uninstalls_witness :
  "foo" ∉ dom (db (upgraded bare "foo" foo_state)).
Proof.
  apply (failed_upgrade_uninstalls plain_resolve nothing_denied rmtree0 dirs0
           still_world bare no_keys "foo" foo_state (upgraded bare "foo" foo_state)
           (FileNotFoundError "Receita 'foo' não encontrada em /work/repo/recipes.")
           []
           (mkEvent "foo" SResolve
              (Some (FileNotFoundError
                       "Receita 'foo' não encontrada em /work/repo/recipes.")))).
  - apply names_ok_decide. by vm_compute.
  - discriminate.
  - apply elem_of_dom. vm_compute. eauto.
  - by vm_compute.
  - by vm_compute.
  - discriminate.
Defined.

(** The manifest and the disk before [foo] was installed. *)
Definition no_foo : State (gmap string node) :=
  mkState ∅ ∅ (list_to_map [("/tmp/root", Dir)]) [].

(** X26 at the installation and the removal of [foo]. *)
Lemma remove_undoes_install_witness :
  (db no_foo ⊆
    db (fst (remove plain_resolve nothing_denied rmtree0 dirs0 still_world with_foo "foo"
               (after_still with_foo "foo" no_foo)))) /\
  ("foo" ∉
    dom (db (fst (remove plain_resolve nothing_denied rmtree0 dirs0 still_world with_foo
                    "foo" (after_still with_foo "foo" no_foo))))) /\
  ((forall d, d ∈ deps (recipe0 "foo" "http://mirror/foo.tar.gz" [] ["make install"]) ->
              d ∈ dom (db no_foo)) ->
   db (fst (remove plain_resolve nothing_denied rmtree0 dirs0 still_world with_foo "foo"
              (after_still with_foo "foo" no_foo)))
   = db no_foo).
Proof.
  apply (remove_undoes_install plain_resolve nothing_denied rmtree0 dirs0 still_world
           with_foo "foo"
           (recipe0 "foo" "http://mirror/foo.tar.gz" [] ["make install"])
           no_foo (after_still with_foo "foo" no_foo)).
  - apply names_ok_decide. by vm_compute.
  - apply not_elem_of_dom. reflexivity.
  - by vm_compute.
  - by vm_compute.
  - by vm_compute.
Defined.

End Upgrade.

(** ** Finding a recipe: [RecipeIndex.build] and [Recipes.find] *)

Module Lookup.

(** [s.endswith(suf)] *)
Fixpoint endswith (s suf : string) : bool :=
  String.eqb s suf ||
  match s with
  | EmptyString => false
  | String _ s' => endswith s' suf
  end.

(** The part of [s] before its last dot, if it has a dot. *)
Fixpoint before_last_dot (s : string) : option string :=
  match s with
  | EmptyString => None
  | String c s' =>
      match before_last_dot s' with
      | Some p => Some (String c p)
      | None => if Ascii.eqb c "."%char then Some EmptyString else None
      end
  end.

(** [f.rsplit(".", 1)[0]] *)
Definition stem (f : string) : string := default f (before_last_dot f).

(** [f.endswith((".yml", ".yaml"))] *)
Definition is_recipe_file (f : string) : bool :=
  endswith f ".yml" || endswith f ".yaml".

(** [index.setdefault(name, path)] *)
Definition setdefault (k v : string) (index : gmap string string) : gmap string string :=
  match index !! k with
  | Some _ => index
  | None => <[k := v]> index
  end.

(** [for f in files: ...], for one directory of the walk. *)
Definition index_files (root : string) (files : list string)
    (index : gmap string string) : gmap string string :=
  foldl (fun idx f =>
           if is_recipe_file f then setdefault (stem f) (path_join root f) idx
           else idx)
        index files.

(** [for root, _, files in os.walk(RECIPES_DIR): ...] *)
Definition build_from (index : gmap string string)
    (walk : list (string * list string)) : gmap string string :=
  foldl (fun idx rf => index_files (fst rf) (snd rf) idx) index walk.

(** [RecipeIndex.build()], as a function of what [os.walk] yields
    (nothing when the directory does not exist); the writing of
    [index.json] is left out. *)
Definition build (walk : list (string * list string)) : gmap string string :=
  build_from ∅ walk.

(** The fallback of [Recipes.find]: the first directory, in the
    order of the walk, that has [name.yml] or else [name.yaml]. *)
Fixpoint scan (walk : list (string * list string)) (name : string) : option string :=
  match walk with
  | [] => None
  | (root, files) :: walk' =>
      if bool_decide (name +:+ ".yml" ∈ files)
      then Some (path_join root (name +:+ ".yml"))
      else if bool_decide (name +:+ ".yaml" ∈ files)
      then Some (path_join root (name +:+ ".yaml"))
      else scan walk' name
  end.

(** The fallback of [RecipeManager._find_recipe_path] in [genpkg.py]:
    the first file called [name.yml]. *)
Fixpoint scan_09 (walk : list (string * list string)) (name : string) : option string :=
  match walk with
  | [] => None
  | (root, files) :: walk' =>
      if bool_decide (name +:+ ".yml" ∈ files)
      then Some (path_join root (name +:+ ".yml"))
      else scan_09 walk' name
  end.

Section Find.

(** [self.index], [Path(path).exists()] and [os.walk(RECIPES_DIR)]. *)
Variable index : gmap string string.
Variable path_exists : string -> bool.
Variable walk : list (string * list string).

(** A value of the index that [if path and ...exists()] accepts. *)
Definition usable (path : option string) : bool :=
  match path with
  | Some p => negb (String.eqb p "") && path_exists p
  | None => false
  end.

(** The path [Recipes.find(name)] opens; [None] when [find] itself
    raises [FileNotFoundError]. *)
Definition find_path (name : string) : option string :=
  let path := index !! name in
  let path :=
    if usable path then path
    else
      match scan walk name with
      | Some q => Some q
      | None => path
      end in
  match path with
  | Some p => if String.eqb p "" then None else Some p
  | None => None
  end.

(** [RecipeManager._find_recipe_path(package_name)] of [genpkg.py] *)
Definition _find_recipe_path (package_name : string) : option string :=
  let path := index !! package_name in
  if usable path then path else scan_09 walk package_name.

End Find.

(** *** File names *)

(** [f] is a recipe file of the package [n]. *)
Definition names (f n : string) : Prop := f = n +:+ ".yml" \/ f = n +:+ ".yaml".

Lemma endswith_app n suf : endswith (n +:+ suf) suf = true.
Proof.
  induction n as [|c n IH].
  - change ("" +:+ suf) with suf. destruct suf; simpl; [done|].
    by rewrite Ascii.eqb_refl, String.eqb_refl.
  - change (String c n +:+ suf) with (String c (n +:+ suf)).
    change (endswith (String c (n +:+ suf)) suf)
      with (String.eqb (String c (n +:+ suf)) suf || endswith (n +:+ suf) suf).
    rewrite IH. apply orb_true_r.
Qed.

Lemma endswith_inv s suf : endswith s suf = true -> exists n, s = n +:+ suf.
Proof.
  induction s as [|c s IH].
  - change (endswith "" suf) with (String.eqb "" suf || false).
    rewrite orb_false_r. intros H. apply String.eqb_eq in H as <-. by exists "".
  - change (endswith (String c s) suf)
      with (String.eqb (String c s) suf || endswith s suf).
    intros H. apply orb_true_iff in H as [H|H].
    + apply String.eqb_eq in H as <-. by exists "".
    + destruct (IH H) as [n ->]. by exists (String c n).
Qed.

Lemma before_last_dot_app n e :
  before_last_dot e = None ->
  before_last_dot (n +:+ String "."%char e) = Some n.
Proof.
  intros He. induction n as [|c n IH].
  - change ("" +:+ String "."%char e) with (String "."%char e). simpl. by rewrite He.
  - change (String c n +:+ String "."%char e) with (String c (n +:+ String "."%char e)).
    simpl. by rewrite IH.
Qed.

Lemma stem_yml n : stem (n +:+ ".yml") = n.
Proof. unfold stem. by rewrite (before_last_dot_app n "yml"). Qed.

Lemma stem_yaml n : stem (n +:+ ".yaml") = n.
Proof. unfold stem. by rewrite (before_last_dot_app n "yaml"). Qed.

Lemma recipe_file_names f n :
  is_recipe_file f && String.eqb (stem f) n = true <-> names f n.
Proof.
  unfold is_recipe_file, names. rewrite andb_true_iff, orb_true_iff, String.eqb_eq.
  split.
  - intros [[H|H] Hs]; apply endswith_inv in H as [m ->].
    + left. by rewrite stem_yml in Hs; subst.
    + right. by rewrite stem_yaml in Hs; subst.
  - intros [->| ->].
    + split; [left; apply endswith_app | apply stem_yml].
    + split; [right; apply endswith_app | apply stem_yaml].
Qed.

Lemma names_dec f n : {names f n} + {~ names f n}.
Proof.
  destruct (is_recipe_file f && String.eqb (stem f) n) eqn:E.
  - left. by apply recipe_file_names.
  - right. intros H. apply recipe_file_names in H. congruence.
Defined.

Lemma path_join_nonempty base rel : path_join base rel <> "".
Proof.
  unfold path_join. destruct (String.eqb base "/"); [done|].
  destruct base; [done|done].
Qed.

(** *** The index *)

(** The first recipe file of [n] in a directory listing, and in the
    walk. *)
Fixpoint first_named (files : list string) (n : string) : option string :=
  match files with
  | [] => None
  | f :: files' =>
      if is_recipe_file f && String.eqb (stem f) n then Some f
      else first_named files' n
  end.

Fixpoint first_in_walk (walk : list (string * list string)) (n : string)
    : option string :=
  match walk with
  | [] => None
  | (root, files) :: walk' =>
      match first_named files n with
      | Some f => Some (path_join root f)
      | None => first_in_walk walk' n
      end
  end.

Lemma index_files_lookup root files index n :
  index_files root files index !! n
  = match index !! n with
    | Some p => Some p
    | None => path_join root <$> first_named files n
    end.
Proof.
  unfold index_files. revert index.
  induction files as [|f files IH]; intros index; simpl.
  - by destruct (index !! n).
  - rewrite IH. destruct (is_recipe_file f) eqn:Hf; simpl; [|done].
    unfold setdefault. destruct (String.eqb (stem f) n) eqn:Hs.
    + apply String.eqb_eq in Hs as <-.
      destruct (index !! stem f) eqn:E; [by rewrite E|].
      by rewrite lookup_insert_eq.
    + apply String.eqb_neq in Hs.
      destruct (index !! stem f) eqn:E; [done|].
      by rewrite lookup_insert_ne.
Qed.

Lemma build_from_lookup walk index n :
  build_from index walk !! n
  = match index !! n with
    | Some p => Some p
    | None => first_in_walk walk n
    end.
Proof.
  unfold build_from. revert index.
  induction walk as [|[root files] walk IH]; intros index; simpl.
  - by destruct (index !! n).
  - rewrite IH, index_files_lookup. destruct (index !! n); [done|].
    by destruct (first_named files n).
Qed.

Lemma first_named_Some files n f :
  first_named files n = Some f <->
  exists fs1 fs2, files = fs1 ++ f :: fs2 /\ names f n /\
                  forall g, g ∈ fs1 -> ~ names g n.
Proof.
  induction files as [|g files IH]; simpl.
  - split; [done|]. intros (fs1 & fs2 & H & _). by destruct fs1.
  - destruct (is_recipe_file g && String.eqb (stem g) n) eqn:E.
    + apply recipe_file_names in E. split.
      * intros [= <-]. exists [], files. split; [done|]. split; [done|].
        intros h Hh. by apply elem_of_nil in Hh.
      * intros (fs1 & fs2 & H & Hf & Hno). destruct fs1 as [|h fs1]; simpl in H.
        -- by injection H as ->.
        -- injection H as -> _. destruct (Hno h); [set_solver | done].
    + rewrite IH. split.
      * intros (fs1 & fs2 & -> & Hf & Hno). exists (g :: fs1), fs2.
        split; [done|]. split; [done|]. intros h Hh.
        apply elem_of_cons in Hh as [->|Hh]; [|by apply Hno].
        intros H. apply recipe_file_names in H. congruence.
      * intros (fs1 & fs2 & H & Hf & Hno). destruct fs1 as [|h fs1]; simpl in H.
        -- injection H as -> _. apply recipe_file_names in Hf. congruence.
        -- injection H as -> ->. exists fs1, fs2. split; [done|]. split; [done|].
           intros k Hk. apply Hno. set_solver.
Qed.

Lemma first_named_None files n :
  first_named files n = None <-> forall g, g ∈ files -> ~ names g n.
Proof.
  induction files as [|g files IH]; simpl.
  - split; [|done]. intros _ h Hh. by apply elem_of_nil in Hh.
  - destruct (is_recipe_file g && String.eqb (stem g) n) eqn:E.
    + split; [done|]. intros H. destruct (H g); [set_solver|].
      by apply recipe_file_names.
    + rewrite IH. split.
      * intros H h Hh. apply elem_of_cons in Hh as [->|Hh]; [|by apply H].
        intros Hn. apply recipe_file_names in Hn. congruence.
      * intros H h Hh. apply H. set_solver.
Qed.

(** No directory of the walk has a recipe file of [n]. *)
Definition nowhere (walk : list (string * list string)) (n : string) : Prop :=
  forall root files g, (root, files) ∈ walk -> g ∈ files -> ~ names g n.

Lemma first_in_walk_None walk n : first_in_walk walk n = None <-> nowhere walk n.
Proof.
  unfold nowhere. induction walk as [|[root files] walk IH]; simpl.
  - split; [|done]. intros _ r fs g H. by apply elem_of_nil in H.
  - destruct (first_named files n) as [f|] eqn:E.
    + split; [done|]. intros H. apply first_named_Some in E as (fs1 & fs2 & -> & Hf & _).
      destruct (H root (fs1 ++ f :: fs2) f); [set_solver | set_solver | done].
    + rewrite IH. rewrite first_named_None in E. split.
      * intros H r fs g Hin Hg. apply elem_of_cons in Hin as [[= -> ->]|Hin].
        -- by apply E.
        -- by eapply H.
      * intros H r fs g Hin. apply (H r fs g). set_solver.
Qed.

Lemma first_in_walk_Some walk n p :
  first_in_walk walk n = Some p <->
  exists w1 root fs1 f fs2 w2,
    walk = w1 ++ (root, fs1 ++ f :: fs2) :: w2 /\ p = path_join root f /\
    names f n /\ (forall g, g ∈ fs1 -> ~ names g n) /\ nowhere w1 n.
Proof.
  induction walk as [|[root files] walk IH]; simpl.
  - split; [done|]. intros (w1 & r & fs1 & f & fs2 & w2 & H & _). by destruct w1.
  - destruct (first_named files n) as [f|] eqn:E.
    + split.
      * intros [= <-]. apply first_named_Some in E as (fs1 & fs2 & -> & Hf & Hno).
        exists [], root, fs1, f, fs2, walk. split; [done|]. split; [done|].
        split; [done|]. split; [done|]. intros r fs g H. by apply elem_of_nil in H.
      * intros (w1 & r & fs1 & f' & fs2 & w2 & H & -> & Hf & Hno & Hw1).
        destruct w1 as [|[r0 fs0] w1]; simpl in H.
        -- injection H as -> -> ->.
           assert (first_named (fs1 ++ f' :: fs2) n = Some f') as Hfirst.
           { apply first_named_Some. by exists fs1, fs2. }
           rewrite Hfirst in E. by injection E as ->.
        -- injection H as -> -> ->. exfalso.
           apply first_named_Some in E as (gs1 & gs2 & -> & Hf0 & _).
           apply (Hw1 r0 (gs1 ++ f :: gs2) f); [set_solver | set_solver | done].
    + rewrite IH. rewrite first_named_None in E. split.
      * intros (w1 & r & fs1 & f & fs2 & w2 & -> & -> & Hf & Hno & Hw1).
        exists ((root, files) :: w1), r, fs1, f, fs2, w2.
        split; [done|]. split; [done|]. split; [done|]. split; [done|].
        intros r0 fs0 g Hin Hg. apply elem_of_cons in Hin as [[= -> ->]|Hin].
        -- by apply E.
        -- by eapply Hw1.
      * intros (w1 & r & fs1 & f & fs2 & w2 & H & -> & Hf & Hno & Hw1).
        destruct w1 as [|[r0 fs0] w1]; simpl in H.
        -- injection H as -> ->. destruct (E f); [set_solver | done].
        -- injection H as -> -> ->. exists w1, r, fs1, f, fs2, w2.
           split; [done|]. split; [done|]. split; [done|]. split; [done|].
           intros r1 fs g Hin. apply (Hw1 r1 fs g). set_solver.
Qed.

Lemma build_index_lookup_None walk n : build walk !! n = None <-> nowhere walk n.
Proof.
  unfold build. rewrite build_from_lookup, lookup_empty. apply first_in_walk_None.
Qed.

(** X16. The index built by [RecipeIndex.build] holds, for a name
    [n], the path of the first file called [n.yml] or [n.yaml] that
    the walk of the recipes directory meets, directories in the
    order of the walk and files in the order of their listing; a
    later file of the same name never replaces it; and it holds
    nothing for a name without such a file. *)
Theorem build_index_first_wins walk n :
  (forall p,
     build walk !! n = Some p <->
     exists w1 root fs1 f fs2 w2,
       walk = w1 ++ (root, fs1 ++ f :: fs2) :: w2 /\ p = path_join root f /\
       names f n /\ (forall g, g ∈ fs1 -> ~ names g n) /\ nowhere w1 n) /\
  (build walk !! n = None <-> nowhere walk n).
Proof.
  unfold build. split.
  - intros p. rewrite build_from_lookup, lookup_empty. apply first_in_walk_Some.
  - apply build_index_lookup_None.
Qed.

(** *** The fallback scan *)

Lemma names_in_files (files : list string) n :
  (forall g, g ∈ files -> ~ names g n) <->
  (n +:+ ".yml" ∉ files) /\ (n +:+ ".yaml" ∉ files).
Proof.
  split.
  - intros H. split; intros Hin; apply (H _ Hin); [by left | by right].
  - intros [H1 H2] g Hg [->| ->]; done.
Qed.

Lemma scan_None walk n : scan walk n = None <-> nowhere walk n.
Proof.
  unfold nowhere. induction walk as [|[root files] walk IH]; simpl.
  - split; [|done]. intros _ r fs g H. by apply elem_of_nil in H.
  - destruct (bool_decide (n +:+ ".yml" ∈ files)) eqn:E1.
    { apply bool_decide_eq_true in E1. split; [done|]. intros H.
      destruct (H root files (n +:+ ".yml")); [set_solver | done | by left]. }
    destruct (bool_decide (n +:+ ".yaml" ∈ files)) eqn:E2.
    { apply bool_decide_eq_true in E2. split; [done|]. intros H.
      destruct (H root files (n +:+ ".yaml")); [set_solver | done | by right]. }
    apply bool_decide_eq_false in E1, E2. rewrite IH. split.
    + intros H r fs g Hin Hg. apply elem_of_cons in Hin as [[= -> ->]|Hin].
      * by apply (names_in_files files n).
      * by eapply H.
    + intros H r fs g Hin. apply (H r fs g). set_solver.
Qed.

Lemma scan_Some_nonempty walk n q : scan walk n = Some q -> q <> "".
Proof.
  induction walk as [|[root files] walk IH]; simpl; [done|].
  destruct (bool_decide _); [intros [= <-]; apply path_join_nonempty|].
  destruct (bool_decide _); [intros [= <-]; apply path_join_nonempty|]. done.
Qed.

(** X17. [Recipes.find] raises its own [FileNotFoundError] exactly
    when the index has no path for the name (none, or an empty one)
    and no directory of the walk has a file called [name.yml] or
    [name.yaml]; a stale index alone never makes it do so. *)
Theorem find_raises_only_without_file index path_exists walk n :
  find_path index path_exists walk n = None <->
  (index !! n = None \/ index !! n = Some "") /\ nowhere walk n.
Proof.
  unfold find_path, usable. rewrite <- scan_None. split.
  - destruct (index !! n) as [p|] eqn:Ei.
    + destruct (String.eqb p "") eqn:Ep; simpl.
      * apply String.eqb_eq in Ep as ->.
        destruct (scan walk n) as [q|] eqn:Es; [|by auto].
        apply scan_Some_nonempty, String.eqb_neq in Es. by rewrite Es.
      * destruct (path_exists p); simpl; [by rewrite Ep|].
        destruct (scan walk n) as [q|] eqn:Es; [|by rewrite Ep].
        apply scan_Some_nonempty, String.eqb_neq in Es. by rewrite Es.
    + destruct (scan walk n) as [q|] eqn:Es; [|by auto].
      apply scan_Some_nonempty, String.eqb_neq in Es. by rewrite Es.
  - intros [[-> | ->] ->]; done.
Qed.

(** X18. The fallback scan of [Recipes.find] and a freshly built
    index know the same names: the scan finds a recipe for [n]
    exactly when [RecipeIndex.build] on the same walk lists [n]. *)
Theorem scan_agrees_with_index walk n :
  is_Some (scan walk n) <-> is_Some (build walk !! n).
Proof.
  rewrite <- !not_eq_None_Some.
  destruct (build_index_lookup_None walk n) as [H1 H2].
  rewrite scan_None. split; intros H Hnone; apply H; [by apply H1 | by apply H2].
Qed.

Lemma scan_09_None walk n :
  scan_09 walk n = None <->
  forall root (files : list string), (root, files) ∈ walk -> n +:+ ".yml" ∉ files.
Proof.
  induction walk as [|[root files] walk IH]; simpl.
  - split; [|done]. intros _ r fs H. by apply elem_of_nil in H.
  - destruct (bool_decide (n +:+ ".yml" ∈ files)) eqn:E1.
    { apply bool_decide_eq_true in E1. split; [done|]. intros H.
      destruct (H root files); [set_solver | done]. }
    apply bool_decide_eq_false in E1. rewrite IH. split.
    + intros H r fs Hin. apply elem_of_cons in Hin as [[= -> ->]|Hin]; [done|].
      by eapply H.
    + intros H r fs Hin. apply (H r fs). set_solver.
Qed.

(** X19. In [genpkg.py] a recipe kept in a file called [name.yaml]
    is found through the index only: when the index has no path for
    the name and no directory has [name.yml], [_find_recipe_path]
    finds nothing, although the index it builds would list the file;
    [Recipes.find] of [genpkg1.0.py] finds the file in the same
    situation. *)
Theorem yaml_recipe_needs_index_in_09 index path_exists walk n root files :
  index !! n = None ->
  (forall r (fs : list string), (r, fs) ∈ walk -> n +:+ ".yml" ∉ fs) ->
  (root, files) ∈ walk -> n +:+ ".yaml" ∈ files ->
  _find_recipe_path index path_exists walk n = None /\
  is_Some (build walk !! n) /\
  is_Some (find_path index path_exists walk n).
Proof.
  intros Hi Hyml Hin Hyaml.
  assert (Hsome : ~ nowhere walk n).
  { intros H. apply (H root files (n +:+ ".yaml")); [done | done | by right]. }
  split; [|split].
  - unfold _find_recipe_path. rewrite Hi. simpl. by apply scan_09_None.
  - apply not_eq_None_Some. intros H. by apply Hsome, build_index_lookup_None.
  - apply not_eq_None_Some. intros H. apply Hsome.
    destruct (find_path index path_exists walk n) as [p|] eqn:E; [done|].
    unfold find_path in E. rewrite Hi in E. simpl in E.
    destruct (scan walk n) as [q|] eqn:Es; [|by apply scan_None].
    apply scan_Some_nonempty, String.eqb_neq in Es. by rewrite Es in E.
Qed.

(** A recipes directory with [zlib.yaml] in a subdirectory and a
    second [zlib.yml] further on. *)
Definition tree0 : list (string * list string) :=
  [("/work/repo/recipes", ["README"; "gcc.yml"]);
   ("/work/repo/recipes/libs", ["zlib.yaml"; "notes.txt"]);
   ("/work/repo/recipes/old", ["zlib.yml"])].

(** X17 at [tree0]: nothing is called [bash.yml] or [bash.yaml],
    and the empty index has nothing either. *)
Lemma find_raises_only_without_file_witness :
  find_path ∅ (fun _ => true) tree0 "bash" = None.
Proof.
  apply (find_raises_only_without_file ∅ (fun _ => true) tree0 "bash").
  split; [by left|].
  intros root files g Hin Hg Hn.
  apply list_elem_of_In in Hin. simpl in Hin.
  destruct Hn as [->| ->];
    repeat (destruct Hin as [[= <- <-]|Hin];
            [apply list_elem_of_In in Hg; simpl in Hg;
             repeat (destruct Hg as [Hg|Hg]; [discriminate|]); destruct Hg|]);
    destruct Hin.
Defined.

(** The first file wins: [zlib] is indexed at [libs/zlib.yaml]. *)
Example build_tree0 :
  build tree0 !! "zlib" = Some "/work/repo/recipes/libs/zlib.yaml" /\
  build tree0 !! "gcc" = Some "/work/repo/recipes/gcc.yml" /\
  build tree0 !! "README" = None.
Proof. repeat split; by vm_compute. Qed.

(** X19 at a tree where [zlib.yaml] is the only recipe of [zlib]. *)
Lemma yaml_recipe_needs_index_in_09_witness :
  _find_recipe_path ∅ (fun _ => true)
    [("/work/repo/recipes/libs", ["zlib.yaml"; "notes.txt"])] "zlib" = None /\
  is_Some (build [("/work/repo/recipes/libs", ["zlib.yaml"; "notes.txt"])] !! "zlib") /\
  is_Some (find_path ∅ (fun _ => true)
             [("/work/repo/recipes/libs", ["zlib.yaml"; "notes.txt"])] "zlib").
Proof.
  apply (yaml_recipe_needs_index_in_09 ∅ (fun _ => true)
           [("/work/repo/recipes/libs", ["zlib.yaml"; "notes.txt"])] "zlib"
           "/work/repo/recipes/libs" ["zlib.yaml"; "notes.txt"]).
  - reflexivity.
  - intros r fs Hin Hg. apply list_elem_of_In in Hin. simpl in Hin.
    destruct Hin as [[= <- <-]|[]].
    apply list_elem_of_In in Hg. simpl in Hg.
    repeat (destruct Hg as [Hg|Hg]; [discriminate|]). destruct Hg.
  - apply list_elem_of_In. simpl. tauto.
  - apply list_elem_of_In. simpl. tauto.
Defined.

End Lookup.
